(** * PennyLane autodifferentiation interfaces (Autograd and JAX)

    A shallow embedding of [pennylane/interfaces/autograd.py] and
    [pennylane/interfaces/jax.py]: the batch-execution entry points, the
    backward (VJP) and tangent (JVP) rules they register with the host
    automatic-differentiation engine, the Jacobian cache and the result
    marshalling helpers.

    Python values are embedded as a small universal type; tape objects live
    in a store indexed by object identity, since the entry points mutate the
    caller's tapes while parameter substitution allocates new ones; code that
    raises, mutates or calls the backend runs in a state-and-exception monad
    whose state also records the calls made to the backend, to the gradient
    rule and back into the entry points. *)

From Stdlib Require Import ZArith List String Bool Lia.
From stdpp Require Import base tactics option list relations functions.

Open Scope Z_scope.
Open Scope string_scope.
Open Scope list_scope.

(** ** Python values *)

(** Entries of numeric arrays.  Only [num_add] is ever applied to them (by
    [qml.math.sum]); nothing is assumed about it, so the development holds
    for floating-point addition as for exact arithmetic. *)
Class Numeric := {
  num : Type;
  num_add : num → num → num
}.

(** What wraps an array: nothing, an Autograd [ArrayBox] or a JAX
    [JVPTracer]. *)
Inductive tracekind := Plain | ArrayBox | JVPTracer.

(** The box of the result of a primitive applied to two operands. *)
Definition join_kind (k1 k2 : tracekind) : tracekind :=
  match k1 with Plain => k2 | _ => k1 end.

Set Warnings "-register-all".

Section Values.
Context `{Numeric}.

(** A dense array in row-major order. *)
Record ndarray := NdArray { shape : list nat; data : list num }.

Inductive value :=
| VArr (k : tracekind) (a : ndarray)       (* numpy, tensor, jax array *)
| VRagged (l : list value)                 (* ndarray of dtype object *)
| VDict (d : list (string * nat))          (* a counts dictionary *)
| VStr (s : string)
| VList (l : list value)
| VTuple (l : list value)
| VNone.

(** [isinstance(r, dict)], [isinstance(r, list)], [isinstance(r, tuple)],
    [isinstance(r, np.ndarray)], [isinstance(v, ArrayBox)],
    [isinstance(r, jax.interpreters.ad.JVPTracer)]. *)
Definition is_dict (v : value) : bool :=
  match v with VDict _ => true | _ => false end.
Definition is_list (v : value) : bool :=
  match v with VList _ => true | _ => false end.
Definition is_tuple (v : value) : bool :=
  match v with VTuple _ => true | _ => false end.
Definition is_ndarray (v : value) : bool :=
  match v with VArr Plain _ | VRagged _ => true | _ => false end.
Definition is_object_dtype (v : value) : bool :=
  match v with VRagged _ => true | _ => false end.
Definition is_ArrayBox (v : value) : bool :=
  match v with VArr ArrayBox _ => true | _ => false end.
Definition is_JVPTracer (v : value) : bool :=
  match v with VArr JVPTracer _ => true | _ => false end.

(** Keyword arguments ([gradient_kwargs]). *)
Definition kwargs := list (string * value).

(** ** Tapes and devices *)

Inductive measurement_type :=
| CountsMP | ProbabilityMP | SampleMP | ExpectationMP | VarianceMP | StateMP.

#[global] Instance measurement_type_eq_dec : EqDecision measurement_type.
Proof. solve_decision. Defined.

Record measurement := Measurement {
  mp_type : measurement_type;            (* type(m) *)
  mp_wires : list nat                    (* m.wires *)
}.

Record operation := Operation {
  op_name : string;
  op_wires : list nat;
  op_data : list value                   (* op.data, the gate parameters *)
}.

(** A shot vector: pairs (shots, copies). *)
Definition shot_vector_t := list (nat * nat).

Record shots_t := Shots {
  shot_vector : shot_vector_t;
  has_partitioned_shots : bool
}.

(** The fields of a tape the interfaces read; [trainable_params] is the one
    they assign. *)
Record tape := Tape {
  operations : list operation;
  measurements : list measurement;
  trainable_params : list nat;
  batch_size : option nat;
  output_dim : nat;
  shots : shots_t
}.

Definition with_trainable_params (t : tape) (idx : list nat) : tape :=
  {| operations := operations t; measurements := measurements t;
     trainable_params := idx; batch_size := batch_size t;
     output_dim := output_dim t; shots := shots t |}.

(** [qml.devices.experimental.Device] instances carry no shot vector of
    their own; the other devices have a [shot_vector] attribute that is
    [None] or a shot vector. *)
Inductive device :=
| ExperimentalDevice
| LegacyDevice (shot_vector : option shot_vector_t).

(** Truth value of [device.shot_vector]. *)
Definition truthy_shots (sv : option shot_vector_t) : bool :=
  match sv with Some (_ :: _) => true | _ => false end.

(** ** Exceptions and outcomes *)

Inductive exn :=
| InterfaceUnsupportedError (msg : string)
| IndexError
| TypeError
| ValueError
| AttributeError
| UnboundLocalError
| BackendError (msg : string).           (* raised by a collaborator *)

Inductive outcome (A : Type) :=
| Ret (a : A)
| Raise (e : exn).
#[global] Arguments Ret {A} a.
#[global] Arguments Raise {A} e.

#[global] Instance outcome_ret : MRet outcome := λ A a, Ret a.
#[global] Instance outcome_bind : MBind outcome := λ A B f m,
  match m with Ret a => f a | Raise e => Raise e end.

(** ** The gradient rule and the backend *)

(** [execute_fn(tapes, **kwargs)], returning [(results, jacobians)]; the
    keyword arguments are absent in the calls [execute_fn(tapes)]. *)
Definition execute_fn_t :=
  list tape → option kwargs → outcome (list value * list value).

(** A gradient rule is a Python callable.  The interfaces look at its
    [__name__], test whether it is an instance of
    [qml.gradients.gradient_transform], and call it either on one tape
    (expecting gradient tapes and a processing function) or on a batch of
    tapes (expecting Jacobians); [on_tape] and [on_batch] are these two
    uses.  The first argument of [on_tape] is the [shots=] keyword when the
    call passes it. *)
Record gradient_rule := GradientRule {
  rule_name : string;
  is_gradient_transform : bool;
  on_tape : option (option shot_vector_t) → kwargs → tape →
            outcome (list tape * (list value → value));
  on_batch : list tape → kwargs → outcome (list value)
}.
End Values.


(** ** Collaborators *)

Section TapeMethods.
Context `{Numeric}.

(** Modelled from the spec: [tape.get_parameters(trainable_only=b)], which is
    a method of the tape class.  A tape is "an ordered sequence of
    parameterized operations" that "carries a mutable set of trainable
    parameter indices": its full parameter list is the data of its
    operations in order, and its trainable parameters are the entries of
    that list at the trainable indices, "in tape-defined order". *)
Definition get_parameters (t : tape) (trainable_only : bool) : list value :=
  let params := concat (map op_data (operations t)) in
  if trainable_only then omap (λ i, params !! i) (trainable_params t)
  else params.
End TapeMethods.

(** Modelled from the spec: the tape methods and the functions of
    [qml.math], [qml.gradients], [qml.transforms], NumPy and JAX that the two
    interface modules call and that live outside them (see
    [get_parameters] for the remaining one).  The tape methods
    [bind_new_parameters] and [convert_to_numpy_parameters] return a new tape
    ("bind new parameters, get a new tape") and are therefore functions of
    the tape they read; the model allocates their result as a new object.
    The array conversions, the contraction rules and the batch transforms are
    left uninterpreted. *)
Class Library `{Numeric} := {
  (* qml.math.get_trainable_indices *)
  get_trainable_indices : list value → list nat;
  (* pennylane.transforms.convert_to_numpy_parameters *)
  convert_to_numpy_parameters : tape → tape;
  (* tape.bind_new_parameters(params, indices) *)
  bind_new_parameters : tape → list value → list nat → tape;
  (* jnp.array, np.tensor, np.hstack, qml.math.toarray, qml.math.T,
     qml.math.unstack, jnp.concatenate *)
  jnp_array : value → value;
  np_tensor : value → value;
  np_hstack : value → value;
  math_toarray : value → value;
  math_T : value → value;
  math_unstack : value → value;
  jnp_concatenate : list value → value;
  (* qml.math.to_numpy(v, max_depth=n) *)
  math_to_numpy : Z → value → value;
  (* v[a:b] and r.swapaxes(a, b) *)
  getslice : value → nat → nat → value;
  swapaxes : value → nat → nat → value;
  (* qml.gradients.compute_vjp and its single/multi variants, compute_jvp_* *)
  compute_vjp : value → value → value;
  compute_vjp_single : value → value → value;
  compute_vjp_multi : value → value → value;
  compute_jvp_single : value → value → value;
  compute_jvp_multi : value → value → value;
  (* qml.gradients.batch_vjp(tapes, dys, gradient_fn, shots=..,
     reduction="append", gradient_kwargs=..) and batch_jvp likewise *)
  batch_vjp : list tape → list value → gradient_rule →
              option (option shot_vector_t) → kwargs →
              list tape * (list value → list value);
  batch_jvp : list tape → list value → gradient_rule →
              option (option shot_vector_t) → kwargs →
              list tape * (list value → list value);
  (* qml.transforms.map_batch_transform(transform, tapes) *)
  map_batch_transform :
    (tape → outcome (list tape * (list value → value))) → list tape →
    outcome (list tape * (list value → list value))
}.

(** ** The world: tape objects and the record of calls *)

(** Identity of a tape object. *)
Abbreviation loc := nat.

Inductive entry_point :=
| AutogradExecute | AutogradExecuteLegacy | JaxExecute | JaxExecuteLegacy.

(** Where a call of the backend comes from: the forward pass, the Jacobian
    cache, or the execution of gradient (VJP or JVP) tapes. *)
Inductive call_site := ForwardPass | JacobianCache | GradientTapes.

Section World.
Context `{Library}.

Inductive event :=
| Enter (ep : entry_point) (n max_diff : Z) (tapes : list loc)
| CallExecuteFn (site : call_site) (tapes : list tape) (kw : option kwargs)
| CallGradientFn (tapes : list tape) (kw : kwargs).

Record world := World {
  store : loc → tape;                    (* the tape objects *)
  next_loc : loc;                        (* objects from here on are new *)
  active_return : bool;                  (* qml.active_return() *)
  trace : list event                     (* oldest first *)
}.

Definition M (A : Type) : Type := world → outcome A * world.

#[global] Instance M_ret : MRet M := λ A a w, (Ret a, w).
#[global] Instance M_bind : MBind M := λ A B f m w,
  match m w with
  | (Ret a, w') => f a w'
  | (Raise e, w') => (Raise e, w')
  end.

Definition raise {A} (e : exn) : M A := λ w, (Raise e, w).
Definition lift {A} (o : outcome A) : M A := λ w, (o, w).
Definition log (e : event) : M unit := λ w,
  (Ret (), World (store w) (next_loc w) (active_return w) (trace w ++ [e])).
Definition load (l : loc) : M tape := λ w, (Ret (store w l), w).
Definition assign (l : loc) (t : tape) : M unit := λ w,
  (Ret (), World (<[l := t]> (store w)) (next_loc w) (active_return w) (trace w)).
Definition alloc (t : tape) : M loc := λ w,
  (Ret (next_loc w),
   World (<[next_loc w := t]> (store w)) (S (next_loc w)) (active_return w) (trace w)).
Definition get_active_return : M bool := λ w, (Ret (active_return w), w).

(** [for x in l: f(x)] and [[f(x) for x in l]]. *)
Fixpoint for_each {A} (f : A → M unit) (l : list A) : M unit :=
  match l with
  | [] => mret ()
  | x :: l' => _ ← f x; for_each f l'
  end.

Fixpoint mapM {A B} (f : A → M B) (l : list A) : M (list B) :=
  match l with
  | [] => mret []
  | x :: l' => y ← f x; ys ← mapM f l'; mret (y :: ys)
  end.

(** The same comprehension when the body can only raise. *)
Fixpoint mapO {A B} (f : A → outcome B) (l : list A) : outcome (list B) :=
  match l with
  | [] => Ret []
  | x :: l' => y ← f x; ys ← mapO f l'; Ret (y :: ys)
  end.

(** [any(f(x) for x in l)], which stops at the first true value. *)
Fixpoint anyO {A} (f : A → outcome bool) (l : list A) : outcome bool :=
  match l with
  | [] => Ret false
  | x :: l' =>
      match f x with
      | Ret true => Ret true
      | Ret false => anyO f l'
      | Raise e => Raise e
      end
  end.

(** [l[i]] on a Python sequence. *)
Definition getitem {A} (l : list A) (i : nat) : outcome A :=
  match l !! i with Some x => Ret x | None => Raise IndexError end.

(** A call of the backend, recorded. *)
Definition call_execute_fn (site : call_site) (execute_fn : execute_fn_t)
    (tapes : list tape) (kw : option kwargs) : M (list value * list value) :=
  _ ← log (CallExecuteFn site tapes kw);
  lift (execute_fn tapes kw).

(** A call [gradient_fn(tapes, **gradient_kwargs)] on a batch, recorded. *)
Definition call_gradient_fn (g : gradient_rule) (tapes : list tape)
    (kw : kwargs) : M (list value) :=
  _ ← log (CallGradientFn tapes kw);
  lift (on_batch g tapes kw).

(** Tapes produced by a transform become new objects. *)
Definition alloc_all (ts : list tape) : M (list loc) := mapM alloc ts.
Definition load_all (ls : list loc) : M (list tape) := mapM load ls.
End World.

(** ** Arrays: the operations the interfaces apply themselves *)

Section Arrays.
Context `{Library}.

(** [n] consecutive blocks of [sz] entries. *)
Fixpoint chunks {A} (n sz : nat) (l : list A) : list (list A) :=
  match n with
  | O => []
  | S n' => take sz l :: chunks n' sz (drop sz l)
  end.

Definition size_of (sh : list nat) : nat := foldr Nat.mul 1%nat sh.

(** [for x in v]: the elements of a sequence, the slices of an array along
    its first axis, the keys of a dictionary. *)
Definition iter_value (v : value) : outcome (list value) :=
  match v with
  | VList l | VTuple l | VRagged l => Ret l
  | VArr k a =>
      match shape a with
      | [] => Raise TypeError
      | n :: rest =>
          Ret (map (λ d, VArr k (NdArray rest d)) (chunks n (size_of rest) (data a)))
      end
  | VDict d => Ret (map (λ p, VStr (fst p)) d)
  | VStr s => Ret (map (λ c, VStr (String c EmptyString)) (list_ascii_of_string s))
  | VNone => Raise TypeError
  end.

(** [r.ndim] and [j.shape[i]]. *)
Definition ndim (v : value) : outcome nat :=
  match v with
  | VArr _ a => Ret (length (shape a))
  | VRagged _ => Ret 1%nat
  | _ => Raise AttributeError
  end.

Definition shape_at (v : value) (i : nat) : outcome nat :=
  match v with
  | VArr _ a => getitem (shape a) i
  | VRagged l => getitem [length l] i
  | _ => Raise AttributeError
  end.

(** [j[k, i]] on an array with at least two axes. *)
Definition getitem2 (v : value) (k i : nat) : outcome value :=
  match v with
  | VArr b a =>
      match shape a with
      | r :: c :: rest =>
          if bool_decide (k < r ∧ i < c)%nat then
            Ret (VArr b (NdArray rest
                   (take (size_of rest) (drop ((k * c + i) * size_of rest) (data a)))))
          else Raise IndexError
      | _ => Raise IndexError
      end
  | _ => Raise TypeError
  end.

(** Entry-wise sum of two blocks of equal length. *)
Definition add_data (x y : list num) : list num := zip_with num_add x y.

(** [qml.math.sum(qml.math.stack(vs), axis=0)]: the arrays must be of one
    shape, and there must be at least one; the entries are added in the
    order of the list. *)
Definition as_array (v : value) : outcome (tracekind * ndarray) :=
  match v with VArr k a => Ret (k, a) | _ => Raise TypeError end.

Definition same_shape (a b : ndarray) : bool :=
  bool_decide (shape a = shape b) && bool_decide (length (data a) = length (data b)).

Definition sum_stack_axis0 (vs : list value) : outcome value :=
  arrs ← mapO as_array vs;
  match arrs with
  | [] => Raise ValueError
  | (k0, a0) :: rest =>
      if forallb (λ p, same_shape a0 (snd p)) rest then
        Ret (VArr (foldl (λ k p, join_kind k (fst p)) k0 rest)
                  (NdArray (shape a0)
                     (foldl (λ acc p, add_data acc (data (snd p))) (data a0) rest)))
      else Raise ValueError
  end.
End Arrays.

(** ** Helpers shared by the two interfaces *)

Section Common.
Context `{Library}.

(** [any(isinstance(m, CountsMP) for m in tape.measurements)] and the same
    test for [ProbabilityMP]. *)
Definition has_measurement (mt : measurement_type) (t : tape) : bool :=
  existsb (λ m, bool_decide (mp_type m = mt)) (measurements t).

(** [len(tape.measurements) > 1]. *)
Definition multi_measurement (t : tape) : bool :=
  bool_decide (1 < length (measurements t))%nat.

(** The loop body
    [params = tape.get_parameters(trainable_only=False);
     tape.trainable_params = qml.math.get_trainable_indices(params)]. *)
Definition recompute_trainable (t : tape) : tape :=
  with_trainable_params t (get_trainable_indices (get_parameters t false)).

Definition set_trainable_params (l : loc) : M unit :=
  t ← load l;
  assign l (recompute_trainable t).

(** [tuple(list(t.get_parameters()) for t in tapes)]. *)
Definition trainable_parameters (tapes : list loc) : M (list (list value)) :=
  mapM (λ l, t ← load l; mret (get_parameters t true)) tapes.

(** [tuple(convert_to_numpy_parameters(t) for t in tapes)]: new tapes. *)
Definition unwrap_tapes (tapes : list loc) : M (list loc) :=
  mapM (λ l, t ← load l; alloc (convert_to_numpy_parameters t)) tapes.
End Common.

(** * The JAX interface ([pennylane/interfaces/jax.py]) *)

Module Jax.
Section Jax.
Context `{Library}.

Definition _set_copy_and_unwrap_tape (t : loc) (a : list value) (unwrap : bool)
    : M loc :=
  tv ← load t;
  tc ← alloc (bind_new_parameters tv a (trainable_params tv));
  if unwrap then
    tcv ← load tc;
    alloc (convert_to_numpy_parameters tcv)
  else mret tc.

Definition set_parameters_on_copy_and_unwrap (tapes : list loc)
    (params : list (list value)) (unwrap : bool) : M (list loc) :=
  mapM (λ ta, _set_copy_and_unwrap_tape ta.1 ta.2 unwrap) (zip tapes params).

(** *** Result marshalling *)

Definition _is_count_result (r : value) : bool :=
  is_dict r ||
  match r with VList l => forallb is_dict l | _ => false end.

Definition _to_jax (res : list value) : list value :=
  map (λ r,
    if _is_count_result r then r
    else match r with
         | VTuple sub =>
             VTuple (map (λ r_i, if _is_count_result r_i then r_i else jnp_array r_i) sub)
         | _ => jnp_array r
         end) res.

Definition _to_jax_shot_vector (res : list value) : outcome (list value) :=
  mapO (λ r,
    items ← iter_value r;
    per_shot ← mapO (λ r_, getitem (_to_jax [r_]) 0) items;
    Ret (VTuple per_shot)) res.

(** *** The legacy entry point *)

Definition _validate_tape (t : tape) : outcome unit :=
  let measurement_types := map mp_type (measurements t) in
  let set_of_measurement_types := remove_dups measurement_types in
  let probs_or_sample_measure :=
    bool_decide (SampleMP ∈ measurement_types)
    || bool_decide (ProbabilityMP ∈ measurement_types) in
  if probs_or_sample_measure
     && bool_decide (1 < length set_of_measurement_types)%nat then
    Raise (InterfaceUnsupportedError
      "Using the JAX interface, sample and probability measurements cannot be mixed with other measurement types.")
  else if bool_decide (ProbabilityMP ∈ measurement_types) then
    let set_len_wires := remove_dups (map (λ m, length (mp_wires m)) (measurements t)) in
    if bool_decide (1 < length set_len_wires)%nat then
      Raise (InterfaceUnsupportedError
        "Using the JAX interface, multiple probability measurements need to have the same number of wires specified.")
    else Ret ()
  else Ret ().

Definition _validate_tapes (tapes : list loc) : M unit :=
  for_each (λ l, t ← load l; lift (_validate_tape t)) tapes.

Definition array_if_not_counts (t : tape) (r : value) : outcome value :=
  if has_measurement CountsMP t then
    match batch_size t with
    | Some _ =>
        Raise (InterfaceUnsupportedError
          "Broadcasted circuits with counts return types are only supported with the new return system. Use qml.enable_return() to turn it on.")
    | None => Ret r
    end
  else Ret (jnp_array r).

(** [wrapped_exec] of [_execute_legacy]. *)
Definition _execute_legacy_wrapped_exec (tapes : list loc)
    (execute_fn : execute_fn_t) (gradient_kwargs : kwargs)
    (params : list (list value)) : M value :=
  new_tapes ← set_parameters_on_copy_and_unwrap tapes params true;
  new_tapes ← load_all new_tapes;
  r ← call_execute_fn ForwardPass execute_fn new_tapes (Some gradient_kwargs);
  let res := r.1 in
  ts ← load_all tapes;
  if bool_decide (1 < length tapes)%nat then
    rs ← lift (mapO (λ tr, array_if_not_counts tr.1 tr.2) (zip ts res));
    mret (VList rs)
  else
    t0 ← lift (getitem ts 0);
    lift (array_if_not_counts t0 (VList res)).

(** The value of [multi_probs] after the loop [for t in tapes: multi_probs =
    ...]: the assignment of the last iteration, none for an empty batch. *)
Definition multi_probs_after_loop (ts : list tape) : option bool :=
  foldl (λ _ t, Some (has_measurement ProbabilityMP t && multi_measurement t))
        None ts.

Definition swap_if_matrix (r : value) : outcome value :=
  d ← ndim r;
  Ret (if bool_decide (1 < d)%nat then swapaxes r 0 1 else r).

(** The adjustment for multiple probability measurements: the loop over
    the tapes, then the test of [multi_probs] and the loop over the partial
    results.  [multi_probs] is unbound when the batch is empty. *)
Definition adjust_multi_probs (ts : list tape) (partial_res : list value)
    : outcome (list value) :=
  match multi_probs_after_loop ts with
  | None => Raise UnboundLocalError
  | Some true => mapO swap_if_matrix partial_res
  | Some false => Ret partial_res
  end.

(** The loop that groups the VJPs by the parameters of the tapes. *)
Fixpoint group_vjps (vjps : value) (param_idx : nat) (params : list (list value))
    : list value :=
  match params with
  | [] => []
  | p :: ps =>
      getslice vjps param_idx (param_idx + length p)
      :: group_vjps vjps (param_idx + length p) ps
  end.

(** The end of the transform branch of [wrapped_exec_bwd]: the partial
    results are processed, concatenated, grouped by tape and unstacked. *)
Definition group_and_unstack (processing_fn : list value → list value)
    (params : list (list value)) (partial_res : list value) : outcome value :=
  let res := processing_fn partial_res in
  let vjps := jnp_concatenate res in
  let res := group_vjps vjps 0 params in
  match anyO (λ r, d ← ndim r; Ret (negb (bool_decide (d = 0%nat)))) res with
  | Ret need_unstacking =>
      let res := if need_unstacking then map math_unstack res else res in
      Ret (VTuple [VTuple res])
  | Raise e => Raise e
  end.

(** [wrapped_exec_bwd] of [_execute_legacy]. *)
Definition _execute_legacy_wrapped_exec_bwd (tapes : list loc)
    (execute_fn : execute_fn_t) (gradient_fn : gradient_rule)
    (gradient_kwargs : kwargs) (params : list (list value)) (g : list value)
    : M value :=
  if is_gradient_transform gradient_fn then
    new_tapes ← set_parameters_on_copy_and_unwrap tapes params true;
    new_tapes ← load_all new_tapes;
    let '(vjp_tapes, processing_fn) :=
      batch_vjp new_tapes g gradient_fn None gradient_kwargs in
    _ ← alloc_all vjp_tapes;
    r ← call_execute_fn GradientTapes execute_fn vjp_tapes None;
    let partial_res := r.1 in
    ts ← load_all tapes;
    partial_res ← lift (adjust_multi_probs ts partial_res);
    lift (group_and_unstack processing_fn params partial_res)
  else
    unwrapped_tapes ← unwrap_tapes tapes;
    unwrapped_tapes ← load_all unwrapped_tapes;
    jacs ← call_gradient_fn gradient_fn unwrapped_tapes gradient_kwargs;
    let vjps := map (λ dj, compute_vjp dj.1 dj.2) (zip g jacs) in
    res ← lift (mapO (λ v, ps ← iter_value v; Ret (VList (map jnp_array ps))) vjps);
    mret (VTuple [VTuple res]).

Definition _execute_legacy (params : list (list value)) (tapes : list loc)
    (execute_fn : execute_fn_t) (gradient_fn : gradient_rule)
    (gradient_kwargs : kwargs) : M value :=
  _execute_legacy_wrapped_exec tapes execute_fn gradient_kwargs params.

Definition _raise_vector_valued_fwd (ts : list tape) : outcome unit :=
  let scalar_outputs := forallb (λ t, bool_decide (output_dim t = 1%nat)) ts in
  if negb scalar_outputs then
    Raise (InterfaceUnsupportedError
      "Computing the jacobian of vector-valued tapes is not supported currently in forward mode.")
  else Ret ().

(** [wrapped_exec] of [_execute_fwd_legacy]: the pair [(res, jacs)]. *)
Definition _execute_fwd_legacy_wrapped_exec (tapes : list loc)
    (execute_fn : execute_fn_t) (gradient_kwargs : kwargs)
    (params : list (list value)) : M (value * value) :=
  new_tapes ← set_parameters_on_copy_and_unwrap tapes params true;
  new_tapes ← load_all new_tapes;
  r ← call_execute_fn ForwardPass execute_fn new_tapes (Some gradient_kwargs);
  if bool_decide (1 < length tapes)%nat then
    mret (VList (map jnp_array r.1), VList (map jnp_array r.2))
  else
    mret (jnp_array (VList r.1), jnp_array (VList r.2)).

(** One column [i] of a stored Jacobian [j]. *)
Definition jacobian_column (j : value) (i : nat) : outcome value :=
  rows ← shape_at j 0;
  if bool_decide (rows = 1%nat) then getitem2 j 0 i
  else
    col ← mapO (λ k, getitem2 j k i) (seq 0 rows);
    Ret (jnp_array (VList col)).

Definition reshape_jacobian (j : value) : outcome value :=
  cols ← shape_at j 1;
  this_j ← mapO (jacobian_column j) (seq 0 cols);
  Ret (VList this_j).

(** [wrapped_exec_bwd] of [_execute_fwd_legacy]; its first argument is the
    pair [(jacs, params)] saved by the forward rule. *)
Definition _execute_fwd_legacy_wrapped_exec_bwd (tapes : list loc)
    (saved : value * list (list value)) (g : list value) : M value :=
  let '(jacs, params) := saved in
  ts ← load_all tapes;
  _ ← lift (_raise_vector_valued_fwd ts);
  js ← lift (iter_value jacs);
  res_jacs ← lift (mapO reshape_jacobian js);
  mret (VTuple [VTuple res_jacs]).

Definition _execute_fwd_legacy (params : list (list value)) (tapes : list loc)
    (execute_fn : execute_fn_t) (gradient_kwargs : kwargs) : M value :=
  res ← _execute_fwd_legacy_wrapped_exec tapes execute_fn gradient_kwargs params;
  let tracing := existsb is_JVPTracer [res.1; res.2] in
  if bool_decide (length [res.1; res.2] = 2%nat) && negb tracing then mret res.1
  else mret (VTuple [res.1; res.2]).

Definition execute_legacy (tapes : list loc) (dev : device)
    (execute_fn : execute_fn_t) (gradient_fn : option gradient_rule)
    (gradient_kwargs : kwargs) (_n max_diff : Z) : M value :=
  _ ← log (Enter JaxExecuteLegacy _n max_diff tapes);
  if bool_decide (1 < max_diff) then
    raise (InterfaceUnsupportedError
      "The JAX interface only supports first order derivatives.")
  else
    _ ← _validate_tapes tapes;
    _ ← (if bool_decide (_n = 1) then for_each set_trainable_params tapes
         else mret ());
    parameters ← trainable_parameters tapes;
    match gradient_fn with
    | None => _execute_fwd_legacy parameters tapes execute_fn gradient_kwargs
    | Some g => _execute_legacy parameters tapes execute_fn g gradient_kwargs
    end.

(** *** The entry point *)

(** [_compute_jvps]. *)
Definition _compute_jvps (jacs tangents : list value)
    (multi_measurements : list bool) : outcome (list value) :=
  mapO (λ im : nat * bool,
    let compute_func :=
      if im.2 then compute_jvp_multi else compute_jvp_single in
    t ← getitem tangents im.1;
    j ← getitem jacs im.1;
    Ret (compute_func t j)) (imap pair multi_measurements).

(** The shot settings read at the start of [_execute_bwd]: the truth value
    of [has_partitioned_shots] and [jvp_shots]. *)
Definition bwd_shots (dev : device) (tapes : list loc)
    : M (bool * option shot_vector_t) :=
  match dev with
  | ExperimentalDevice =>
      ts ← load_all tapes;
      t0 ← lift (getitem ts 0);
      mret (has_partitioned_shots (shots t0), None)
  | LegacyDevice sv => mret (truthy_shots sv, sv)
  end.

(** [execute_wrapper] of [_execute_bwd]. *)
Definition _execute_bwd_execute_wrapper (tapes : list loc)
    (execute_fn : execute_fn_t) (gradient_kwargs : kwargs)
    (has_partitioned : bool) (params : list (list value)) : M (list value) :=
  new_tapes ← set_parameters_on_copy_and_unwrap tapes params true;
  new_tapes ← load_all new_tapes;
  r ← call_execute_fn ForwardPass execute_fn new_tapes (Some gradient_kwargs);
  if has_partitioned then lift (_to_jax_shot_vector r.1)
  else mret (_to_jax r.1).

Definition _execute_bwd (params : list (list value)) (tapes : list loc)
    (dev : device) (execute_fn : execute_fn_t) (gradient_fn : gradient_rule)
    (gradient_kwargs : kwargs) (_n max_diff : Z) : M (list value) :=
  sh ← bwd_shots dev tapes;
  _execute_bwd_execute_wrapper tapes execute_fn gradient_kwargs sh.1 params.

(** [execute_wrapper] of [_execute_fwd]: the pair [(res, jacs)]. *)
Definition _execute_fwd_execute_wrapper (tapes : list loc)
    (execute_fn : execute_fn_t) (gradient_kwargs : kwargs)
    (params : list (list value)) : M (list value * list value) :=
  new_tapes ← set_parameters_on_copy_and_unwrap tapes params true;
  new_tapes ← load_all new_tapes;
  r ← call_execute_fn ForwardPass execute_fn new_tapes (Some gradient_kwargs);
  mret (_to_jax r.1, r.2).

(** [execute_wrapper_jvp] of [_execute_fwd]. *)
Definition _execute_fwd_execute_wrapper_jvp (tapes : list loc)
    (execute_fn : execute_fn_t) (gradient_kwargs : kwargs)
    (primals tangents : list (list value))
    : M ((list value * list value) * (list value * list value)) :=
  r ← _execute_fwd_execute_wrapper tapes execute_fn gradient_kwargs primals;
  ts ← load_all tapes;
  let multi_measurements := map multi_measurement ts in
  jvps ← lift (_compute_jvps r.2 (map VList tangents) multi_measurements);
  mret ((r.1, r.2), (jvps, r.2)).

Definition _execute_fwd (params : list (list value)) (tapes : list loc)
    (execute_fn : execute_fn_t) (gradient_kwargs : kwargs) (_n : Z)
    : M (list value) :=
  r ← _execute_fwd_execute_wrapper tapes execute_fn gradient_kwargs params;
  mret r.1.

Definition execute (tapes : list loc) (dev : device)
    (execute_fn : execute_fn_t) (gradient_fn : option gradient_rule)
    (gradient_kwargs : kwargs) (_n max_diff : Z) : M (list value) :=
  _ ← log (Enter JaxExecute _n max_diff tapes);
  _ ← (if bool_decide (_n = 1) then for_each set_trainable_params tapes
       else mret ());
  parameters ← trainable_parameters tapes;
  match gradient_fn with
  | None => _execute_fwd parameters tapes execute_fn gradient_kwargs _n
  | Some g =>
      _execute_bwd parameters tapes dev execute_fn g gradient_kwargs _n max_diff
  end.

(** [execute_wrapper_jvp] of [_execute_bwd], the tangent rule registered for
    [execute_wrapper]: [primals] and [tangents] stand for [primals[0]] and
    [tangents[0]]; [has_partitioned] and [jvp_shots] are the variables of
    the enclosing [_execute_bwd] (see [bwd_shots]). *)
Definition _execute_bwd_execute_wrapper_jvp (tapes : list loc) (dev : device)
    (execute_fn : execute_fn_t) (gradient_fn : gradient_rule)
    (gradient_kwargs : kwargs) (_n max_diff : Z)
    (has_partitioned : bool) (jvp_shots : option shot_vector_t)
    (primals tangents : list (list value)) : M (list value * list value) :=
  if is_gradient_transform gradient_fn then
    let at_max_diff := bool_decide (_n = max_diff) in
    new_tapes ← set_parameters_on_copy_and_unwrap tapes primals at_max_diff;
    new_tapes ← load_all new_tapes;
    let '(jvp_tapes, processing_fn) :=
      batch_jvp new_tapes (map VList tangents) gradient_fn (Some jvp_shots)
                gradient_kwargs in
    jvp_locs ← alloc_all jvp_tapes;
    jvps ←
      (if at_max_diff then
         r ← call_execute_fn GradientTapes execute_fn jvp_tapes None;
         mret (processing_fn r.1)
       else
         r ← execute jvp_locs dev execute_fn (Some gradient_fn) gradient_kwargs
               (_n + 1) max_diff;
         mret (processing_fn r));
    res ← _execute_bwd_execute_wrapper tapes execute_fn gradient_kwargs
            has_partitioned primals;
    mret (res, jvps)
  else
    res ← _execute_bwd_execute_wrapper tapes execute_fn gradient_kwargs
            has_partitioned primals;
    new_tapes ← set_parameters_on_copy_and_unwrap tapes primals true;
    new_tapes ← load_all new_tapes;
    jacs ← call_gradient_fn gradient_fn new_tapes gradient_kwargs;
    let multi_measurements := map multi_measurement new_tapes in
    jvps ← lift (_compute_jvps jacs (map VList tangents) multi_measurements);
    mret (res, jvps).
End Jax.
End Jax.

(** * The Autograd interface ([pennylane/interfaces/autograd.py]) *)

Module Autograd.
Section Autograd.
Context `{Library}.

(** The contraction rule chosen for a tape. *)
Definition contraction (multi : bool) (d j : value) : value :=
  if multi then compute_vjp_multi d j else compute_vjp_single d j.

(** The inner loop of [_compute_vjps_autograd]: one contribution per pair of
    [zip(dy_, jac_)]. *)
Definition shot_vjps (multi : bool) (dy_ jac_ : list value) : list value :=
  map (λ dj, contraction multi dj.1 dj.2) (zip dy_ jac_).

(** The body of the outer loop, for the tape of index [i]: the value
    appended to [vjps]. *)
Definition tape_vjp (jacs dy : list value) (has_partitioned_shots : bool)
    (i : nat) (multi : bool) : outcome value :=
  d ← getitem dy i;
  j ← getitem jacs i;
  dy_ ← (if has_partitioned_shots then iter_value d else Ret [d]);
  jac_ ← (if has_partitioned_shots then iter_value j else Ret [j]);
  sum_stack_axis0 (shot_vjps multi dy_ jac_).

(** [_compute_vjps_autograd]. *)
Definition _compute_vjps_autograd (jacs dy : list value)
    (multi_measurements : list bool) (has_partitioned_shots : bool)
    : outcome (list value) :=
  mapO (λ im : nat * bool, tape_vjp jacs dy has_partitioned_shots im.1 im.2)
       (imap pair multi_measurements).

(** *** The legacy path *)

(** The body of the loop of [__execute_legacy] for the result [r] of tape
    [t]: the new value of [res[i]]. *)
Definition convert_result (t : tape) (r : value) : value :=
  if has_measurement CountsMP t then r
  else if is_ndarray r then
    np_tensor (if is_object_dtype r then np_hstack r else r)
  else match r with
       | VTuple rs => VTuple (map np_tensor rs)
       | _ => math_toarray r
       end.

Definition __execute_legacy (parameters : list (list value)) (tapes : list loc)
    (execute_fn : execute_fn_t) (gradient_kwargs : kwargs)
    : M (list value * list value) :=
  unwrapped_tapes ← unwrap_tapes tapes;
  unwrapped_tapes ← load_all unwrapped_tapes;
  r ← call_execute_fn ForwardPass execute_fn unwrapped_tapes (Some gradient_kwargs);
  ts ← load_all tapes;
  res ← lift (mapO (λ ir : nat * value,
                      t ← getitem ts ir.1; Ret (convert_result t ir.2))
                   (imap pair r.1));
  mret (res, r.2).

Definition _execute_legacy (tapes : list loc) (dev : device)
    (execute_fn : execute_fn_t) (gradient_fn : option gradient_rule)
    (gradient_kwargs : kwargs) (_n max_diff : Z) : M (list value) :=
  _ ← log (Enter AutogradExecuteLegacy _n max_diff tapes);
  _ ← for_each set_trainable_params tapes;
  parameters ← trainable_parameters tapes;
  r ← __execute_legacy parameters tapes execute_fn gradient_kwargs;
  mret r.1.

(** The dictionary [cached_jac] of a backward pass holds at most the key
    ["jacobian"]: it is its value, if any. *)
Definition cache := option (list value).

(** [_get_jac_with_caching] of [_vjp_legacy]: the Jacobians and the cache
    afterwards. *)
Definition _vjp_legacy_get_jac_with_caching (tapes : list loc)
    (execute_fn : execute_fn_t) (gradient_fn : gradient_rule)
    (gradient_kwargs : kwargs) (cached_jac : cache) : M (list value * cache) :=
  match cached_jac with
  | Some jacobian => mret (jacobian, cached_jac)
  | None =>
      jacs ← mapM (λ l,
                t ← load l;
                gt ← lift (on_tape gradient_fn None gradient_kwargs t);
                g_tapes ← alloc_all gt.1;
                unwrapped_tapes ← unwrap_tapes g_tapes;
                unwrapped_tapes ← load_all unwrapped_tapes;
                r ← call_execute_fn JacobianCache execute_fn unwrapped_tapes
                      (Some gradient_kwargs);
                mret (gt.2 r.1)) tapes;
      mret (jacs, Some jacs)
  end.

(** [gradient_fn and gradient_fn.__name__ == "param_shift" and
    computing_jacobian]. *)
Definition cache_worthy (gradient_fn : option gradient_rule)
    (_n max_diff : Z) : bool :=
  match gradient_fn with
  | Some g => String.eqb (rule_name g) "param_shift" && bool_decide (_n = max_diff)
  | None => false
  end.

(** Truth value of a list. *)
Definition truthy {A} (l : list A) : bool :=
  match l with [] => false | _ => true end.

(** The last statement of [grad_fn]. *)
Definition return_vjps (_n : Z) (vjps : list value) : list value :=
  map (λ v, if is_ArrayBox v then math_to_numpy _n v else v) vjps.

(** [grad_fn] of [_vjp_legacy]; [ans] is the pair [(res, jacs)] returned by
    [__execute_legacy] and [dy] its cotangent. *)
Definition _vjp_legacy_grad_fn (ans : list value * list value)
    (tapes : list loc) (dev : device) (execute_fn : execute_fn_t)
    (gradient_fn : option gradient_rule) (gradient_kwargs : kwargs)
    (_n max_diff : Z) (cached_jac : cache) (dy : list value * list value)
    : M (list value * cache) :=
  let dy := map math_T dy.1 in
  jc ← match gradient_fn with
       | Some g =>
           if cache_worthy gradient_fn _n max_diff then
             _vjp_legacy_get_jac_with_caching tapes execute_fn g
                                              gradient_kwargs cached_jac
           else mret (ans.2, cached_jac)
       | None => mret (ans.2, cached_jac)
       end;
  let '(jacs, cached_jac) := jc in
  vjps ←
    (if truthy jacs then
       mret (map (λ dj, compute_vjp dj.1 dj.2) (zip dy jacs))
     else
       match gradient_fn with
       | Some g =>
           if is_gradient_transform g then
             if bool_decide (_n = max_diff) then
               unwrapped_tapes ← unwrap_tapes tapes;
               unwrapped_tapes ← load_all unwrapped_tapes;
               let '(vjp_tapes, processing_fn) :=
                 batch_vjp unwrapped_tapes dy g None gradient_kwargs in
               _ ← alloc_all vjp_tapes;
               r ← call_execute_fn GradientTapes execute_fn vjp_tapes None;
               mret (processing_fn r.1)
             else
               ts ← load_all tapes;
               let '(vjp_tapes, processing_fn) :=
                 batch_vjp ts dy g None gradient_kwargs in
               vjp_tapes ← alloc_all vjp_tapes;
               r ← _execute_legacy vjp_tapes dev execute_fn gradient_fn
                     gradient_kwargs (_n + 1) max_diff;
               mret (processing_fn r)
           else
             unwrapped_tapes ← unwrap_tapes tapes;
             unwrapped_tapes ← load_all unwrapped_tapes;
             jacs ← call_gradient_fn g unwrapped_tapes gradient_kwargs;
             mret (map (λ dj, compute_vjp dj.1 dj.2) (zip dy jacs))
       | None =>
           (* [None] is not callable *)
           _ ← unwrap_tapes tapes;
           raise TypeError
       end);
  mret (return_vjps _n vjps, cached_jac).

(** *** The current path *)

Definition _execute (parameters : list (list value)) (tapes : list loc)
    (execute_fn : execute_fn_t) (gradient_kwargs : kwargs)
    : M (list value * list value) :=
  unwrapped_tapes ← unwrap_tapes tapes;
  unwrapped_tapes ← load_all unwrapped_tapes;
  call_execute_fn ForwardPass execute_fn unwrapped_tapes (Some gradient_kwargs).

Definition execute (tapes : list loc) (dev : device)
    (execute_fn : execute_fn_t) (gradient_fn : option gradient_rule)
    (gradient_kwargs : kwargs) (_n max_diff : Z) : M (list value) :=
  _ ← log (Enter AutogradExecute _n max_diff tapes);
  get_active_return ≫= λ active : bool,
  if negb active then
    _execute_legacy tapes dev execute_fn gradient_fn gradient_kwargs _n max_diff
  else
    _ ← for_each set_trainable_params tapes;
    parameters ← trainable_parameters tapes;
    r ← _execute parameters tapes execute_fn gradient_kwargs;
    mret r.1.

(** The shot vector handed to the gradient rule by [_get_jac_with_caching]. *)
Definition cache_shot_vector (dev : device) (tapes : list loc)
    : M (option shot_vector_t) :=
  match dev with
  | ExperimentalDevice =>
      ts ← load_all tapes;
      t0 ← lift (getitem ts 0);
      mret (if has_partitioned_shots (shots t0)
            then Some (shot_vector (shots t0)) else None)
  | LegacyDevice sv => mret sv
  end.

(** [_get_jac_with_caching] of [vjp]. *)
Definition vjp_get_jac_with_caching (tapes : list loc) (dev : device)
    (execute_fn : execute_fn_t) (gradient_fn : gradient_rule)
    (gradient_kwargs : kwargs) (cached_jac : cache) : M (list value * cache) :=
  match cached_jac with
  | Some jacobian => mret (jacobian, cached_jac)
  | None =>
      sv ← cache_shot_vector dev tapes;
      ts ← load_all tapes;
      gt ← lift (map_batch_transform
                   (on_tape gradient_fn (Some sv) gradient_kwargs) ts);
      g_tapes ← alloc_all gt.1;
      unwrapped_tapes ← unwrap_tapes g_tapes;
      unwrapped_tapes ← load_all unwrapped_tapes;
      r ← call_execute_fn JacobianCache execute_fn unwrapped_tapes
            (Some gradient_kwargs);
      let jacs := gt.2 r.1 in
      mret (jacs, Some jacs)
  end.

(** The shot settings read by [grad_fn]: the truth value of
    [has_partitioned_shots] and [vjp_shots]. *)
Definition grad_shots (dev : device) (ts : list tape)
    : outcome (bool * option shot_vector_t) :=
  match dev with
  | ExperimentalDevice =>
      t0 ← getitem ts 0;
      Ret (has_partitioned_shots (shots t0), None)
  | LegacyDevice sv => Ret (truthy_shots sv, sv)
  end.

(** [grad_fn] of [vjp]; [ans] is the pair [(res, jacs)] returned by
    [_execute] and [dy] its cotangent. *)
Definition vjp_grad_fn (ans : list value * list value)
    (tapes : list loc) (dev : device) (execute_fn : execute_fn_t)
    (gradient_fn : option gradient_rule) (gradient_kwargs : kwargs)
    (_n max_diff : Z) (cached_jac : cache) (dy : list value * list value)
    : M (list value * cache) :=
  ts ← load_all tapes;
  let multi_measurements := map multi_measurement ts in
  let dy := dy.1 in
  sh ← lift (grad_shots dev ts);
  let '(has_partitioned_shots, vjp_shots) := sh in
  jc ← match gradient_fn with
       | Some g =>
           if cache_worthy gradient_fn _n max_diff then
             vjp_get_jac_with_caching tapes dev execute_fn g gradient_kwargs
                                      cached_jac
           else mret (ans.2, cached_jac)
       | None => mret (ans.2, cached_jac)
       end;
  let '(jacs, cached_jac) := jc in
  vjps ←
    (if truthy jacs then
       lift (_compute_vjps_autograd jacs dy multi_measurements
                                    has_partitioned_shots)
     else
       match gradient_fn with
       | Some g =>
           if is_gradient_transform g then
             if bool_decide (_n = max_diff) then
               unwrapped_tapes ← unwrap_tapes tapes;
               unwrapped_tapes ← load_all unwrapped_tapes;
               let '(vjp_tapes, processing_fn) :=
                 batch_vjp unwrapped_tapes dy g (Some vjp_shots) gradient_kwargs in
               _ ← alloc_all vjp_tapes;
               r ← call_execute_fn GradientTapes execute_fn vjp_tapes None;
               mret (processing_fn r.1)
             else
               ts ← load_all tapes;
               let '(vjp_tapes, processing_fn) :=
                 batch_vjp ts dy g (Some vjp_shots) gradient_kwargs in
               vjp_tapes ← alloc_all vjp_tapes;
               r ← execute vjp_tapes dev execute_fn gradient_fn
                     gradient_kwargs (_n + 1) max_diff;
               mret (processing_fn r)
           else
             unwrapped_tapes ← unwrap_tapes tapes;
             unwrapped_tapes ← load_all unwrapped_tapes;
             jacs ← call_gradient_fn g unwrapped_tapes gradient_kwargs;
             lift (_compute_vjps_autograd jacs dy multi_measurements
                                          has_partitioned_shots)
       | None =>
           (* [None] is not callable *)
           _ ← unwrap_tapes tapes;
           raise TypeError
       end);
  mret (return_vjps _n vjps, cached_jac).
End Autograd.
End Autograd.

(** * A concrete library and backend *)

(** Integer entries, a simple choice for each collaborator, two backends
    and two gradient rules, on which the definitions above can be run. *)
Module Concrete.

#[export] Instance Z_numeric : Numeric := {| num := Z; num_add := Z.add |}.

Definition scalar (x : Z) : value := VArr Plain (NdArray [] [x]).
Definition traced (k : tracekind) (x : Z) : value := VArr k (NdArray [] [x]).
Definition vector (xs : list Z) : value := VArr Plain (NdArray [length xs] xs).
Definition matrix (r c : nat) (xs : list Z) : value :=
  VArr Plain (NdArray [r; c] xs).

Definition entries (v : value) : list Z :=
  match v with VArr _ a => data a | _ => [] end.

Definition unbox (v : value) : value :=
  match v with VArr _ a => VArr Plain a | _ => v end.

Definition requires_grad (v : value) : bool :=
  match v with VArr Plain _ => false | VArr _ _ => true | _ => false end.

Definition map_data (f : list value → list value) (t : tape) : tape :=
  {| operations :=
       map (λ op, Operation (op_name op) (op_wires op) (f (op_data op)))
           (operations t);
     measurements := measurements t; trainable_params := trainable_params t;
     batch_size := batch_size t; output_dim := output_dim t;
     shots := shots t |}.

(** The operations with the parameters of the given indices replaced,
    [offset] being the index of the first parameter of [ops]. *)
Fixpoint rebind (ops : list operation) (offset : nat)
    (new : list (nat * value)) : list operation :=
  match ops with
  | [] => []
  | op :: ops' =>
      Operation (op_name op) (op_wires op)
        (imap (λ i v, default v (snd <$> list_find (λ p, p.1 = (offset + i)%nat) new
                                 ≫= λ ip, Some ip.2))
              (op_data op))
      :: rebind ops' (offset + length (op_data op)) new
  end.

Definition stack_values (l : list value) : value :=
  match l with
  | VArr k a :: _ =>
      VArr k (NdArray (length l :: shape a) (concat (map entries l)))
  | _ => VArr Plain (NdArray [0%nat] [])
  end.

Definition transpose (v : value) : value :=
  match v with
  | VArr k (NdArray [r; c] xs) =>
      VArr k (NdArray [c; r]
        (flat_map (λ j, map (λ i, nth (i * c + j) xs 0) (seq 0 r)) (seq 0 c)))
  | _ => v
  end.

(** Cotangent times Jacobian: the rows of the Jacobian weighted by the
    entries of the cotangent and added. *)
Definition vjp_of (d j : value) : value :=
  match j with
  | VArr k (NdArray [r; c] xs) =>
      VArr k (NdArray [c]
        (map (λ p, foldr Z.add 0
                (zip_with Z.mul (entries d)
                   (map (λ i, nth (i * c + p) xs 0) (seq 0 r))))
             (seq 0 c)))
  | VArr k (NdArray sh xs) =>
      VArr k (NdArray sh (map (Z.mul (hd 0 (entries d))) xs))
  | _ => VNone
  end.

(** Jacobian times tangent. *)
Definition jvp_of (t j : value) : value :=
  match j with
  | VArr k (NdArray [r; c] xs) =>
      VArr k (NdArray [r]
        (map (λ i, foldr Z.add 0
                (zip_with Z.mul (take c (drop (i * c) xs))
                   (match t with VList l => flat_map entries l | _ => entries t end)))
             (seq 0 r)))
  | _ => VNone
  end.

(** Each function of a batch applied to its share of the results. *)
Fixpoint split_apply (fs : list (list tape * (list value → value)))
    (res : list value) : list value :=
  match fs with
  | [] => []
  | (ts, fn) :: fs' =>
      fn (take (length ts) res) :: split_apply fs' (drop (length ts) res)
  end.

(** One gradient tape per tape; the processing function contracts each
    cotangent with the result standing for the Jacobian. *)
Definition batch_product (contract : value → value → value)
    (ts : list tape) (vs : list value) : list tape * (list value → list value) :=
  (ts, λ res, zip_with contract vs res).

#[export] Instance lib : Library := {|
  get_trainable_indices params :=
    omap (λ iv : nat * value, if requires_grad iv.2 then Some iv.1 else None)
         (imap pair params);
  convert_to_numpy_parameters := map_data (map unbox);
  bind_new_parameters t a idx :=
    {| operations := rebind (operations t) 0 (zip idx a);
       measurements := measurements t; trainable_params := idx;
       batch_size := batch_size t; output_dim := output_dim t;
       shots := shots t |};
  jnp_array v := match v with VList l | VTuple l => stack_values l | _ => v end;
  np_tensor v := v;
  np_hstack v :=
    match v with
    | VRagged l => vector (flat_map entries l)
    | _ => v
    end;
  math_toarray v := match v with VList l | VTuple l => stack_values l | _ => v end;
  math_T := transpose;
  math_unstack v :=
    match v with
    | VArr k (NdArray (_ :: sh) xs) =>
        VList (map (λ d, VArr k (NdArray sh d)) (chunks (length xs) 1 xs))
    | _ => v
    end;
  jnp_concatenate l := vector (flat_map entries l);
  math_to_numpy _ := unbox;
  getslice v a b :=
    match v with
    | VArr k (NdArray _ xs) =>
        VArr k (NdArray [(b - a)%nat] (take (b - a) (drop a xs)))
    | _ => v
    end;
  swapaxes v _ _ := transpose v;
  compute_vjp := vjp_of;
  compute_vjp_single := vjp_of;
  compute_vjp_multi d j :=
    match d, j with
    | VTuple ds, VTuple js =>
        match zip_with vjp_of ds js with
        | VArr k (NdArray sh x) :: rest =>
            VArr k (NdArray sh (foldl (λ acc v, zip_with Z.add acc (entries v)) x rest))
        | _ => VNone
        end
    | _, _ => vjp_of d j
    end;
  compute_jvp_single := jvp_of;
  compute_jvp_multi t j :=
    match j with
    | VTuple js => VTuple (map (jvp_of t) js)
    | _ => jvp_of t j
    end;
  batch_vjp ts dys _ _ _ := batch_product vjp_of ts dys;
  batch_jvp ts tangents _ _ _ := batch_product jvp_of ts tangents;
  map_batch_transform f ts :=
    match mapO f ts with
    | Ret fs => Ret (flat_map fst fs, split_apply fs)
    | Raise e => Raise e
    end
|}.

(** A backend that returns, for each tape, the sum of its (integer)
    parameters, and no Jacobian. *)
Definition sum_parameters (t : tape) : Z :=
  foldr Z.add 0 (flat_map entries (get_parameters t false)).

Definition backend : execute_fn_t := λ ts _,
  Ret (map (λ t, scalar (sum_parameters t)) ts, []).

(** A backend that samples: a counts dictionary for a tape with a counts
    measurement, the sum of the parameters otherwise. *)
Definition sampling_backend : execute_fn_t := λ ts _,
  Ret (map (λ t, if has_measurement CountsMP t
                 then VDict [("0", 6%nat); ("1", 4%nat)]
                 else scalar (sum_parameters t)) ts, []).

(** A backend that also returns a Jacobian per tape: a row of ones, one per
    trainable parameter. *)
Definition forward_backend : execute_fn_t := λ ts _,
  Ret (map (λ t, scalar (sum_parameters t)) ts,
       map (λ t, matrix 1 (length (trainable_params t))
                   (repeat 1 (length (trainable_params t)))) ts).

(** A gradient transform: for each tape one gradient tape, the tape itself,
    and a processing function that returns a row of ones. *)
Definition param_shift : gradient_rule := {|
  rule_name := "param_shift";
  is_gradient_transform := true;
  on_tape _ _ t :=
    Ret ([t], λ _, matrix 1 (length (trainable_params t))
                     (repeat 1 (length (trainable_params t))));
  on_batch _ _ := Raise TypeError
|}.

(** A device method: the Jacobians of a batch, a row of ones per tape. *)
Definition device_gradients : gradient_rule := {|
  rule_name := "gradients";
  is_gradient_transform := false;
  on_tape _ _ _ := Raise TypeError;
  on_batch ts _ :=
    Ret (map (λ t, matrix 1 (length (trainable_params t))
                     (repeat 1 (length (trainable_params t)))) ts)
|}.

(** Tapes: a rotation with a traced angle measured by an expectation
    value; two rotations measured by two probabilities; a counts
    measurement, plain and broadcasted. *)
Definition expval_tape : tape := {|
  operations := [Operation "RX" [0%nat] [traced ArrayBox 3]];
  measurements := [Measurement ExpectationMP [0%nat]];
  trainable_params := [];
  batch_size := None; output_dim := 1;
  shots := Shots [] false
|}.

Definition probs_tape : tape := {|
  operations := [Operation "RX" [0%nat] [traced ArrayBox 1];
                 Operation "RY" [1%nat] [scalar 2]];
  measurements := [Measurement ProbabilityMP [0%nat];
                   Measurement ProbabilityMP [1%nat]];
  trainable_params := [0%nat];
  batch_size := None; output_dim := 4;
  shots := Shots [] false
|}.

Definition counts_tape (broadcast : option nat) : tape := {|
  operations := [Operation "Hadamard" [0%nat] []];
  measurements := [Measurement CountsMP [0%nat]];
  trainable_params := [];
  batch_size := broadcast; output_dim := 1;
  shots := Shots [] false
|}.

(** A world with the given tapes as its objects [0], [1], ... *)
Definition world_of (ts : list tape) (active : bool) : world := {|
  store l := default expval_tape (ts !! l);
  next_loc := length ts;
  active_return := active;
  trace := []
|}.

(** Worlds: one tape that is not annotated yet; the same with a second
    tape; a batch whose first tape has a counts measurement, broadcasted or
    not. *)
Definition one_tape : world := world_of [expval_tape] true.
Definition two_tapes : world := world_of [expval_tape; probs_tape] true.
Definition counts_first (broadcast : option nat) : world :=
  world_of [counts_tape broadcast; expval_tape] true.

(** The counts dictionary returned by [sampling_backend]. *)
Definition counts : value := VDict [("0", 6%nat); ("1", 4%nat)].

(** A tape that mixes a probability with an expectation value. *)
Definition mixed_tape : tape := {|
  operations := [Operation "RX" [0%nat] [traced ArrayBox 1]];
  measurements := [Measurement ProbabilityMP [0%nat];
                   Measurement ExpectationMP [1%nat]];
  trainable_params := [0%nat];
  batch_size := None; output_dim := 3;
  shots := Shots [] false
|}.

(** A gradient transform under another name. *)
Definition finite_diff : gradient_rule := {|
  rule_name := "finite_diff";
  is_gradient_transform := true;
  on_tape := on_tape param_shift;
  on_batch := on_batch param_shift
|}.

(** Tapes whose trainable parameters are set: a rotation, two rotations,
    and a rotation measured by two expectation values. *)
Definition rx_tape : tape := {|
  operations := [Operation "RX" [0%nat] [traced ArrayBox 3]];
  measurements := [Measurement ExpectationMP [0%nat]];
  trainable_params := [0%nat];
  batch_size := None; output_dim := 1;
  shots := Shots [] false
|}.

Definition rot_tape : tape := {|
  operations := [Operation "RX" [0%nat] [traced ArrayBox 1];
                 Operation "RY" [0%nat] [traced ArrayBox 2]];
  measurements := [Measurement ExpectationMP [0%nat]];
  trainable_params := [0%nat; 1%nat];
  batch_size := None; output_dim := 1;
  shots := Shots [] false
|}.


(** A counts measurement after a rotation whose angle is broadcasted over
    two values; the angle is not traced, so the tape has no trainable
    parameter. *)
Definition broadcasted_counts_tape : tape := {|
  operations := [Operation "RX" [0%nat] [vector [1; 2]]];
  measurements := [Measurement CountsMP [0%nat]];
  trainable_params := [];
  batch_size := Some 2%nat; output_dim := 1;
  shots := Shots [] false
|}.

(** A backend for gradient tapes: one row per probability measurement for
    a tape that measures probabilities, a vector otherwise. *)
Definition probs_backend : execute_fn_t := λ ts _,
  Ret (map (λ t, if has_measurement ProbabilityMP t
                 then matrix 2 2 [1; 2; 3; 4]
                 else vector [sum_parameters t]) ts, []).
End Concrete.

(** * Specification vocabulary *)

Section Vocabulary.
Context `{Library}.

(** A computation satisfies [sat R E] when, from every world, the world it
    ends in is related to the initial one by [R] and whatever it raises
    satisfies [E]. *)
Definition sat (R : world → world → Prop) (E : exn → Prop) {A} (m : M A)
    : Prop :=
  ∀ w, R w (m w).2 ∧ ∀ e, (m w).1 = Raise e → E e.

(** The same for a computation that can only raise. *)
Definition raises (E : exn → Prop) {A} (o : outcome A) : Prop :=
  ∀ e, o = Raise e → E e.

(** The objects that exist in [w] are unchanged in [w'], which may hold new
    ones. *)
Definition keeps_objects (w w' : world) : Prop :=
  (next_loc w ≤ next_loc w')%nat ∧
  active_return w' = active_return w ∧
  ∀ l, (l < next_loc w)%nat → store w' l = store w l.

(** The record of calls of [w'] is that of [w] followed by events that all
    satisfy [P]. *)
Definition appends (P : event → Prop) (w w' : world) : Prop :=
  ∃ evs, trace w' = trace w ++ evs ∧ Forall P evs.

Definition anything : exn → Prop := λ _, True.

Definition unsupported (e : exn) : Prop :=
  ∃ msg, e = InterfaceUnsupportedError msg.

(** The outcome is an [InterfaceUnsupportedError]. *)
Definition unsupported_raised {A} (o : outcome A) : Prop :=
  ∃ msg, o = Raise (InterfaceUnsupportedError msg).

(** The errors raised by the operations on values. *)
Definition own_error (e : exn) : Prop :=
  match e with
  | InterfaceUnsupportedError _ | BackendError _ => False
  | _ => True
  end.

(** The events of a run: what it adds to the record of calls. *)
Definition events {A} (m : M A) (w : world) : list event :=
  drop (length (trace w)) (trace (m w).2).

Definition is_enter (e : event) : bool :=
  match e with Enter _ _ _ _ => true | _ => false end.

(** A call back into an entry point, at the given depth and ceiling. *)
Definition enters_at (n max_diff : Z) (e : event) : Prop :=
  match e with
  | Enter _ n' max_diff' _ => n' = n ∧ max_diff' = max_diff
  | _ => True
  end.

Definition is_backend_call (site : call_site) (e : event) : bool :=
  match e, site with
  | CallExecuteFn ForwardPass _ _, ForwardPass
  | CallExecuteFn JacobianCache _ _, JacobianCache
  | CallExecuteFn GradientTapes _ _, GradientTapes => true
  | _, _ => false
  end.

(** Number of calls of the backend made from the given place. *)
Definition backend_calls (site : call_site) (evs : list event) : nat :=
  length (List.filter (is_backend_call site) evs).

(** What the backward or tangent rule of depth [n] and ceiling [max_diff]
    may record when the gradient rule is a transform: a call back into an
    entry point only when [n] differs from [max_diff], and then with depth
    [n + 1] and the same ceiling; a call of
    the backend on gradient tapes, from the rule itself or from its
    Jacobian cache, only when [n] equals [max_diff]; never a call of the
    gradient rule on a batch. *)
Definition recursion_step (n max_diff : Z) (e : event) : Prop :=
  match e with
  | Enter _ n' max_diff' _ => n ≠ max_diff ∧ n' = n + 1 ∧ max_diff' = max_diff
  | CallExecuteFn ForwardPass _ _ => True
  | CallExecuteFn _ _ _ => n = max_diff
  | CallGradientFn _ _ => False
  end.

(** An event other than a call of the backend from the Jacobian cache. *)
Definition jac_free (e : event) : Prop :=
  is_backend_call JacobianCache e = false.

(** The record of calls of [w'] is that of [w] followed by events with at
    most [k] calls of the backend from the Jacobian cache. *)
Definition at_most (k : nat) (w w' : world) : Prop :=
  ∃ evs, trace w' = trace w ++ evs ∧
         (backend_calls JacobianCache evs ≤ k)%nat.

(** A computation that makes at most [k] such calls and whose result, when
    it returns, satisfies [Q]. *)
Definition counted (k : nat) {A} (Q : A → Prop) (m : M A) : Prop :=
  ∀ w, at_most k w (m w).2 ∧ ∀ a, (m w).1 = Ret a → Q a.

(** The cache after a call: filled, and as it was if it was filled. *)
Definition cache_kept (c : Autograd.cache) (c' : Autograd.cache) : Prop :=
  is_Some c' ∧ ∀ jacs, c = Some jacs → c' = Some jacs.

(** The number of calls from the Jacobian cache allowed to a backward pass
    whose cache is [c], when filling the cache takes [k] of them. *)
Definition misses (c : Autograd.cache) (k : nat) : nat :=
  match c with Some _ => 0%nat | None => k end.

(** An exception raised by the backend, by the gradient rule or by the
    batch transform that applies it. *)
Definition from_collaborator (execute_fn : execute_fn_t) (g : gradient_rule)
    (e : exn) : Prop :=
  (∃ ts kw, execute_fn ts kw = Raise e) ∨
  (∃ ts kw, on_batch g ts kw = Raise e) ∨
  (∃ sh kw t, on_tape g sh kw t = Raise e) ∨
  (∃ f ts, map_batch_transform f ts = Raise e).

(** What a backward or tangent rule can raise when it makes no check of its
    own: an error of an operation on values, or an exception of a
    collaborator. *)
Definition passed_on (execute_fn : execute_fn_t) (g : gradient_rule)
    (e : exn) : Prop :=
  own_error e ∨ from_collaborator execute_fn g e.

(** All the objects of a batch exist. *)
Definition allocated (w : world) (tapes : list loc) : Prop :=
  Forall (λ l, (l < next_loc w)%nat) tapes.

(** The host engine calling a backward rule once per cotangent, the cache
    of the backward pass being shared by the calls. *)
Fixpoint invoke_all {D V} (grad_fn : Autograd.cache → D → M (V * Autograd.cache))
    (cached_jac : Autograd.cache) (dys : list D)
    : M (list V * Autograd.cache) :=
  match dys with
  | [] => mret ([], cached_jac)
  | dy :: dys' =>
      r ← grad_fn cached_jac dy;
      rs ← invoke_all grad_fn r.2 dys';
      mret (r.1 :: rs.1, rs.2)
  end.

(** One step of differentiable recursion: a backward or tangent rule of
    depth [n] and ceiling [max_diff], for a gradient transform, calls back
    into an entry point with depth [n'] and ceiling [max_diff']. *)
Inductive recurses : Z * Z → Z * Z → Prop :=
| recurses_autograd ans tapes dev execute_fn g kw n max_diff c dy w ep n' max_diff' ts :
    is_gradient_transform g = true →
    Enter ep n' max_diff' ts ∈
      events (Autograd.vjp_grad_fn ans tapes dev execute_fn (Some g) kw
                n max_diff c dy) w →
    recurses (n, max_diff) (n', max_diff')
| recurses_autograd_legacy ans tapes dev execute_fn g kw n max_diff c dy w ep n' max_diff' ts :
    is_gradient_transform g = true →
    Enter ep n' max_diff' ts ∈
      events (Autograd._vjp_legacy_grad_fn ans tapes dev execute_fn (Some g) kw
                n max_diff c dy) w →
    recurses (n, max_diff) (n', max_diff')
| recurses_jax tapes dev execute_fn g kw n max_diff hp sv primals tangents w ep n' max_diff' ts :
    is_gradient_transform g = true →
    Enter ep n' max_diff' ts ∈
      events (Jax._execute_bwd_execute_wrapper_jvp tapes dev execute_fn g kw
                n max_diff hp sv primals tangents) w →
    recurses (n, max_diff) (n', max_diff').

(** The tape that [_set_copy_and_unwrap_tape] builds from the tape [t] and
    the parameters [a]. *)
Definition substituted (unwrap : bool) (t : tape) (a : list value) : tape :=
  let tc := bind_new_parameters t a (trainable_params t) in
  if unwrap then convert_to_numpy_parameters tc else tc.

(** The tape after the loop that sets the trainable parameters, for the
    object [l] of a world whose store is [st]. *)
Definition annotated (tapes : list loc) (st : loc → tape) (l : loc) : tape :=
  if bool_decide (l ∈ tapes) then recompute_trainable (st l) else st l.

Definition is_ret {A} (o : outcome A) : bool :=
  match o with Ret _ => true | Raise _ => false end.

(** The checks that [execute_legacy] of the JAX interface makes before it
    sets the trainable parameters: the ceiling is at most 1 and every tape
    passes [_validate_tapes]. *)
Definition legacy_checks_pass (w : world) (tapes : list loc) (max_diff : Z)
    : bool :=
  bool_decide (max_diff ≤ 1) &&
  forallb (λ l, is_ret (Jax._validate_tape (store w l))) tapes.

(** The entry [j[k, i]] of an array of shape [_ :: c :: rest] whose data
    are [xs]: the block of index [k * c + i]. *)
Definition entry_at (b : tracekind) (c : nat) (rest : list nat)
    (xs : list num) (k i : nat) : value :=
  VArr b (NdArray rest
    (take (size_of rest) (drop ((k * c + i) * size_of rest) xs))).

(** [v] is the list of the columns of the array [j], which has at least
    two axes: as many columns as the second axis is long, column [i] being
    the entry [j[0, i]] when the first axis has length 1, and [jnp.array] of
    the list of the entries [j[k, i]], [k] running over the first axis,
    otherwise. *)
Definition columns_of (j v : value) : Prop :=
  ∃ b rows cols rest xs,
    j = VArr b (NdArray (rows :: cols :: rest) xs) ∧
    v = VList (map (λ i,
          if bool_decide (rows = 1%nat) then entry_at b cols rest xs 0 i
          else jnp_array
                 (VList (map (λ k, entry_at b cols rest xs k i) (seq 0 rows))))
        (seq 0 cols)).

End Vocabulary.

(** ** Vocabulary of the further properties *)

Section Behaviour.
Context `{Library}.

(** A measurement of the given type is among those of the tape. *)
Definition measures (mt : measurement_type) (t : tape) : Prop :=
  ∃ m, m ∈ measurements t ∧ mp_type m = mt.

(** Two measurements of the tape differ in type. *)
Definition mixed_types (t : tape) : Prop :=
  ∃ m m', m ∈ measurements t ∧ m' ∈ measurements t ∧ mp_type m ≠ mp_type m'.

(** Two measurements of the tape differ in their number of wires. *)
Definition uneven_wires (t : tape) : Prop :=
  ∃ m m', m ∈ measurements t ∧ m' ∈ measurements t ∧
          length (mp_wires m) ≠ length (mp_wires m').


(** Of the objects that exist in [w], only those of [tapes] may differ in
    [w']. *)
Definition touches_only (tapes : list loc) (w w' : world) : Prop :=
  (next_loc w ≤ next_loc w')%nat ∧
  active_return w' = active_return w ∧
  ∀ l, (l < next_loc w)%nat → l ∉ tapes → store w' l = store w l.

(** The tape of the object [l] once an entry point of the JAX interface,
    entered at depth [n], has set the trainable parameters of its batch, or
    has left them alone. *)
Definition jax_annotated (n : Z) (tapes : list loc) (st : loc → tape)
    (l : loc) : tape :=
  if bool_decide (n = 1) then annotated tapes st l else st l.

(** The tape that the forward pass of the JAX interface executes for the
    tape [t]: a copy of [t] with its own trainable parameters bound and
    converted. *)
Definition forward_tape (t : tape) : tape :=
  substituted true t (get_parameters t true).

(** The Jacobian of one tape as the cache of the legacy path computes it:
    the gradient rule is applied to the tape, its gradient tapes are
    converted and executed, and the processing function is applied to the
    results. *)
Definition jacobian_of (execute_fn : execute_fn_t) (g : gradient_rule)
    (kw : kwargs) (t : tape) : outcome value :=
  gt ← on_tape g None kw t;
  r ← execute_fn (map convert_to_numpy_parameters gt.1) (Some kw);
  Ret (gt.2 r.1).

(** The tapes that the backend receives for the tape [t]. *)
Definition gradient_tapes_of (g : gradient_rule) (kw : kwargs) (t : tape)
    : list tape :=
  match on_tape g None kw t with
  | Ret gt => map convert_to_numpy_parameters gt.1
  | Raise _ => []
  end.

End Behaviour.

(** * Reasoning about computations *)

Section Reasoning.
Context `{Library}.

Lemma bind_run {A B} (m : M A) (f : A → M B) w :
  (m ≫= f) w =
  match m w with
  | (Ret a, w') => f a w'
  | (Raise e, w') => (Raise e, w')
  end.
Proof. reflexivity. Qed.

Section Sat.
Context (R : world → world → Prop) (E : exn → Prop) `{!PreOrder R}.

Lemma sat_ret {A} (a : A) : sat R E (mret a).
Proof. intros w. split; [reflexivity | discriminate]. Qed.

Lemma sat_bind {A B} (m : M A) (f : A → M B) :
  sat R E m → (∀ a, sat R E (f a)) → sat R E (m ≫= f).
Proof.
  intros Hm Hf w. rewrite bind_run.
  destruct (Hm w) as [Hw He]. destruct (m w) as [[a|e] w1]; simpl in *.
  - destruct (Hf a w1) as [Hw1 He1]. split; [by etransitivity | done].
  - split; [done | intros e' [= <-]; by apply He].
Qed.

Lemma sat_raise {A} e : E e → sat R E (raise (A:=A) e).
Proof. intros He w. split; [reflexivity | by intros e' [= <-]]. Qed.

Lemma sat_lift {A} (o : outcome A) : raises E o → sat R E (lift o).
Proof. intros Ho w. split; [reflexivity | exact (Ho)]. Qed.

Lemma sat_load l : sat R E (load l).
Proof. intros w. split; [reflexivity | discriminate]. Qed.

Lemma sat_get_active_return : sat R E get_active_return.
Proof. intros w. split; [reflexivity | discriminate]. Qed.

Lemma sat_log e :
  (∀ w, R w (World (store w) (next_loc w) (active_return w) (trace w ++ [e]))) →
  sat R E (log e).
Proof. intros HR w. split; [apply HR | discriminate]. Qed.

Lemma sat_alloc t :
  (∀ w, R w (World (<[next_loc w := t]> (store w)) (S (next_loc w))
                   (active_return w) (trace w))) →
  sat R E (alloc t).
Proof. intros HR w. split; [apply HR | discriminate]. Qed.

Lemma sat_assign l t :
  (∀ w, R w (World (<[l := t]> (store w)) (next_loc w) (active_return w)
                   (trace w))) →
  sat R E (assign l t).
Proof. intros HR w. split; [apply HR | discriminate]. Qed.

Lemma sat_for_each {A} (f : A → M unit) l :
  (∀ x, sat R E (f x)) → sat R E (for_each f l).
Proof.
  intros Hf. induction l as [|x l IH]; simpl.
  - apply sat_ret.
  - apply sat_bind; [apply Hf | intros _; apply IH].
Qed.

Lemma sat_mapM {A B} (f : A → M B) l :
  (∀ x, sat R E (f x)) → sat R E (mapM f l).
Proof.
  intros Hf. induction l as [|x l IH]; simpl.
  - apply sat_ret.
  - apply sat_bind; [apply Hf | intros y].
    apply sat_bind; [apply IH | intros ys; apply sat_ret].
Qed.
End Sat.

(** The two relations are preorders, and the primitive steps respect
    them. *)
#[global] Instance keeps_objects_preorder : PreOrder keeps_objects.
Proof.
  split.
  - intros w. by repeat split.
  - intros w1 w2 w3 (Hn1 & Ha1 & Hs1) (Hn2 & Ha2 & Hs2). repeat split.
    + lia.
    + congruence.
    + intros l Hl. rewrite Hs2 by lia. by apply Hs1.
Qed.

#[global] Instance appends_preorder P : PreOrder (appends P).
Proof.
  split.
  - intros w. exists []. by rewrite app_nil_r.
  - intros w1 w2 w3 (e1 & T1 & F1) (e2 & T2 & F2). exists (e1 ++ e2).
    split; [by rewrite T2, T1, app_assoc | by apply Forall_app].
Qed.

Lemma keeps_log w e :
  keeps_objects w (World (store w) (next_loc w) (active_return w) (trace w ++ [e])).
Proof. by repeat split. Qed.

Lemma keeps_alloc w t :
  keeps_objects w (World (<[next_loc w := t]> (store w)) (S (next_loc w))
                         (active_return w) (trace w)).
Proof.
  repeat split; simpl; [lia|]. intros l Hl. apply fn_lookup_insert_ne. lia.
Qed.

Lemma appends_log P w e :
  P e →
  appends P w (World (store w) (next_loc w) (active_return w) (trace w ++ [e])).
Proof. intros HP. exists [e]. split; [done | by constructor]. Qed.

Lemma appends_same P w st n a :
  appends P w (World st n a (trace w)).
Proof. exists []. split; [by rewrite app_nil_r | constructor]. Qed.

Lemma events_spec {A} (m : M A) w evs :
  trace (m w).2 = trace w ++ evs → events m w = evs.
Proof. intros Ht. unfold events. rewrite Ht. by rewrite drop_app_length. Qed.

Lemma raises_anything {A} (o : outcome A) : raises anything o.
Proof. by intros e _. Qed.
End Reasoning.

(** Decomposition of a goal [sat R E m] along the structure of [m]; the
    goals left are about the primitive steps. *)
Ltac head_of t := match t with ?f _ => head_of f | _ => t end.

Ltac sat_step :=
  lazymatch goal with
  | |- sat _ _ (mret _) => apply sat_ret; try apply _
  | |- sat _ _ (_ ≫= _) => apply sat_bind; [try apply _ | | intros ?]
  | |- sat _ _ (raise _) => apply sat_raise; try apply _
  | |- sat _ _ (lift _) => apply sat_lift; try apply _
  | |- sat _ _ (load _) => apply sat_load; try apply _
  | |- sat _ _ get_active_return => apply sat_get_active_return; try apply _
  | |- sat _ _ (log _) => apply sat_log; try apply _
  | |- sat _ _ (alloc _) => apply sat_alloc; try apply _
  | |- sat _ _ (assign _ _) => apply sat_assign; try apply _
  | |- sat _ _ (for_each _ _) => apply sat_for_each; [try apply _ | intros ?]
  | |- sat _ _ (mapM _ _) => apply sat_mapM; [try apply _ | intros ?]
  | |- sat _ _ (if bool_decide ?P then _ else _) =>
      destruct (bool_decide_reflect P)
  | |- sat _ _ (if ?b then _ else _) => destruct b eqn:?
  | |- sat _ _ (match ?x with _ => _ end) => destruct x eqn:?
  | |- sat _ _ ?m => let h := head_of m in unfold h
  end.

Ltac sat_steps := repeat sat_step.

(** Computations that only create objects and record calls. *)
Ltac keeps :=
  sat_steps; intros;
  auto using keeps_alloc, keeps_log, raises_anything.

Section Outcomes.
Context `{Library}.

Lemma raises_ret {A} E (a : A) : raises E (Ret a).
Proof. intros e; discriminate. Qed.

Lemma raises_raise {A} (E : exn → Prop) e : E e → raises E (Raise (A:=A) e).
Proof. by intros He e' [= <-]. Qed.

Lemma raises_bind {A B} E (o : outcome A) (f : A → outcome B) :
  raises E o → (∀ a, raises E (f a)) → raises E (o ≫= f).
Proof.
  intros Ho Hf. destruct o as [a|e]; simpl; [apply Hf|].
  intros e' [= <-]. by apply Ho.
Qed.

Lemma raises_mapO {A B} E (f : A → outcome B) l :
  (∀ x, raises E (f x)) → raises E (mapO f l).
Proof.
  intros Hf. induction l as [|x l IH]; simpl; [apply raises_ret|].
  apply raises_bind; [apply Hf | intros y].
  apply raises_bind; [apply IH | intros ys; apply raises_ret].
Qed.

Lemma raises_getitem {A} (E : exn → Prop) (l : list A) i :
  E IndexError → raises E (getitem l i).
Proof.
  intros HE. unfold getitem. destruct (l !! i); [apply raises_ret|].
  by apply raises_raise.
Qed.

Lemma mapO_ret {A B} (f : A → outcome B) (g : A → B) l :
  (∀ x, x ∈ l → f x = Ret (g x)) → mapO f l = Ret (map g l).
Proof.
  induction l as [|x l IH]; intros Hf; simpl; [done|].
  rewrite Hf by left. simpl. rewrite IH; [done|].
  intros y Hy. apply Hf. by right.
Qed.

Lemma mapO_Forall2 {A B} (f : A → outcome B) l :
  (∀ x, x ∈ l → ∃ y, f x = Ret y) →
  ∃ ys, mapO f l = Ret ys ∧ Forall2 (λ x y, f x = Ret y) l ys.
Proof.
  induction l as [|x l IH]; intros Hf; simpl.
  - exists []. by split.
  - destruct (Hf x) as [y Hy]; [by left|].
    destruct IH as (ys & Hys & HF); [intros z Hz; apply Hf; by right|].
    exists (y :: ys). rewrite Hy. simpl. rewrite Hys. simpl.
    split; [done | by constructor].
Qed.

Lemma load_all_run (ls : list loc) w :
  load_all ls w = (Ret (map (store w) ls), w).
Proof.
  unfold load_all. induction ls as [|l ls IH]; simpl; [done|].
  rewrite bind_run. simpl. rewrite bind_run, IH. done.
Qed.

Lemma mapO_of_Forall2 {A B} (f : A → outcome B) l ys :
  Forall2 (λ x y, f x = Ret y) l ys → mapO f l = Ret ys.
Proof.
  induction 1 as [|x y l ys Hxy _ IH]; cbn [mapO]; [done|].
  rewrite Hxy. cbn [mbind outcome_bind]. rewrite IH. done.
Qed.
End Outcomes.

(** * The legacy JAX path *)

Section JaxLegacy.
Context `{Library}.

(** C10: with [max_diff > 1], [execute_legacy] raises
    [InterfaceUnsupportedError] at once, whatever the gradient rule and the
    depth [_n]: the tapes are neither validated nor annotated, no object is
    created and the backend is not called; the world differs only by the
    record of the call itself. *)
Theorem execute_legacy_first_order_only
    tapes dev execute_fn gradient_fn gradient_kwargs _n max_diff w :
  1 < max_diff →
  Jax.execute_legacy tapes dev execute_fn gradient_fn gradient_kwargs
                     _n max_diff w =
  (Raise (InterfaceUnsupportedError
            "The JAX interface only supports first order derivatives."),
   World (store w) (next_loc w) (active_return w)
         (trace w ++ [Enter JaxExecuteLegacy _n max_diff tapes])).
Proof.
  intros Hmax. unfold Jax.execute_legacy. rewrite bind_run. simpl.
  by rewrite bool_decide_eq_true_2.
Qed.

Lemma multi_probs_after_loop_last ts t :
  Jax.multi_probs_after_loop (ts ++ [t]) =
  Some (has_measurement ProbabilityMP t && multi_measurement t).
Proof. unfold Jax.multi_probs_after_loop. by rewrite foldl_app. Qed.

Lemma scalar_outputs_spec (ts : list tape) :
  forallb (λ t, bool_decide (output_dim t = 1%nat)) ts = true ↔
  Forall (λ t, output_dim t = 1%nat) ts.
Proof.
  rewrite forallb_forall, Forall_forall. split; intros Hall t Ht.
  - eapply bool_decide_eq_true_1, Hall. done.
  - apply bool_decide_eq_true_2, Hall. done.
Qed.

Lemma raises_iter_value v : raises own_error (iter_value v).
Proof.
  destruct v as [k a| | | | | |]; simpl; try apply raises_ret;
    try (by apply raises_raise).
  destruct (shape a); [by apply raises_raise | apply raises_ret].
Qed.

Lemma raises_shape_at v i : raises own_error (shape_at v i).
Proof.
  destruct v; simpl; try (by apply raises_raise);
    by apply raises_getitem.
Qed.

Lemma raises_getitem2 v k i : raises own_error (getitem2 v k i).
Proof.
  destruct v as [b a| | | | | |]; simpl; try (by apply raises_raise).
  destruct (shape a) as [|r [|c rest]]; try (by apply raises_raise).
  case_bool_decide; [apply raises_ret | by apply raises_raise].
Qed.

Lemma raises_reshape_jacobian j : raises own_error (Jax.reshape_jacobian j).
Proof.
  unfold Jax.reshape_jacobian.
  apply raises_bind; [apply raises_shape_at | intros cols].
  apply raises_bind; [|intros; apply raises_ret].
  apply raises_mapO. intros i. unfold Jax.jacobian_column.
  apply raises_bind; [apply raises_shape_at | intros rows].
  case_bool_decide; [apply raises_getitem2|].
  apply raises_bind; [|intros; apply raises_ret].
  apply raises_mapO. intros k. apply raises_getitem2.
Qed.

Lemma getitem2_entry b r c rest xs k i :
  (k < r)%nat → (i < c)%nat →
  getitem2 (VArr b (NdArray (r :: c :: rest) xs)) k i
  = Ret (entry_at b c rest xs k i).
Proof.
  intros Hk Hi. unfold getitem2, entry_at. cbn [shape data].
  by rewrite bool_decide_eq_true_2.
Qed.

Lemma jacobian_column_entry b r c rest xs i :
  (i < c)%nat →
  Jax.jacobian_column (VArr b (NdArray (r :: c :: rest) xs)) i
  = Ret (if bool_decide (r = 1%nat) then entry_at b c rest xs 0 i
         else jnp_array (VList (map (λ k, entry_at b c rest xs k i) (seq 0 r)))).
Proof.
  intros Hi. unfold Jax.jacobian_column. cbn [shape_at shape].
  change (getitem (r :: c :: rest) 0) with (Ret (A:=nat) r).
  cbn [mbind outcome_bind].
  case_bool_decide as Hr.
  - subst r. by rewrite getitem2_entry by lia.
  - rewrite (mapO_ret _ (λ k, entry_at b c rest xs k i)); [done|].
    intros k Hk%elem_of_seq. apply getitem2_entry; lia.
Qed.

Lemma reshape_jacobian_entries b rows cols rest xs :
  Jax.reshape_jacobian (VArr b (NdArray (rows :: cols :: rest) xs))
  = Ret (VList (map (λ i,
           if bool_decide (rows = 1%nat) then entry_at b cols rest xs 0 i
           else jnp_array
                  (VList (map (λ k, entry_at b cols rest xs k i) (seq 0 rows))))
         (seq 0 cols))).
Proof.
  unfold Jax.reshape_jacobian. cbn [shape_at shape].
  change (getitem (rows :: cols :: rest) 1) with (Ret (A:=nat) cols).
  cbn [mbind outcome_bind].
  rewrite (mapO_ret _ (λ i,
            if bool_decide (rows = 1%nat) then entry_at b cols rest xs 0 i
            else jnp_array
                   (VList (map (λ k, entry_at b cols rest xs k i)
                               (seq 0 rows)))));
    [done|].
  intros i Hi%elem_of_seq. apply jacobian_column_entry. lia.
Qed.

Lemma reshape_jacobians_run js res :
  Forall2 columns_of js res → mapO Jax.reshape_jacobian js = Ret res.
Proof.
  intros HF. apply mapO_of_Forall2.
  induction HF as [|j v js res (b & rows & cols & rest & xs & -> & ->) _ IH];
    constructor; [apply reshape_jacobian_entries | exact IH].
Qed.

(** C7: the backward rule of the legacy JAX forward-mode path raises
    [InterfaceUnsupportedError] exactly when some tape of the batch has an
    [output_dim] other than 1.  When every tape has [output_dim] 1, each
    stored Jacobian, an array with at least two axes, is returned as the
    list of its columns ([columns_of]): a Jacobian with one row becomes the
    list of its entries, one with several rows the list of its columns,
    each made an array.  The rule changes nothing in the world. *)
Theorem fwd_legacy_bwd_vector_valued tapes jacs params g w :
  let r := Jax._execute_fwd_legacy_wrapped_exec_bwd tapes (jacs, params) g w in
  (unsupported_raised r.1 ↔
     Exists (λ l, output_dim (store w l) ≠ 1%nat) tapes) ∧
  (Forall (λ l, output_dim (store w l) = 1%nat) tapes →
   ∀ js res, iter_value jacs = Ret js → Forall2 columns_of js res →
     r.1 = Ret (VTuple [VTuple res])) ∧
  r.2 = w.
Proof.
  unfold Jax._execute_fwd_legacy_wrapped_exec_bwd.
  rewrite bind_run, load_all_run. cbn zeta. rewrite bind_run.
  unfold Jax._raise_vector_valued_fwd, lift. cbn [fst snd].
  destruct (forallb _ (map (store w) tapes)) eqn:Hall; cbn [negb].
  - apply scalar_outputs_spec, Forall_map in Hall.
    assert (Hnever : ∀ e, own_error e →
              ¬ unsupported_raised (Raise (A:=value) e)).
    { by intros e He (msg & [= ->]). }
    assert (Hnone : ¬ Exists (λ l, output_dim (store w l) ≠ 1%nat) tapes).
    { intros (l & Hl & Hne)%Exists_exists.
      rewrite Forall_forall in Hall. by apply Hne, Hall. }
    rewrite bind_run.
    destruct (iter_value jacs) as [js|e] eqn:Hjs; cbn [fst snd].
    + rewrite bind_run.
      destruct (mapO Jax.reshape_jacobian js) as [res|e] eqn:Hres;
        cbn [fst snd].
      * split_and!; [|intros _ js' res' [= <-] HF|done].
        { split; [by intros (msg & [=]) | done]. }
        rewrite (reshape_jacobians_run _ _ HF) in Hres. by injection Hres as <-.
      * split_and!; [|intros _ js' res' [= <-] HF|done].
        { split; [intros Hu | done]. exfalso.
          revert Hu. apply Hnever.
          eapply (raises_mapO own_error); [|exact Hres].
          intros; apply raises_reshape_jacobian. }
        rewrite (reshape_jacobians_run _ _ HF) in Hres. done.
    + split_and!; [|by intros _ js res [=]|done].
      split; [intros Hu | done]. exfalso.
      revert Hu. apply Hnever. by eapply raises_iter_value.
  - split_and!; [|intros Hall'|done].
    + split; [intros _ | intros _; by eexists].
      apply not_Forall_Exists; [intros l; apply _|]. intros Hall'.
      assert (forallb (λ t, bool_decide (output_dim t = 1%nat))
                      (map (store w) tapes) = true); [|congruence].
      by apply scalar_outputs_spec, Forall_map.
    + assert (forallb (λ t, bool_decide (output_dim t = 1%nat))
                      (map (store w) tapes) = true); [|congruence].
      by apply scalar_outputs_spec, Forall_map.
Qed.
End JaxLegacy.

(** * Parameter substitution *)

Section Substitution.
Context `{Library}.

Lemma set_copy_and_unwrap_tape_run t a unwrap w :
  ∃ nl w', Jax._set_copy_and_unwrap_tape t a unwrap w = (Ret nl, w') ∧
    keeps_objects w w' ∧ trace w' = trace w ∧
    (next_loc w ≤ nl < next_loc w')%nat ∧
    store w' nl = substituted unwrap (store w t) a.
Proof.
  unfold Jax._set_copy_and_unwrap_tape, substituted.
  rewrite bind_run. cbn [load fst snd]. rewrite bind_run. cbn [alloc fst snd].
  destruct unwrap.
  - rewrite bind_run. cbn [load alloc fst snd store next_loc].
    eexists _, _. split; [reflexivity|]. cbn [store next_loc trace active_return].
    split_and!; [|done|lia|lia|].
    + split; [cbn; lia|]. split; [done|]. intros l Hl. cbn.
      rewrite !fn_lookup_insert_ne by lia. done.
    + by rewrite !fn_lookup_insert.
  - eexists _, _. split; [reflexivity|]. cbn [store next_loc trace active_return].
    split_and!; [|done|lia|lia|].
    + apply keeps_alloc.
    + by rewrite fn_lookup_insert.
Qed.

Lemma set_parameters_run unwrap tapes : ∀ params w,
  ∃ new_tapes w',
    Jax.set_parameters_on_copy_and_unwrap tapes params unwrap w
      = (Ret new_tapes, w') ∧
    keeps_objects w w' ∧ trace w' = trace w ∧
    length new_tapes = (length tapes `min` length params)%nat ∧
    Forall (λ l, (next_loc w ≤ l < next_loc w')%nat) new_tapes ∧
    NoDup new_tapes ∧
    (allocated w tapes →
     ∀ i l a nl, tapes !! i = Some l → params !! i = Some a →
       new_tapes !! i = Some nl →
       store w' nl = substituted unwrap (store w l) a).
Proof.
  unfold Jax.set_parameters_on_copy_and_unwrap.
  induction tapes as [|t ts IH]; intros params w.
  - exists [], w. cbn. split_and!; try done; try constructor.
  - destruct params as [|a ps].
    + exists [], w. cbn. split_and!; try done; try constructor.
    + cbn [zip zip_with mapM fst snd]. rewrite bind_run. cbn [fst snd].
      destruct (set_copy_and_unwrap_tape_run t a unwrap w)
        as (nl & w1 & -> & Hk1 & Ht1 & Hnl & Hst1).
      cbn [fst snd]. rewrite bind_run.
      destruct (IH ps w1) as (nls & w' & -> & Hk2 & Ht2 & Hlen & Hnew & Hnd & Hc).
      exists (nl :: nls), w'. split; [reflexivity|].
      assert (Hk : keeps_objects w w') by (by etransitivity).
      destruct Hk1 as (Hn1 & _ & Hs1). destruct Hk2 as (Hn2 & _ & Hs2).
      split_and!; [done|congruence|cbn; lia| | |].
      * constructor; [lia|]. eapply Forall_impl; [|exact Hnew].
        cbn. intros; lia.
      * constructor; [|done]. intros Hin.
        rewrite Forall_forall in Hnew. apply list_elem_of_In in Hin.
        specialize (Hnew nl Hin). lia.
      * intros Hall0 i l a' nl' Hi Ha Hnl'.
        inversion_clear Hall0 as [|? ? Ht Hall].
        destruct i as [|i]; cbn in Hi, Ha, Hnl'.
        -- injection Hi as <-. injection Ha as <-. injection Hnl' as <-.
           rewrite Hs2 by lia. done.
        -- assert (Hl : (l < next_loc w)%nat).
           { rewrite Forall_forall in Hall. apply Hall.
             rewrite <- list_elem_of_In. by eapply list_elem_of_lookup_2. }
           assert (Hall1 : allocated w1 ts).
           { eapply Forall_impl; [|exact Hall]. cbn. intros; lia. }
           rewrite (Hc Hall1 i l a' nl' Hi Ha Hnl').
           by rewrite Hs1.
Qed.

(** C9: [set_parameters_on_copy_and_unwrap] never raises and works on new
    objects only.  It returns one tape per pair of [zip(tapes, params)];
    the tapes returned are pairwise distinct objects that did not exist
    before the call, each holding the caller's tape with the parameters
    bound by [bind_new_parameters] (and converted to concrete numbers when
    [unwrap] is set); and every object that existed before the call, the
    caller's tapes among them, is left as it was, field by field.  No call
    is recorded. *)
Theorem substitution_makes_new_tapes tapes params unwrap w :
  allocated w tapes →
  ∃ new_tapes w',
    Jax.set_parameters_on_copy_and_unwrap tapes params unwrap w
      = (Ret new_tapes, w') ∧
    length new_tapes = (length tapes `min` length params)%nat ∧
    NoDup new_tapes ∧
    Forall (λ nl, (next_loc w ≤ nl < next_loc w')%nat ∧ nl ∉ tapes) new_tapes ∧
    (∀ l, (l < next_loc w)%nat → store w' l = store w l) ∧
    (∀ i l a nl, tapes !! i = Some l → params !! i = Some a →
       new_tapes !! i = Some nl →
       store w' nl = substituted unwrap (store w l) a) ∧
    trace w' = trace w ∧ active_return w' = active_return w.
Proof.
  intros Hall.
  destruct (set_parameters_run unwrap tapes params w)
    as (nls & w' & Hrun & (Hn & Har & Hst) & Htr & Hlen & Hnew & Hnd & Hc).
  exists nls, w'. split_and!; try done; [|by apply Hc].
  eapply Forall_impl; [|exact Hnew]. cbn. intros nl Hnl. split; [done|].
  intros Hin. unfold allocated in Hall. rewrite Forall_forall in Hall.
  apply list_elem_of_In in Hin. specialize (Hall nl Hin). lia.
Qed.
End Substitution.

(** * Trainable parameters *)

Section Trainable.
Context `{Library}.

Lemma recompute_trainable_idem t :
  recompute_trainable (recompute_trainable t) = recompute_trainable t.
Proof. reflexivity. Qed.

Lemma set_trainable_loop_run tapes : ∀ w,
  ∃ st, for_each set_trainable_params tapes w
          = (Ret (), World st (next_loc w) (active_return w) (trace w)) ∧
        ∀ l, st l = annotated tapes (store w) l.
Proof.
  induction tapes as [|t ts IH]; intros w.
  - exists (store w). split; [by destruct w|]. intros l. unfold annotated.
    rewrite bool_decide_eq_false_2; [done | apply not_elem_of_nil].
  - cbn [for_each]. rewrite bind_run. unfold set_trainable_params at 1.
    rewrite bind_run. cbn [load assign fst snd].
    destruct (IH (World (<[t := recompute_trainable (store w t)]> (store w))
                        (next_loc w) (active_return w) (trace w)))
      as (st & -> & Hst).
    exists st. split; [done|]. intros l. rewrite Hst. unfold annotated.
    cbn [store]. destruct (decide (l = t)) as [->|Hne].
    + rewrite fn_lookup_insert.
      rewrite (bool_decide_eq_true_2 (t ∈ t :: ts)) by left.
      by case_bool_decide.
    + rewrite fn_lookup_insert_ne by done.
      case_bool_decide as Hin.
      * rewrite bool_decide_eq_true_2; [done | by right].
      * rewrite bool_decide_eq_false_2; [done|].
        intros [?|?]%elem_of_cons; done.
Qed.

Lemma jax_dispatch_keeps tapes dev execute_fn gradient_fn kw n max_diff :
  sat keeps_objects anything
    (parameters ← trainable_parameters tapes;
     match gradient_fn with
     | None => Jax._execute_fwd parameters tapes execute_fn kw n
     | Some g => Jax._execute_bwd parameters tapes dev execute_fn g kw n max_diff
     end).
Proof. keeps. Qed.

Lemma jax_legacy_dispatch_keeps tapes execute_fn gradient_fn kw :
  sat keeps_objects anything
    (parameters ← trainable_parameters tapes;
     match gradient_fn with
     | None => Jax._execute_fwd_legacy parameters tapes execute_fn kw
     | Some g => Jax._execute_legacy parameters tapes execute_fn g kw
     end).
Proof. keeps. Qed.

Lemma autograd_dispatch_keeps tapes execute_fn kw :
  sat keeps_objects anything
    (parameters ← trainable_parameters tapes;
     r ← Autograd._execute parameters tapes execute_fn kw;
     mret r.1).
Proof. keeps. Qed.

Lemma autograd_legacy_dispatch_keeps tapes execute_fn kw :
  sat keeps_objects anything
    (parameters ← trainable_parameters tapes;
     r ← Autograd.__execute_legacy parameters tapes execute_fn kw;
     mret r.1).
Proof. keeps. Qed.

Lemma validate_tapes_run tapes w :
  ∃ o, Jax._validate_tapes tapes w = (o, w) ∧
       is_ret o = forallb (λ l, is_ret (Jax._validate_tape (store w l))) tapes.
Proof.
  unfold Jax._validate_tapes. induction tapes as [|t ts IH]; cbn [for_each].
  - by exists (Ret ()).
  - rewrite bind_run, bind_run. cbn [load lift fst snd forallb].
    destruct (Jax._validate_tape (store w t)) as [[]|e]; cbn [is_ret andb].
    + exact IH.
    + by exists (Raise e).
Qed.

(** After the loop, what follows leaves the objects of the initial world as
    the loop left them. *)
Lemma annotate_then_keep {A} (rest : M A) tapes w :
  sat keeps_objects anything rest →
  ∀ l, (l < next_loc w)%nat →
    store ((_ ← for_each set_trainable_params tapes; rest) w).2 l
      = annotated tapes (store w) l.
Proof.
  intros Hrest l Hl. rewrite bind_run.
  destruct (set_trainable_loop_run tapes w) as (st & -> & Hst).
  destruct (Hrest (World st (next_loc w) (active_return w) (trace w)))
    as [(_ & _ & Hkeep) _].
  rewrite Hkeep by done. apply Hst.
Qed.

(** C2, as the code has it: the JAX entry points set the trainable
    parameters of each tape of the batch, from its full parameter list, if
    and only if the depth [_n] is 1 ([execute_legacy] only once its checks
    of [max_diff] and of the tapes have passed) and leave every tape as it
    was otherwise; the Autograd entry points set them at every call,
    whatever the depth. *)
Theorem trainable_params_set_by_entry_points
    tapes dev execute_fn gradient_fn kw _n max_diff w l :
  (l < next_loc w)%nat →
  store (Jax.execute tapes dev execute_fn gradient_fn kw _n max_diff w).2 l
    = (if bool_decide (_n = 1) then annotated tapes (store w) l
       else store w l) ∧
  store (Jax.execute_legacy tapes dev execute_fn gradient_fn kw
                            _n max_diff w).2 l
    = (if bool_decide (_n = 1) && legacy_checks_pass w tapes max_diff
       then annotated tapes (store w) l else store w l) ∧
  store (Autograd.execute tapes dev execute_fn gradient_fn kw
                          _n max_diff w).2 l
    = annotated tapes (store w) l ∧
  store (Autograd._execute_legacy tapes dev execute_fn gradient_fn kw
                                  _n max_diff w).2 l
    = annotated tapes (store w) l.
Proof.
  intros Hl.
  assert (Hlegacy : ∀ w0, store w0 = store w → next_loc w0 = next_loc w →
    store (Autograd._execute_legacy tapes dev execute_fn gradient_fn kw
                                    _n max_diff w0).2 l
      = annotated tapes (store w) l).
  { intros w0 Hs Hn. unfold Autograd._execute_legacy.
    rewrite bind_run. cbn [log fst snd].
    rewrite annotate_then_keep;
      [by cbn [store]; rewrite Hs | apply autograd_legacy_dispatch_keeps
      | cbn [next_loc]; lia]. }
  split_and!.
  - unfold Jax.execute. rewrite bind_run. cbn [log fst snd].
    case_bool_decide.
    + rewrite annotate_then_keep; [done | apply jax_dispatch_keeps | done].
    + rewrite bind_run. cbn [mret M_ret].
      match goal with |- store (?m ?w0).2 l = _ =>
        destruct (jax_dispatch_keeps tapes dev execute_fn gradient_fn kw
                    _n max_diff w0) as [(_ & _ & Hkeep) _] end.
      by rewrite Hkeep.
  - unfold Jax.execute_legacy, legacy_checks_pass.
    rewrite bind_run. cbn [log fst snd].
    case_bool_decide as Hmax.
    + rewrite (bool_decide_eq_false_2 (max_diff ≤ 1)) by lia.
      by rewrite andb_false_r.
    + rewrite (bool_decide_eq_true_2 (max_diff ≤ 1)) by lia.
      cbn [andb]. rewrite bind_run.
      match goal with |- context [Jax._validate_tapes tapes ?w0] =>
        destruct (validate_tapes_run tapes w0) as (o & -> & Ho) end.
      cbn [store] in Ho. rewrite <- Ho.
      destruct o as [[]|e]; cbn [is_ret fst snd store].
      * case_bool_decide; cbn [andb].
        -- rewrite annotate_then_keep;
             [done | apply jax_legacy_dispatch_keeps | done].
        -- rewrite bind_run. cbn [mret M_ret].
           match goal with |- store (?m ?w0).2 l = _ =>
             destruct (jax_legacy_dispatch_keeps tapes execute_fn gradient_fn
                         kw w0) as [(_ & _ & Hkeep) _] end.
           by rewrite Hkeep.
      * by rewrite andb_false_r.
  - unfold Autograd.execute. rewrite bind_run. cbn [log fst snd].
    rewrite bind_run. cbn [get_active_return fst snd active_return].
    destruct (active_return w); cbn [negb].
    + rewrite annotate_then_keep;
        [done | apply autograd_dispatch_keeps | done].
    + by apply Hlegacy.
  - by apply Hlegacy.
Qed.
End Trainable.

(** * The VJP of a tape with partitioned shots *)

Section ShotVector.
Context `{Library}.

Lemma mapO_lookup {A B} (f : A → outcome B) l ys i x :
  mapO f l = Ret ys → l !! i = Some x →
  ∃ y, f x = Ret y ∧ ys !! i = Some y.
Proof.
  revert ys i. induction l as [|a l IH]; intros ys i Hm Hi; [done|].
  cbn [mapO] in Hm. destruct (f a) as [b|e] eqn:Hfa; [|done].
  cbn [mbind outcome_bind] in Hm.
  destruct (mapO f l) as [bs|e] eqn:Hl; [|done].
  cbn [mbind outcome_bind] in Hm. injection Hm as <-.
  destruct i as [|i]; cbn in Hi |- *.
  - injection Hi as <-. eauto.
  - by eapply IH.
Qed.

Lemma shot_vjps_zip_with multi ds js :
  Autograd.shot_vjps multi ds js = zip_with (Autograd.contraction multi) ds js.
Proof.
  unfold Autograd.shot_vjps. revert js.
  induction ds as [|d ds IH]; intros [|j js]; cbn; [done..|]. by rewrite IH.
Qed.




End ShotVector.

(** * Result marshalling *)

Section Marshalling.
Context `{Library}.

Lemma unwrap_tapes_run tapes : ∀ w,
  ∃ nls w', unwrap_tapes tapes w = (Ret nls, w') ∧
    keeps_objects w w' ∧ trace w' = trace w ∧
    (allocated w tapes →
     map (store w') nls
       = map (λ l, convert_to_numpy_parameters (store w l)) tapes).
Proof.
  unfold unwrap_tapes. induction tapes as [|t ts IH]; intros w.
  - exists [], w. by split_and!.
  - cbn [mapM]. rewrite bind_run, bind_run. cbn [load alloc fst snd].
    rewrite bind_run.
    match goal with |- context [mapM _ ts ?w1] =>
      destruct (IH w1) as (nls & w' & -> & Hk & Htr & Hc);
      pose proof (keeps_alloc w (convert_to_numpy_parameters (store w t)))
        as Hk1
    end.
    eexists _, _. split; [reflexivity|].
    split_and!; [by etransitivity | done |].
    intros Hall. inversion_clear Hall as [|? ? Ht Hts]. cbn [map]. f_equal.
    + destruct Hk as (_ & _ & Hs). rewrite Hs by (cbn; lia). cbn.
      by rewrite fn_lookup_insert.
    + rewrite Hc.
      * apply map_ext_in. intros l Hl. cbn. rewrite fn_lookup_insert_ne; [done|].
        rewrite Forall_forall in Hts. specialize (Hts l Hl). lia.
      * eapply Forall_impl; [|exact Hts]. cbn. intros; lia.
Qed.

Lemma set_parameters_values unwrap tapes params w :
  allocated w tapes →
  ∃ nls w',
    Jax.set_parameters_on_copy_and_unwrap tapes params unwrap w = (Ret nls, w') ∧
    keeps_objects w w' ∧ trace w' = trace w ∧
    map (store w') nls
      = zip_with (substituted unwrap) (map (store w) tapes) params.
Proof.
  intros Hall.
  destruct (set_parameters_run unwrap tapes params w)
    as (nls & w' & Hrun & Hk & Htr & Hlen & _ & _ & Hc).
  exists nls, w'. split_and!; [done..|].
  apply list_eq. intros i. rewrite list_lookup_fmap, lookup_zip_with.
  rewrite list_lookup_fmap.
  destruct (nls !! i) as [nl|] eqn:Hnl; cbn.
  - destruct (lookup_lt_is_Some_2 tapes i) as [l Hl].
    { apply lookup_lt_Some in Hnl. lia. }
    destruct (lookup_lt_is_Some_2 params i) as [a Ha].
    { apply lookup_lt_Some in Hnl. lia. }
    rewrite Hl, Ha. cbn. f_equal. by eapply Hc.
  - apply lookup_ge_None in Hnl.
    destruct (tapes !! i) as [l|] eqn:Hl; cbn; [|done].
    destruct (params !! i) as [a|] eqn:Ha; cbn; [|done].
    apply lookup_lt_Some in Hl, Ha. lia.
Qed.

Lemma convert_results_run (ts : list tape) (res : list value) :
  (length res ≤ length ts)%nat →
  mapO (λ ir : nat * value,
          t ← getitem ts ir.1; Ret (Autograd.convert_result t ir.2))
       (imap pair res)
    = Ret (zip_with Autograd.convert_result ts res).
Proof.
  intros Hlen. apply mapO_of_Forall2, Forall2_same_length_lookup_2.
  - rewrite length_imap, length_zip_with. lia.
  - intros i [i' r] y. rewrite list_lookup_imap, lookup_zip_with.
    destruct (res !! i) as [r'|] eqn:Hr; [|done]. cbn. intros [= <- <-].
    destruct (lookup_lt_is_Some_2 ts i) as [t Ht].
    { apply lookup_lt_Some in Hr. lia. }
    rewrite Ht. cbn. intros [= <-]. unfold getitem. by rewrite Ht.
Qed.

Lemma call_execute_fn_run site execute_fn ts kw w :
  call_execute_fn site execute_fn ts kw w
  = (execute_fn ts kw,
     World (store w) (next_loc w) (active_return w)
           (trace w ++ [CallExecuteFn site ts kw])).
Proof. reflexivity. Qed.

(** The forward pass of the JAX interface: the tapes are copied with the
    parameters bound, and the backend is called on the copies. *)
Lemma jax_forward_call {A} tapes params execute_fn kw
    (K : list value * list value → M A) w :
  allocated w tapes →
  let ts := zip_with (substituted true) (map (store w) tapes) params in
  ∃ w', keeps_objects w w' ∧
    trace w' = trace w ++ [CallExecuteFn ForwardPass ts (Some kw)] ∧
    (new_tapes ← Jax.set_parameters_on_copy_and_unwrap tapes params true;
     new_tapes ← load_all new_tapes;
     r ← call_execute_fn ForwardPass execute_fn new_tapes (Some kw);
     K r) w
    = match execute_fn ts (Some kw) with
      | Ret r => K r w'
      | Raise e => (Raise e, w')
      end.
Proof.
  intros Hall ts.
  destruct (set_parameters_values true tapes params w Hall)
    as (nls & w1 & Hrun & Hk & Htr & Hv).
  eexists (World (store w1) (next_loc w1) (active_return w1)
                 (trace w1 ++ [CallExecuteFn ForwardPass ts (Some kw)])).
  split_and!.
  - etransitivity; [exact Hk | apply keeps_log].
  - cbn [trace]. by rewrite Htr.
  - rewrite bind_run, Hrun, bind_run, load_all_run. cbn [fst snd].
    rewrite Hv, bind_run, call_execute_fn_run. fold ts.
    by destruct (execute_fn ts (Some kw)).
Qed.

Lemma autograd_execute_run parameters tapes execute_fn kw w :
  allocated w tapes →
  let ts := map (λ l, convert_to_numpy_parameters (store w l)) tapes in
  ∃ w', keeps_objects w w' ∧
    trace w' = trace w ++ [CallExecuteFn ForwardPass ts (Some kw)] ∧
    Autograd._execute parameters tapes execute_fn kw w
    = (execute_fn ts (Some kw), w').
Proof.
  intros Hall ts. unfold Autograd._execute.
  destruct (unwrap_tapes_run tapes w) as (nls & w1 & Hrun & Hk & Htr & Hv).
  eexists (World (store w1) (next_loc w1) (active_return w1)
                 (trace w1 ++ [CallExecuteFn ForwardPass ts (Some kw)])).
  split_and!.
  - etransitivity; [exact Hk | apply keeps_log].
  - cbn [trace]. by rewrite Htr.
  - rewrite bind_run, Hrun, bind_run, load_all_run. cbn [fst snd].
    by rewrite (Hv Hall), call_execute_fn_run.
Qed.

(** The forward pass of the Autograd interface: the backend is called on
    converted copies of the tapes. *)
Lemma autograd_forward_call {A} tapes execute_fn kw
    (K : list value * list value → M A) w :
  allocated w tapes →
  let ts := map (λ l, convert_to_numpy_parameters (store w l)) tapes in
  ∃ w', keeps_objects w w' ∧
    trace w' = trace w ++ [CallExecuteFn ForwardPass ts (Some kw)] ∧
    (unwrapped_tapes ← unwrap_tapes tapes;
     unwrapped_tapes ← load_all unwrapped_tapes;
     r ← call_execute_fn ForwardPass execute_fn unwrapped_tapes (Some kw);
     K r) w
    = match execute_fn ts (Some kw) with
      | Ret r => K r w'
      | Raise e => (Raise e, w')
      end.
Proof.
  intros Hall ts.
  destruct (unwrap_tapes_run tapes w) as (nls & w1 & Hrun & Hk & Htr & Hv).
  eexists (World (store w1) (next_loc w1) (active_return w1)
                 (trace w1 ++ [CallExecuteFn ForwardPass ts (Some kw)])).
  split_and!.
  - etransitivity; [exact Hk | apply keeps_log].
  - cbn [trace]. by rewrite Htr.
  - rewrite bind_run, Hrun, bind_run, load_all_run. cbn [fst snd].
    rewrite (Hv Hall), bind_run, call_execute_fn_run. fold ts.
    by destruct (execute_fn ts (Some kw)).
Qed.

Lemma allocated_keeps w w' tapes :
  keeps_objects w w' → allocated w tapes →
  allocated w' tapes ∧ map (store w') tapes = map (store w) tapes.
Proof.
  intros (Hn & _ & Hs) Hall. split.
  - eapply Forall_impl; [|exact Hall]. cbn. intros; lia.
  - apply map_ext_in. intros l Hl. apply Hs.
    unfold allocated in Hall. rewrite Forall_forall in Hall. by apply Hall.
Qed.

Lemma is_count_result_spec r :
  Jax._is_count_result r = true ↔
  (∃ d, r = VDict d) ∨
  (∃ l, r = VList l ∧ Forall (λ x, ∃ d, x = VDict d) l).
Proof.
  assert (Hdict : ∀ x, is_dict x = true ↔ ∃ d, x = VDict d).
  { intros x. split; [destruct x; try done; eauto | by intros [d ->]]. }
  unfold Jax._is_count_result. split.
  - destruct r as [| | | |l| |]; cbn; try done; [eauto|].
    intros Hl. right. exists l. split; [done|].
    apply Forall_forall. intros x Hx. apply Hdict.
    exact (proj1 (forallb_forall _ _) Hl x Hx).
  - intros [[d ->]|(l & -> & Hl)]; [done|]. cbn.
    apply forallb_forall. intros x Hx. apply Hdict.
    rewrite Forall_forall in Hl. by apply Hl.
Qed.

(** C8, as the code has it, path by path.  A count result is a dictionary
    or a list of dictionaries.  [_to_jax] returns a sequence index-aligned
    with the results, in which a count result is the very value it
    received, alone or inside the tuple of a tape with several measurements,
    and every other result is converted by [jnp.array]; with partitioned
    shots [_to_jax_shot_vector] applies it to the entries of each result.
    The legacy Autograd path leaves the result of a tape with a counts
    measurement as it is and converts the results of the other tapes of the
    batch.  The legacy JAX path with a gradient rule does the same, except
    that for a tape with a counts measurement that is broadcasted
    ([batch_size] not [None]) it raises [InterfaceUnsupportedError]; for a
    batch of one tape the test is applied to the list of results as a
    whole.  Two paths make no difference between count results and others:
    the legacy JAX forward-mode path applies [jnp.array] to every result
    (and to every Jacobian), and [_execute] of the Autograd interface
    returns what the backend returned, nothing being converted. *)
Theorem count_results_pass_through :
  (∀ r, Jax._is_count_result r = true ↔
        (∃ d, r = VDict d) ∨
        (∃ l, r = VList l ∧ Forall (λ x, ∃ d, x = VDict d) l)) ∧
  (∀ res,
     length (Jax._to_jax res) = length res ∧
     ∀ i r, res !! i = Some r →
       (Jax._is_count_result r = true → Jax._to_jax res !! i = Some r) ∧
       (Jax._is_count_result r = false → is_tuple r = false →
          Jax._to_jax res !! i = Some (jnp_array r)) ∧
       (∀ sub, r = VTuple sub →
          Jax._to_jax res !! i =
            Some (VTuple (map (λ r_i, if Jax._is_count_result r_i then r_i
                                      else jnp_array r_i) sub)))) ∧
  (∀ res itemss,
     Forall2 (λ r items, iter_value r = Ret items) res itemss →
     Jax._to_jax_shot_vector res
     = Ret (map (λ items, VTuple (Jax._to_jax items)) itemss)) ∧
  (∀ t r,
     (has_measurement CountsMP t = true → Autograd.convert_result t r = r) ∧
     (has_measurement CountsMP t = false →
        Autograd.convert_result t r =
          if is_ndarray r then
            np_tensor (if is_object_dtype r then np_hstack r else r)
          else match r with
               | VTuple rs => VTuple (map np_tensor rs)
               | _ => math_toarray r
               end)) ∧
  (∀ parameters tapes execute_fn kw w res jacs,
     allocated w tapes →
     execute_fn (map (λ l, convert_to_numpy_parameters (store w l)) tapes)
                (Some kw) = Ret (res, jacs) →
     (length res ≤ length tapes)%nat →
     (Autograd.__execute_legacy parameters tapes execute_fn kw w).1
       = Ret (zip_with Autograd.convert_result (map (store w) tapes) res,
              jacs)) ∧
  (∀ t r,
     (has_measurement CountsMP t = true → batch_size t = None →
        Jax.array_if_not_counts t r = Ret r) ∧
     (has_measurement CountsMP t = true → batch_size t ≠ None →
        unsupported_raised (Jax.array_if_not_counts t r)) ∧
     (has_measurement CountsMP t = false →
        Jax.array_if_not_counts t r = Ret (jnp_array r))) ∧
  (∀ params tapes execute_fn kw w res jacs,
     allocated w tapes →
     execute_fn (zip_with (substituted true) (map (store w) tapes) params)
                (Some kw) = Ret (res, jacs) →
     (Jax._execute_legacy_wrapped_exec tapes execute_fn kw params w).1
       = if bool_decide (1 < length tapes)%nat then
           rs ← mapO (λ tr, Jax.array_if_not_counts tr.1 tr.2)
                     (zip (map (store w) tapes) res);
           Ret (VList rs)
         else
           t0 ← getitem (map (store w) tapes) 0;
           Jax.array_if_not_counts t0 (VList res)) ∧
  (∀ params tapes execute_fn kw w res jacs,
     allocated w tapes →
     execute_fn (zip_with (substituted true) (map (store w) tapes) params)
                (Some kw) = Ret (res, jacs) →
     (Jax._execute_fwd_legacy_wrapped_exec tapes execute_fn kw params w).1
       = Ret (if bool_decide (1 < length tapes)%nat
              then (VList (map jnp_array res), VList (map jnp_array jacs))
              else (jnp_array (VList res), jnp_array (VList jacs)))) ∧
  (∀ parameters tapes execute_fn kw w,
     allocated w tapes →
     (Autograd._execute parameters tapes execute_fn kw w).1
       = execute_fn (map (λ l, convert_to_numpy_parameters (store w l)) tapes)
                    (Some kw)).
Proof.
  split_and!.
  - apply is_count_result_spec.
  - intros res. unfold Jax._to_jax. split; [apply length_map|].
    intros i r Hr. rewrite list_lookup_fmap, Hr. cbn.
    split_and!.
    + by intros ->.
    + intros -> Htuple. by destruct r.
    + by intros sub ->.
  - intros res itemss HF. unfold Jax._to_jax_shot_vector.
    apply mapO_of_Forall2.
    induction HF as [|r items res' itemss' Hr _ IH]; cbn [map];
      constructor; [|exact IH].
    rewrite Hr. cbn [mbind outcome_bind].
    by rewrite (mapO_ret _ (λ r_, default r_ (Jax._to_jax [r_] !! 0%nat))).
  - intros t r. unfold Autograd.convert_result. split; by intros ->.
  - intros parameters tapes execute_fn kw w res jacs Hall Hexec Hlen.
    unfold Autograd.__execute_legacy.
    destruct (autograd_forward_call tapes execute_fn kw
                (λ r : list value * list value,
                   ts ← load_all tapes;
                   res ← lift (mapO (λ ir : nat * value,
                                       t ← getitem ts ir.1;
                                       Ret (Autograd.convert_result t ir.2))
                                    (imap pair r.1));
                   mret (res, r.2)) w Hall)
      as (w' & Hk & _ & ->).
    rewrite Hexec, bind_run, load_all_run. cbn [fst snd].
    destruct (allocated_keeps _ _ _ Hk Hall) as [_ ->].
    rewrite bind_run. unfold lift.
    rewrite convert_results_run by (by rewrite length_map). done.
  - intros t r. unfold Jax.array_if_not_counts, unsupported_raised.
    split_and!.
    + by intros -> ->.
    + intros ->. destruct (batch_size t); [eauto | done].
    + by intros ->.
  - intros params tapes execute_fn kw w res jacs Hall Hexec.
    unfold Jax._execute_legacy_wrapped_exec.
    destruct (jax_forward_call tapes params execute_fn kw
                (λ r : list value * list value,
                   ts ← load_all tapes;
                   if bool_decide (1 < length tapes)%nat then
                     rs ← lift (mapO (λ tr, Jax.array_if_not_counts tr.1 tr.2)
                                     (zip ts r.1));
                     mret (VList rs)
                   else
                     t0 ← lift (getitem ts 0);
                     lift (Jax.array_if_not_counts t0 (VList r.1))) w Hall)
      as (w' & Hk & _ & ->).
    rewrite Hexec, bind_run, load_all_run. cbn [fst snd].
    destruct (allocated_keeps _ _ _ Hk Hall) as [_ ->].
    case_bool_decide; rewrite bind_run; unfold lift.
    + by destruct (mapO _ (zip (map (store w) tapes) res)).
    + by destruct (getitem (map (store w) tapes) 0).
  - intros params tapes execute_fn kw w res jacs Hall Hexec.
    unfold Jax._execute_fwd_legacy_wrapped_exec.
    destruct (jax_forward_call tapes params execute_fn kw
                (λ r : list value * list value,
                   if bool_decide (1 < length tapes)%nat then
                     mret (VList (map jnp_array r.1), VList (map jnp_array r.2))
                   else
                     mret (jnp_array (VList r.1), jnp_array (VList r.2)))
                w Hall)
      as (w' & _ & _ & ->).
    rewrite Hexec. cbn [fst snd]. by case_bool_decide.
  - intros parameters tapes execute_fn kw w Hall.
    destruct (autograd_execute_run parameters tapes execute_fn kw w Hall)
      as (w' & _ & _ & ->).
    done.
Qed.
End Marshalling.

(** ** The adjustment for multiple probability measurements *)

Section MultiProbs.
Context `{Library}.

Lemma alloc_all_keeps ts : ∀ w,
  ∃ locs w', alloc_all ts w = (Ret locs, w') ∧ keeps_objects w w'.
Proof.
  unfold alloc_all. induction ts as [|t ts IH]; intros w; cbn [mapM].
  - exists [], w. split; [done | reflexivity].
  - rewrite bind_run. cbn [alloc fst snd]. rewrite bind_run.
    match goal with |- context [mapM alloc ts ?w1] =>
      destruct (IH w1) as (locs & w' & -> & Hk) end.
    eexists _, _. split; [reflexivity|].
    etransitivity; [apply keeps_alloc | exact Hk].
Qed.

Lemma swap_partial_results partial_res dims :
  Forall2 (λ r d, ndim r = Ret d) partial_res dims →
  mapO Jax.swap_if_matrix partial_res
  = Ret (zip_with (λ r (d : nat),
                     if bool_decide (1 < d)%nat then swapaxes r 0 1 else r)
                  partial_res dims).
Proof.
  intros HF. apply mapO_of_Forall2.
  induction HF as [|r d rs ds Hr _ IH]; cbn [zip_with]; constructor;
    [|exact IH].
  unfold Jax.swap_if_matrix. by rewrite Hr.
Qed.

(** C5: in the backward rule of the legacy JAX path, for a gradient
    transform, the adjustment for multiple probability measurements is
    decided by the last tape of the batch alone.  If that tape has more than
    one measurement and a probability measurement among them, every partial
    result with more than one axis is replaced by itself with axes 0 and 1
    swapped, whatever tape it belongs to, and every partial result with at
    most one axis is kept; otherwise no partial result is touched ([dims]
    are the numbers of axes of the partial results).  This holds of the loop
    and test by themselves, and of the rule as a whole: on a batch that ends
    with the tape [last], once the backend has returned the partial
    results, the rule returns what the rest of its body makes of the
    partial results adjusted, or not, as [last] says. *)
Theorem multi_probs_decided_by_last_tape :
  (∀ ts t partial_res,
     has_measurement ProbabilityMP t && multi_measurement t = false →
     Jax.adjust_multi_probs (ts ++ [t]) partial_res = Ret partial_res) ∧
  (∀ ts t partial_res dims,
     has_measurement ProbabilityMP t && multi_measurement t = true →
     Forall2 (λ r d, ndim r = Ret d) partial_res dims →
     Jax.adjust_multi_probs (ts ++ [t]) partial_res
     = Ret (zip_with (λ r (d : nat),
                        if bool_decide (1 < d)%nat then swapaxes r 0 1 else r)
                     partial_res dims)) ∧
  (∀ tapes last execute_fn g kw params cot w vjp_tapes processing_fn
     partial_res jacs dims,
     is_gradient_transform g = true →
     allocated w (tapes ++ [last]) →
     batch_vjp (zip_with (substituted true)
                  (map (store w) (tapes ++ [last])) params) cot g None kw
       = (vjp_tapes, processing_fn) →
     execute_fn vjp_tapes None = Ret (partial_res, jacs) →
     Forall2 (λ r d, ndim r = Ret d) partial_res dims →
     (Jax._execute_legacy_wrapped_exec_bwd (tapes ++ [last]) execute_fn g kw
        params cot w).1
     = Jax.group_and_unstack processing_fn params
         (if has_measurement ProbabilityMP (store w last)
             && multi_measurement (store w last)
          then zip_with (λ r (d : nat),
                           if bool_decide (1 < d)%nat then swapaxes r 0 1
                           else r)
                        partial_res dims
          else partial_res)).
Proof.
  assert (Hno : ∀ ts t partial_res,
     has_measurement ProbabilityMP t && multi_measurement t = false →
     Jax.adjust_multi_probs (ts ++ [t]) partial_res = Ret partial_res).
  { intros ts t partial_res Ht. unfold Jax.adjust_multi_probs.
    by rewrite multi_probs_after_loop_last, Ht. }
  assert (Hyes : ∀ ts t partial_res dims,
     has_measurement ProbabilityMP t && multi_measurement t = true →
     Forall2 (λ r d, ndim r = Ret d) partial_res dims →
     Jax.adjust_multi_probs (ts ++ [t]) partial_res
     = Ret (zip_with (λ r (d : nat),
                        if bool_decide (1 < d)%nat then swapaxes r 0 1 else r)
                     partial_res dims)).
  { intros ts t partial_res dims Ht HF. unfold Jax.adjust_multi_probs.
    rewrite multi_probs_after_loop_last, Ht.
    by apply swap_partial_results. }
  split; [exact Hno|]. split; [exact Hyes|].
  intros tapes last execute_fn g kw params cot w vjp_tapes processing_fn
    partial_res jacs dims Hg Hall Hvjp Hexec HF.
  unfold Jax._execute_legacy_wrapped_exec_bwd. rewrite Hg, bind_run.
  destruct (set_parameters_values true (tapes ++ [last]) params w Hall)
    as (nls & w1 & -> & Hk1 & Ht1 & Hv).
  cbn [fst snd]. rewrite bind_run, load_all_run. cbn [fst snd].
  rewrite Hv, Hvjp, bind_run.
  destruct (alloc_all_keeps vjp_tapes w1) as (locs & w2 & -> & Hk2).
  cbn [fst snd]. rewrite bind_run. unfold call_execute_fn.
  rewrite bind_run. cbn [log lift fst snd]. rewrite Hexec. cbn [fst snd].
  rewrite bind_run, load_all_run. cbn [fst snd store].
  assert (Hts : map (store w2) (tapes ++ [last])
                = map (store w) tapes ++ [store w last]).
  { change (map (store w) tapes ++ [store w last])
      with (map (store w) tapes ++ map (store w) [last]).
    rewrite <- (map_app (store w) tapes [last]). apply map_ext_in.
    intros l Hl. destruct (transitivity Hk1 Hk2) as (_ & _ & Hs). apply Hs.
    unfold allocated in Hall. rewrite Forall_forall in Hall. by apply Hall. }
  rewrite Hts, bind_run. unfold lift.
  destruct (has_measurement ProbabilityMP (store w last)
            && multi_measurement (store w last)) eqn:Hlast.
  - by rewrite (Hyes _ _ _ dims Hlast HF).
  - by rewrite (Hno _ _ _ Hlast).
Qed.

End MultiProbs.

(** * Nesting depth *)

Section Nesting.
Context `{Library}.

Lemma cache_worthy_depth gradient_fn n max_diff :
  Autograd.cache_worthy gradient_fn n max_diff = true → n = max_diff.
Proof.
  unfold Autograd.cache_worthy. destruct gradient_fn; [|done].
  intros [_ Hn]%andb_prop. by apply bool_decide_eq_true_1 in Hn.
Qed.

Lemma sat_events {A} P (m : M A) w :
  sat (appends P) anything m → Forall P (events m w).
Proof.
  intros Hm. destruct (Hm w) as [(evs & Ht & HP) _].
  by rewrite (events_spec _ _ _ Ht).
Qed.

Ltac recursion_steps :=
  sat_steps; intros;
  repeat match goal with
         | Hc : Autograd.cache_worthy _ _ _ = true |- _ =>
             apply cache_worthy_depth in Hc
         end;
  first [ apply raises_anything
        | apply appends_same
        | apply appends_log; cbn; first [done | congruence | lia ] ].

Lemma jax_rule_steps tapes dev execute_fn g kw n max_diff hp sv primals tangents :
  is_gradient_transform g = true →
  sat (appends (recursion_step n max_diff)) anything
    (Jax._execute_bwd_execute_wrapper_jvp tapes dev execute_fn g kw n max_diff
       hp sv primals tangents).
Proof. intros Hg. recursion_steps. Qed.

Lemma autograd_rule_steps ans tapes dev execute_fn g kw n max_diff c dy :
  is_gradient_transform g = true →
  sat (appends (recursion_step n max_diff)) anything
    (Autograd.vjp_grad_fn ans tapes dev execute_fn (Some g) kw n max_diff c dy).
Proof. intros Hg. recursion_steps. Qed.

Lemma autograd_legacy_rule_steps ans tapes dev execute_fn g kw n max_diff c dy :
  is_gradient_transform g = true →
  sat (appends (recursion_step n max_diff)) anything
    (Autograd._vjp_legacy_grad_fn ans tapes dev execute_fn (Some g) kw n
       max_diff c dy).
Proof. intros Hg. recursion_steps. Qed.

(** A computation whose first recorded event is [e]. *)
Lemma starts_log_bind {A} e (k : unit → M A) w :
  (∀ u, sat (appends (λ _, True)) anything (k u)) →
  ∃ evs, trace ((log e ≫= k) w).2 = trace w ++ e :: evs.
Proof.
  intros Hk. rewrite bind_run. cbn [log fst snd].
  match goal with |- context [k () ?w1] =>
    destruct (Hk () w1) as [(evs & -> & _) _] end.
  exists evs. cbn [trace]. by rewrite <- app_assoc.
Qed.

Lemma starts_bind_l {A B} e (m : M A) (f : A → M B) w :
  (∃ evs, trace (m w).2 = trace w ++ e :: evs) →
  (∀ a, sat (appends (λ _, True)) anything (f a)) →
  ∃ evs, trace ((m ≫= f) w).2 = trace w ++ e :: evs.
Proof.
  intros (evs & Hm) Hf. rewrite bind_run.
  destruct (m w) as [[a|x] w1]; cbn [fst snd] in *; [|eauto].
  destruct (Hf a w1) as [(evs' & -> & _) _]. rewrite Hm.
  exists (evs ++ evs'). by rewrite <- app_assoc.
Qed.

Lemma events_bind_silent {A B} (m : M A) (f : A → M B) w a w1 :
  m w = (Ret a, w1) → trace w1 = trace w →
  events (m ≫= f) w = events (f a) w1.
Proof.
  intros Hm Ht. unfold events. by rewrite bind_run, Hm, Ht.
Qed.

Lemma alloc_all_run ts : ∀ w,
  ∃ locs w', alloc_all ts w = (Ret locs, w') ∧ trace w' = trace w.
Proof.
  unfold alloc_all. induction ts as [|t ts IH]; intros w; cbn [mapM].
  - by exists [], w.
  - rewrite bind_run. cbn [alloc fst snd]. rewrite bind_run.
    match goal with |- context [mapM alloc ts ?w1] =>
      destruct (IH w1) as (locs & w' & -> & Ht) end.
    eexists _, _. split; [reflexivity | done].
Qed.

Ltac any_events :=
  sat_steps; intros;
  first [ apply raises_anything | apply appends_same
        | by apply appends_log ].

Lemma jax_execute_starts tapes dev execute_fn gradient_fn kw n max_diff w :
  ∃ evs, trace (Jax.execute tapes dev execute_fn gradient_fn kw n max_diff w).2
         = trace w ++ Enter JaxExecute n max_diff tapes :: evs.
Proof.
  unfold Jax.execute. apply starts_log_bind. intros _. any_events.
Qed.

Lemma autograd_execute_starts tapes dev execute_fn gradient_fn kw n max_diff w :
  ∃ evs, trace (Autograd.execute tapes dev execute_fn gradient_fn kw n
                                 max_diff w).2
         = trace w ++ Enter AutogradExecute n max_diff tapes :: evs.
Proof.
  unfold Autograd.execute. apply starts_log_bind. intros _. any_events.
Qed.

Lemma call_execute_fn_starts site execute_fn ts kw w :
  ∃ evs, trace (call_execute_fn site execute_fn ts kw w).2
         = trace w ++ CallExecuteFn site ts kw :: evs.
Proof.
  unfold call_execute_fn. apply starts_log_bind. intros _. any_events.
Qed.

Lemma starts_events {A} (m : M A) w e :
  (∃ evs, trace (m w).2 = trace w ++ e :: evs) → ∃ evs, events m w = e :: evs.
Proof. intros (evs & Ht). exists evs. by apply events_spec. Qed.

Lemma jax_rule_reenters tapes dev execute_fn g kw n max_diff hp sv primals tangents w :
  is_gradient_transform g = true → n ≠ max_diff →
  ∃ ts evs,
    events (Jax._execute_bwd_execute_wrapper_jvp tapes dev execute_fn g kw n
              max_diff hp sv primals tangents) w
      = Enter JaxExecute (n + 1) max_diff ts :: evs.
Proof.
  intros Hg Hn. unfold Jax._execute_bwd_execute_wrapper_jvp. rewrite Hg.
  rewrite (bool_decide_eq_false_2 _ Hn).
  destruct (set_parameters_run false tapes primals w)
    as (nls & w1 & Hrun & _ & Ht1 & _).
  rewrite (events_bind_silent _ _ _ _ _ Hrun Ht1).
  rewrite (events_bind_silent _ _ _ _ _ (load_all_run nls w1) eq_refl).
  destruct (batch_jvp _ _ _ _ _) as [jvp_tapes processing_fn].
  destruct (alloc_all_run jvp_tapes w1) as (locs & w2 & Hal & Ht2).
  rewrite (events_bind_silent _ _ _ _ _ Hal Ht2).
  exists locs. apply starts_events.
  apply starts_bind_l; [|intros; any_events].
  apply starts_bind_l; [|intros; any_events].
  apply jax_execute_starts.
Qed.

Lemma jax_rule_terminates tapes dev execute_fn g kw n hp sv primals tangents w :
  is_gradient_transform g = true →
  ∃ ts evs,
    events (Jax._execute_bwd_execute_wrapper_jvp tapes dev execute_fn g kw n
              n hp sv primals tangents) w
      = CallExecuteFn GradientTapes ts None :: evs.
Proof.
  intros Hg. unfold Jax._execute_bwd_execute_wrapper_jvp. rewrite Hg.
  rewrite (bool_decide_eq_true_2 (n = n) eq_refl).
  destruct (set_parameters_run true tapes primals w)
    as (nls & w1 & Hrun & _ & Ht1 & _).
  rewrite (events_bind_silent _ _ _ _ _ Hrun Ht1).
  rewrite (events_bind_silent _ _ _ _ _ (load_all_run nls w1) eq_refl).
  destruct (batch_jvp _ _ _ _ _) as [jvp_tapes processing_fn].
  destruct (alloc_all_run jvp_tapes w1) as (locs & w2 & Hal & Ht2).
  rewrite (events_bind_silent _ _ _ _ _ Hal Ht2).
  exists jvp_tapes. apply starts_events.
  apply starts_bind_l; [|intros; any_events].
  apply starts_bind_l; [|intros; any_events].
  apply call_execute_fn_starts.
Qed.

Lemma cache_worthy_false g n max_diff :
  n ≠ max_diff ∨ rule_name g ≠ "param_shift" →
  Autograd.cache_worthy (Some g) n max_diff = false.
Proof.
  unfold Autograd.cache_worthy. intros [Hn|Hname].
  - by rewrite (bool_decide_eq_false_2 _ Hn), andb_false_r.
  - apply String.eqb_neq in Hname. by rewrite Hname.
Qed.

Lemma autograd_rule_reenters ans tapes dev execute_fn g kw n max_diff c dy w :
  is_gradient_transform g = true → n ≠ max_diff → ans.2 = [] →
  is_ret (Autograd.grad_shots dev (map (store w) tapes)) = true →
  ∃ ts evs,
    events (Autograd.vjp_grad_fn ans tapes dev execute_fn (Some g) kw n
              max_diff c dy) w
      = Enter AutogradExecute (n + 1) max_diff ts :: evs.
Proof.
  intros Hg Hn Hans Hsh. unfold Autograd.vjp_grad_fn.
  rewrite (events_bind_silent _ _ _ _ _ (load_all_run tapes w) eq_refl).
  destruct (Autograd.grad_shots dev (map (store w) tapes))
    as [[hps vjp_shots]|] eqn:Hgs; [|done].
  rewrite (events_bind_silent (lift _) _ w _ w eq_refl eq_refl).
  rewrite cache_worthy_false by auto.
  rewrite (events_bind_silent (mret _) _ w _ w eq_refl eq_refl).
  rewrite Hans. cbn [Autograd.truthy]. rewrite Hg.
  rewrite (bool_decide_eq_false_2 _ Hn).
  unfold events. rewrite bind_run, bind_run, load_all_run. cbn [fst snd].
  destruct (batch_vjp _ _ _ _ _) as [vjp_tapes processing_fn].
  rewrite bind_run.
  destruct (alloc_all_run vjp_tapes w) as (locs & w2 & -> & Ht2).
  cbn [fst snd]. rewrite bind_run. exists locs.
  destruct (autograd_execute_starts locs dev execute_fn (Some g) kw (n + 1)
              max_diff w2) as (evs & Hev).
  exists evs.
  destruct (Autograd.execute _ _ _ _ _ _ _ w2) as [[r|e] w3];
    cbv [mret M_ret]; cbn [fst snd] in *;
    rewrite Hev, Ht2; by rewrite drop_app_length.
Qed.

Lemma autograd_rule_terminates ans tapes dev execute_fn g kw n c dy w :
  is_gradient_transform g = true → rule_name g ≠ "param_shift" →
  ans.2 = [] →
  is_ret (Autograd.grad_shots dev (map (store w) tapes)) = true →
  ∃ ts evs,
    events (Autograd.vjp_grad_fn ans tapes dev execute_fn (Some g) kw n n
              c dy) w
      = CallExecuteFn GradientTapes ts None :: evs.
Proof.
  intros Hg Hname Hans Hsh. unfold Autograd.vjp_grad_fn.
  rewrite (events_bind_silent _ _ _ _ _ (load_all_run tapes w) eq_refl).
  destruct (Autograd.grad_shots dev (map (store w) tapes))
    as [[hps vjp_shots]|] eqn:Hgs; [|done].
  rewrite (events_bind_silent (lift _) _ w _ w eq_refl eq_refl).
  rewrite cache_worthy_false by auto.
  rewrite (events_bind_silent (mret _) _ w _ w eq_refl eq_refl).
  rewrite Hans. cbn [Autograd.truthy]. rewrite Hg.
  rewrite (bool_decide_eq_true_2 (n = n) eq_refl).
  unfold events. rewrite bind_run, bind_run.
  destruct (unwrap_tapes_run tapes w) as (nls & w1 & -> & _ & Ht1 & _).
  cbn [fst snd]. rewrite bind_run, load_all_run. cbn [fst snd].
  destruct (batch_vjp _ _ _ _ _) as [vjp_tapes processing_fn].
  rewrite bind_run.
  destruct (alloc_all_run vjp_tapes w1) as (locs & w2 & -> & Ht2).
  cbn [fst snd]. rewrite bind_run. exists vjp_tapes.
  destruct (call_execute_fn_starts GradientTapes execute_fn vjp_tapes None w2)
    as (evs & Hev).
  exists evs.
  destruct (call_execute_fn _ _ _ _ w2) as [[r|e] w3];
    cbv [mret M_ret]; cbn [fst snd] in *;
    rewrite Hev, Ht2, Ht1; by rewrite drop_app_length.
Qed.

Lemma recurses_step n max_diff n' max_diff' :
  recurses (n, max_diff) (n', max_diff') →
  n ≠ max_diff ∧ n' = n + 1 ∧ max_diff' = max_diff.
Proof.
  inversion 1 as [ans tapes dev execute_fn g kw ? ? c dy w ? ? ? ? Hg Hin
                 |ans tapes dev execute_fn g kw ? ? c dy w ? ? ? ? Hg Hin
                 |tapes dev execute_fn g kw ? ? hp sv primals tangents w
                    ? ? ? ? Hg Hin]; subst.
  - apply list_elem_of_In in Hin.
    pose proof (sat_events _ _ w
      (autograd_rule_steps ans tapes dev execute_fn g kw n max_diff c dy Hg))
      as HF.
    rewrite Forall_forall in HF. exact (HF _ Hin).
  - apply list_elem_of_In in Hin.
    pose proof (sat_events _ _ w
      (autograd_legacy_rule_steps ans tapes dev execute_fn g kw n max_diff
         c dy Hg)) as HF.
    rewrite Forall_forall in HF. exact (HF _ Hin).
  - apply list_elem_of_In in Hin.
    pose proof (sat_events _ _ w
      (jax_rule_steps tapes dev execute_fn g kw n max_diff hp sv primals
         tangents Hg)) as HF.
    rewrite Forall_forall in HF. exact (HF _ Hin).
Qed.

Lemma recursion_bounded n0 max_diff n max_diff' :
  1 ≤ n0 ≤ max_diff →
  rtc recurses (n0, max_diff) (n, max_diff') →
  max_diff' = max_diff ∧ n0 ≤ n ≤ max_diff.
Proof.
  intros Hn0 Hrtc.
  assert (Hall : ∀ s, rtc recurses (n0, max_diff) s →
                      s.2 = max_diff ∧ n0 ≤ s.1 ≤ max_diff).
  { apply (rtc_ind_r (λ s, s.2 = max_diff ∧ n0 ≤ s.1 ≤ max_diff)).
    - cbn. lia.
    - intros [n1 m1] [n2 m2] _ Hstep IH. cbn in *. destruct IH as [-> Hb].
      apply recurses_step in Hstep as (Hne & -> & ->). lia. }
  exact (Hall _ Hrtc).
Qed.

(** C1, as the code has it.  Take a backward rule (Autograd) or tangent
    rule (JAX) of depth [_n] and ceiling [max_diff] whose gradient rule is a
    transform.  Whatever it records obeys [recursion_step]: a call back into
    an entry point happens only when [_n] differs from [max_diff], and then
    with depth exactly [_n + 1] and the same ceiling; gradient tapes go to
    the plain backend call only when [_n] equals [max_diff]; the gradient
    rule is never called on a batch.  When [_n] differs from [max_diff] the
    rule does call back into [execute] (in Autograd: when the forward pass
    left no Jacobians), and when [_n] equals [max_diff] it does make the
    plain backend call on the gradient tapes.  So every step of
    differentiable recursion raises the depth by one, and from an entry
    with [1 ≤ _n ≤ max_diff] every depth reached stays within
    [_n .. max_diff]. *)
Theorem differentiable_recursion_depth :
  (∀ tapes dev execute_fn g kw n max_diff hp sv primals tangents w,
     is_gradient_transform g = true →
     Forall (recursion_step n max_diff)
       (events (Jax._execute_bwd_execute_wrapper_jvp tapes dev execute_fn g
                  kw n max_diff hp sv primals tangents) w)) ∧
  (∀ ans tapes dev execute_fn g kw n max_diff c dy w,
     is_gradient_transform g = true →
     Forall (recursion_step n max_diff)
       (events (Autograd.vjp_grad_fn ans tapes dev execute_fn (Some g) kw n
                  max_diff c dy) w)) ∧
  (∀ ans tapes dev execute_fn g kw n max_diff c dy w,
     is_gradient_transform g = true →
     Forall (recursion_step n max_diff)
       (events (Autograd._vjp_legacy_grad_fn ans tapes dev execute_fn (Some g)
                  kw n max_diff c dy) w)) ∧
  (∀ tapes dev execute_fn g kw n max_diff hp sv primals tangents w,
     is_gradient_transform g = true → n ≠ max_diff →
     ∃ ts evs,
       events (Jax._execute_bwd_execute_wrapper_jvp tapes dev execute_fn g
                 kw n max_diff hp sv primals tangents) w
         = Enter JaxExecute (n + 1) max_diff ts :: evs) ∧
  (∀ tapes dev execute_fn g kw n hp sv primals tangents w,
     is_gradient_transform g = true →
     ∃ ts evs,
       events (Jax._execute_bwd_execute_wrapper_jvp tapes dev execute_fn g
                 kw n n hp sv primals tangents) w
         = CallExecuteFn GradientTapes ts None :: evs) ∧
  (∀ ans tapes dev execute_fn g kw n max_diff c dy w,
     is_gradient_transform g = true → n ≠ max_diff → ans.2 = [] →
     is_ret (Autograd.grad_shots dev (map (store w) tapes)) = true →
     ∃ ts evs,
       events (Autograd.vjp_grad_fn ans tapes dev execute_fn (Some g) kw n
                 max_diff c dy) w
         = Enter AutogradExecute (n + 1) max_diff ts :: evs) ∧
  (∀ ans tapes dev execute_fn g kw n c dy w,
     is_gradient_transform g = true → rule_name g ≠ "param_shift" →
     ans.2 = [] →
     is_ret (Autograd.grad_shots dev (map (store w) tapes)) = true →
     ∃ ts evs,
       events (Autograd.vjp_grad_fn ans tapes dev execute_fn (Some g) kw n n
                 c dy) w
         = CallExecuteFn GradientTapes ts None :: evs) ∧
  (∀ n max_diff n' max_diff',
     recurses (n, max_diff) (n', max_diff') →
     n ≠ max_diff ∧ n' = n + 1 ∧ max_diff' = max_diff) ∧
  (∀ n0 max_diff n max_diff',
     1 ≤ n0 ≤ max_diff →
     rtc recurses (n0, max_diff) (n, max_diff') →
     max_diff' = max_diff ∧ n0 ≤ n ≤ max_diff).
Proof.
  split_and!.
  - intros. by apply sat_events, jax_rule_steps.
  - intros. by apply sat_events, autograd_rule_steps.
  - intros. by apply sat_events, autograd_legacy_rule_steps.
  - intros. by apply jax_rule_reenters.
  - intros. by apply jax_rule_terminates.
  - intros. by apply autograd_rule_reenters.
  - intros. by apply autograd_rule_terminates.
  - apply recurses_step.
  - apply recursion_bounded.
Qed.
End Nesting.

(** * The Jacobian cache *)

Section JacobianCache.
Context `{Library}.

Lemma backend_calls_app site evs1 evs2 :
  backend_calls site (evs1 ++ evs2)
    = (backend_calls site evs1 + backend_calls site evs2)%nat.
Proof. unfold backend_calls. by rewrite filter_app, length_app. Qed.

Lemma backend_calls_jac_free evs :
  Forall jac_free evs → backend_calls JacobianCache evs = 0%nat.
Proof.
  unfold backend_calls. induction 1 as [|e evs He _ IH]; [done|].
  unfold jac_free in He. cbn [List.filter]. by rewrite He.
Qed.

Lemma counted_ret {A} (Q : A → Prop) a : Q a → counted 0 Q (mret a).
Proof.
  intros HQ w. split; [|by intros a' [= <-]].
  exists []. by rewrite app_nil_r.
Qed.

Lemma counted_bind {A B} k1 k2 (Q1 : A → Prop) (Q : B → Prop)
    (m : M A) (f : A → M B) :
  counted k1 Q1 m → (∀ a, Q1 a → counted k2 Q (f a)) →
  counted (k1 + k2) Q (m ≫= f).
Proof.
  intros Hm Hf w. rewrite bind_run.
  destruct (Hm w) as [(evs1 & Ht1 & Hc1) HQ1].
  destruct (m w) as [[a|e] w1]; cbn [fst snd] in *.
  - destruct (Hf a (HQ1 a eq_refl) w1) as [(evs2 & Ht2 & Hc2) HQ].
    split; [|done]. exists (evs1 ++ evs2).
    rewrite Ht2, Ht1, app_assoc, backend_calls_app. split; [done | lia].
  - split; [|done]. exists evs1. split; [done | lia].
Qed.

Lemma counted_bind_l {A B} k (Q1 : A → Prop) (Q : B → Prop)
    (m : M A) (f : A → M B) :
  counted k Q1 m → (∀ a, Q1 a → counted 0 Q (f a)) → counted k Q (m ≫= f).
Proof.
  intros Hm Hf. pose proof (counted_bind k 0 Q1 Q m f Hm Hf) as Hb.
  by rewrite Nat.add_0_r in Hb.
Qed.

Lemma counted_bind_r {A B} k (Q1 : A → Prop) (Q : B → Prop)
    (m : M A) (f : A → M B) :
  counted 0 Q1 m → (∀ a, Q1 a → counted k Q (f a)) → counted k Q (m ≫= f).
Proof. apply (counted_bind 0 k). Qed.

Lemma counted_weaken {A} k k' (Q Q' : A → Prop) (m : M A) :
  (k ≤ k')%nat → (∀ a, Q a → Q' a) → counted k Q m → counted k' Q' m.
Proof.
  intros Hk HQ Hm w. destruct (Hm w) as [(evs & Ht & Hc) Hr].
  split; [exists evs; split; [done | lia] | auto].
Qed.

Lemma counted_of_sat {A} (m : M A) :
  sat (appends jac_free) anything m → counted 0 (λ _, True) m.
Proof.
  intros Hm w. destruct (Hm w) as [(evs & Ht & Hf) _].
  split; [|done]. exists evs. split; [done|].
  by rewrite backend_calls_jac_free.
Qed.

Lemma counted_jacobian_call execute_fn ts kw :
  counted 1 (λ _, True) (call_execute_fn JacobianCache execute_fn ts kw).
Proof.
  intros w. split; [|done]. unfold call_execute_fn. rewrite bind_run.
  cbn [log lift fst snd trace]. eexists [_]. split; [done|].
  unfold backend_calls. cbn. lia.
Qed.

Lemma counted_mapM {A B} (f : A → M B) l :
  (∀ x, counted 1 (λ _, True) (f x)) →
  counted (length l) (λ _, True) (mapM f l).
Proof.
  intros Hf. induction l as [|x l IH]; cbn [mapM length].
  - by apply counted_ret.
  - apply (counted_bind 1 (length l) (λ _, True)); [apply Hf | intros y _].
    apply (counted_bind_l _ (λ _, True)); [apply IH | intros ys _].
    by apply counted_ret.
Qed.

(** Computations that make no call from the Jacobian cache. *)
Ltac jac_free_steps :=
  sat_steps; intros;
  first [ apply raises_anything | apply appends_same
        | by apply appends_log ].

Ltac silent :=
  eapply counted_weaken; [reflexivity | intros ? _; exact I
                         | apply counted_of_sat; jac_free_steps].

Lemma cache_worthy_true g n :
  rule_name g = "param_shift" → Autograd.cache_worthy (Some g) n n = true.
Proof.
  intros Hname. unfold Autograd.cache_worthy.
  by rewrite Hname, bool_decide_eq_true_2.
Qed.

Lemma get_jac_counted tapes dev execute_fn g kw (c : Autograd.cache) :
  counted (misses c 1) (λ jc, cache_kept c jc.2)
    (Autograd.vjp_get_jac_with_caching tapes dev execute_fn g kw c).
Proof.
  unfold Autograd.vjp_get_jac_with_caching. destruct c as [jacs|].
  - apply counted_ret. split; [by eexists | done].
  - apply (counted_bind_r _ (λ _, True)); [silent | intros sv _].
    apply (counted_bind_r _ (λ _, True)); [silent | intros ts _].
    apply (counted_bind_r _ (λ _, True)); [silent | intros gt _].
    apply (counted_bind_r _ (λ _, True)); [silent | intros g_tapes _].
    apply (counted_bind_r _ (λ _, True)); [silent | intros ut _].
    apply (counted_bind_r _ (λ _, True)); [silent | intros uts _].
    apply (counted_bind_l _ (λ _, True));
      [apply counted_jacobian_call | intros r _].
    apply counted_ret. split; [by eexists | done].
Qed.

Lemma legacy_get_jac_counted tapes execute_fn g kw (c : Autograd.cache) :
  counted (misses c (length tapes)) (λ jc, cache_kept c jc.2)
    (Autograd._vjp_legacy_get_jac_with_caching tapes execute_fn g kw c).
Proof.
  unfold Autograd._vjp_legacy_get_jac_with_caching. destruct c as [jacs|].
  - apply counted_ret. split; [by eexists | done].
  - apply (counted_bind_l _ (λ _, True)).
    + apply counted_mapM. intros l.
      apply (counted_bind_r _ (λ _, True)); [silent | intros t _].
      apply (counted_bind_r _ (λ _, True)); [silent | intros gt _].
      apply (counted_bind_r _ (λ _, True)); [silent | intros g_tapes _].
      apply (counted_bind_r _ (λ _, True)); [silent | intros ut _].
      apply (counted_bind_r _ (λ _, True)); [silent | intros uts _].
      apply (counted_bind_l _ (λ _, True));
        [apply counted_jacobian_call | intros r _].
      by apply counted_ret.
    + intros jacs _. apply counted_ret. split; [by eexists | done].
Qed.

Lemma grad_fn_counted ans tapes dev execute_fn g kw n
    (c : Autograd.cache) dy :
  rule_name g = "param_shift" →
  counted (misses c 1) (λ r, cache_kept c r.2)
    (Autograd.vjp_grad_fn ans tapes dev execute_fn (Some g) kw n n c dy).
Proof.
  intros Hname. unfold Autograd.vjp_grad_fn.
  rewrite (cache_worthy_true _ _ Hname).
  apply (counted_bind_r _ (λ _, True)); [silent | intros ts _].
  apply (counted_bind_r _ (λ _, True)); [silent | intros [hps vjp_shots] _].
  eapply counted_bind_l; [apply get_jac_counted | intros [jacs c'] Hc'].
  cbn [snd] in Hc'.
  apply (counted_bind_l _ (λ _, True)); [silent | intros vjps _].
  by apply counted_ret.
Qed.

Lemma legacy_grad_fn_counted ans tapes dev execute_fn g kw n
    (c : Autograd.cache) dy :
  rule_name g = "param_shift" →
  counted (misses c (length tapes)) (λ r, cache_kept c r.2)
    (Autograd._vjp_legacy_grad_fn ans tapes dev execute_fn (Some g) kw n n
       c dy).
Proof.
  intros Hname. unfold Autograd._vjp_legacy_grad_fn.
  rewrite (cache_worthy_true _ _ Hname). cbn zeta.
  eapply counted_bind_l; [apply legacy_get_jac_counted | intros [jacs c'] Hc'].
  cbn [snd] in Hc'.
  apply (counted_bind_l _ (λ _, True)); [silent | intros vjps _].
  by apply counted_ret.
Qed.

Lemma invoke_all_counted {D V}
    (grad_fn : Autograd.cache → D → M (V * Autograd.cache)) k :
  (∀ (c : Autograd.cache) dy,
     counted (misses c k) (λ r, cache_kept c r.2) (grad_fn c dy)) →
  ∀ dys (c : Autograd.cache),
    counted (misses c k) (λ _, True) (invoke_all grad_fn c dys).
Proof.
  intros Hg dys. induction dys as [|dy dys IH]; intros c; cbn [invoke_all].
  - apply (counted_weaken 0 _ (λ _, True) (λ _, True));
      [lia | done | by apply counted_ret].
  - eapply counted_bind_l; [apply Hg | intros [v c'] [[jacs Hsome] _]].
    cbn [snd] in *. subst c'.
    apply (counted_bind_l _ (λ _, True)); [apply (IH (Some jacs)) | intros rs _].
    by apply counted_ret.
Qed.

Lemma counted_events {A} k (Q : A → Prop) (m : M A) w :
  counted k Q m → (backend_calls JacobianCache (events m w) ≤ k)%nat.
Proof.
  intros Hm. destruct (Hm w) as [(evs & Ht & Hc) _].
  by rewrite (events_spec _ _ _ Ht).
Qed.

Lemma grad_fn_cache_hit ans tapes dev execute_fn g kw n jacs dy w :
  rule_name g = "param_shift" → jacs ≠ [] →
  Autograd.vjp_grad_fn ans tapes dev execute_fn (Some g) kw n n
                       (Some jacs) dy w
  = (sh ← Autograd.grad_shots dev (map (store w) tapes);
     vjps ← Autograd._compute_vjps_autograd jacs dy.1
              (map multi_measurement (map (store w) tapes)) sh.1;
     Ret (Autograd.return_vjps n vjps, Some jacs),
     w).
Proof.
  intros Hname Hne. unfold Autograd.vjp_grad_fn.
  rewrite (cache_worthy_true _ _ Hname), bind_run, load_all_run.
  cbn [fst snd]. rewrite bind_run. unfold lift at 1.
  destruct (Autograd.grad_shots dev (map (store w) tapes))
    as [[hps vjp_shots]|e]; [|done].
  cbn [fst snd mbind outcome_bind]. rewrite bind_run.
  cbn [Autograd.vjp_get_jac_with_caching mret M_ret fst snd].
  destruct jacs as [|j jacs]; [done|]. cbn [Autograd.truthy].
  rewrite bind_run. unfold lift.
  by destruct (Autograd._compute_vjps_autograd _ _ _ _).
Qed.

Lemma legacy_grad_fn_cache_hit ans tapes dev execute_fn g kw n jacs dy w :
  rule_name g = "param_shift" → jacs ≠ [] →
  Autograd._vjp_legacy_grad_fn ans tapes dev execute_fn (Some g) kw n n
                               (Some jacs) dy w
  = (Ret (Autograd.return_vjps n
            (map (λ dj, compute_vjp dj.1 dj.2) (zip (map math_T dy.1) jacs)),
          Some jacs),
     w).
Proof.
  intros Hname Hne. unfold Autograd._vjp_legacy_grad_fn.
  rewrite (cache_worthy_true _ _ Hname). cbn zeta. rewrite bind_run.
  cbn [Autograd._vjp_legacy_get_jac_with_caching mret M_ret fst snd].
  destruct jacs as [|j jacs]; [done|]. cbn [Autograd.truthy].
  by rewrite bind_run.
Qed.

(** C3, as the code has it.  Take a backward pass whose gradient rule is
    named [param_shift], at depth [_n = max_diff], and let the host engine
    call its [grad_fn] any number of times, on any cotangents, the cache
    being shared by the calls.  The Jacobian computation runs in the first
    call only: over all the calls the Jacobian cache calls the backend at
    most once in the current path, where the gradient tapes of the whole
    batch are executed together, and at most once per tape in the legacy
    path, where they are executed tape by tape; and never again once the
    cache is filled.  A call that returns leaves the cache filled, and as
    it was if it was filled already.  With a stored (non-empty) list of
    Jacobians a call calls nothing and changes nothing: it returns the
    contraction of the cotangents with the stored Jacobians. *)
Theorem jacobian_computed_by_first_call
    ans tapes dev execute_fn g kw n :
  rule_name g = "param_shift" →
  let grad_fn :=
    Autograd.vjp_grad_fn ans tapes dev execute_fn (Some g) kw n n in
  let legacy_grad_fn :=
    Autograd._vjp_legacy_grad_fn ans tapes dev execute_fn (Some g) kw n n in
  (∀ dys c w,
     (backend_calls JacobianCache (events (invoke_all grad_fn c dys) w)
      ≤ misses c 1)%nat) ∧
  (∀ dys c w,
     (backend_calls JacobianCache (events (invoke_all legacy_grad_fn c dys) w)
      ≤ misses c (length tapes))%nat) ∧
  (∀ c dy w v c',
     (grad_fn c dy w).1 = Ret (v, c') ∨ (legacy_grad_fn c dy w).1 = Ret (v, c') →
     cache_kept c c') ∧
  (∀ jacs dy w, jacs ≠ [] →
     grad_fn (Some jacs) dy w
     = (sh ← Autograd.grad_shots dev (map (store w) tapes);
        vjps ← Autograd._compute_vjps_autograd jacs dy.1
                 (map multi_measurement (map (store w) tapes)) sh.1;
        Ret (Autograd.return_vjps n vjps, Some jacs),
        w)) ∧
  (∀ jacs dy w, jacs ≠ [] →
     legacy_grad_fn (Some jacs) dy w
     = (Ret (Autograd.return_vjps n
               (map (λ dj, compute_vjp dj.1 dj.2)
                    (zip (map math_T dy.1) jacs)),
             Some jacs),
        w)).
Proof.
  intros Hname grad_fn legacy_grad_fn. split_and!.
  - intros dys c w. eapply counted_events, invoke_all_counted.
    intros c0 dy. by apply grad_fn_counted.
  - intros dys c w. eapply counted_events, invoke_all_counted.
    intros c0 dy. by apply legacy_grad_fn_counted.
  - intros c dy w v c' [Hr|Hr].
    + destruct (grad_fn_counted ans tapes dev execute_fn g kw n c dy Hname w)
        as [_ HQ]. exact (HQ _ Hr).
    + destruct (legacy_grad_fn_counted ans tapes dev execute_fn g kw n c dy
                  Hname w) as [_ HQ]. exact (HQ _ Hr).
  - intros. by apply grad_fn_cache_hit.
  - intros. by apply legacy_grad_fn_cache_hit.
Qed.
End JacobianCache.

(** * Gradient rules that are not transforms *)

Ltac raises_step :=
  lazymatch goal with
  | |- raises _ (Ret _) => apply raises_ret
  | |- raises _ (mret _) => apply raises_ret
  | |- raises _ (Raise _) => apply raises_raise; exact I
  | |- raises _ (_ ≫= _) => apply raises_bind; [|intros ?]
  | |- raises _ (mapO _ _) => apply raises_mapO; intros ?
  | |- raises _ (getitem _ _) => apply raises_getitem; exact I
  | |- raises _ (iter_value _) => apply raises_iter_value
  | |- raises _ (if ?b then _ else _) => destruct b
  | |- raises _ (match ?x with _ => _ end) => destruct x
  | |- raises _ ?o => let h := head_of o in unfold h
  end.

Section Terminal.
Context `{Library}.

Lemma raises_sum_stack vs : raises own_error (sum_stack_axis0 vs).
Proof.
  unfold sum_stack_axis0. apply raises_bind.
  - apply raises_mapO. intros v. by destruct v; repeat raises_step.
  - intros arrs. destruct arrs as [|[k0 a0] rest]; [by apply raises_raise|].
    destruct (forallb _ rest); [apply raises_ret | by apply raises_raise].
Qed.

Lemma raises_compute_vjps jacs dy multi hps :
  raises own_error (Autograd._compute_vjps_autograd jacs dy multi hps).
Proof.
  unfold Autograd._compute_vjps_autograd. apply raises_mapO. intros im.
  unfold Autograd.tape_vjp.
  do 4 (raises_step; [repeat raises_step|]). apply raises_sum_stack.
Qed.

Lemma raises_compute_jvps jacs tangents multi :
  raises own_error (Jax._compute_jvps jacs tangents multi).
Proof. repeat raises_step. Qed.

Lemma raises_to_jax_shot_vector res :
  raises own_error (Jax._to_jax_shot_vector res).
Proof. repeat raises_step. Qed.

Lemma raises_grad_shots dev ts : raises own_error (Autograd.grad_shots dev ts).
Proof. repeat raises_step. Qed.

Lemma raises_passed_on {A} execute_fn g (o : outcome A) :
  raises own_error o → raises (passed_on execute_fn g) o.
Proof. intros Ho e He. left. by apply Ho. Qed.

Lemma no_enter_log w e :
  is_enter e = false →
  appends (λ e, is_enter e = false) w
    (World (store w) (next_loc w) (active_return w) (trace w ++ [e])).
Proof. intros He. by apply (appends_log (λ e, is_enter e = false)). Qed.

Ltac terminal_steps execute_fn g :=
  sat_steps; intros;
  first
    [ congruence
    | apply appends_same
    | apply no_enter_log; first [done | congruence]
    | apply raises_passed_on;
      first [ apply raises_compute_vjps | apply raises_compute_jvps
            | apply raises_to_jax_shot_vector | apply raises_grad_shots
            | by repeat raises_step ]
    | (left; exact I)
    | (intros ? ?; right; unfold from_collaborator; eauto 10) ].

Lemma jax_terminal_rule tapes dev execute_fn g kw n max_diff hp sv primals tangents :
  is_gradient_transform g = false →
  sat (appends (λ e, is_enter e = false)) (passed_on execute_fn g)
    (Jax._execute_bwd_execute_wrapper_jvp tapes dev execute_fn g kw n max_diff
       hp sv primals tangents).
Proof. intros Hg. terminal_steps execute_fn g. Qed.

Lemma autograd_terminal_rule ans tapes dev execute_fn g kw n max_diff c dy :
  is_gradient_transform g = false →
  sat (appends (λ e, is_enter e = false)) (passed_on execute_fn g)
    (Autograd.vjp_grad_fn ans tapes dev execute_fn (Some g) kw n max_diff c dy).
Proof. intros Hg. terminal_steps execute_fn g. Qed.

Lemma autograd_legacy_terminal_rule ans tapes dev execute_fn g kw n max_diff c dy :
  is_gradient_transform g = false →
  sat (appends (λ e, is_enter e = false)) (passed_on execute_fn g)
    (Autograd._vjp_legacy_grad_fn ans tapes dev execute_fn (Some g) kw n
       max_diff c dy).
Proof. intros Hg. terminal_steps execute_fn g. Qed.

Lemma jax_legacy_terminal_rule tapes execute_fn g kw params cot :
  is_gradient_transform g = false →
  sat (appends (λ e, is_enter e = false)) (passed_on execute_fn g)
    (Jax._execute_legacy_wrapped_exec_bwd tapes execute_fn g kw params cot).
Proof. intros Hg. terminal_steps execute_fn g. Qed.

Lemma sat_run {A} P E (m : M A) w :
  sat (appends P) E m →
  Forall P (events m w) ∧ ∀ e, (m w).1 = Raise e → E e.
Proof.
  intros Hm. destruct (Hm w) as [(evs & Ht & HP) He].
  by rewrite (events_spec _ _ _ Ht).
Qed.

Lemma call_gradient_fn_run g ts kw w :
  call_gradient_fn g ts kw w
  = (on_batch g ts kw,
     World (store w) (next_loc w) (active_return w)
           (trace w ++ [CallGradientFn ts kw])).
Proof. reflexivity. Qed.

(** The run of [execute_wrapper] of [_execute_bwd]. *)
Lemma jax_bwd_wrapper_run tapes execute_fn kw (hp : bool) params w :
  allocated w tapes →
  let ts := zip_with (substituted true) (map (store w) tapes) params in
  ∃ w', keeps_objects w w' ∧
    trace w' = trace w ++ [CallExecuteFn ForwardPass ts (Some kw)] ∧
    Jax._execute_bwd_execute_wrapper tapes execute_fn kw hp params w
    = (r ← execute_fn ts (Some kw);
       if hp then Jax._to_jax_shot_vector r.1 else Ret (Jax._to_jax r.1),
       w').
Proof.
  intros Hall ts. unfold Jax._execute_bwd_execute_wrapper.
  destruct (jax_forward_call tapes params execute_fn kw
              (λ r : list value * list value,
                 if hp then lift (Jax._to_jax_shot_vector r.1)
                 else mret (Jax._to_jax r.1)) w Hall)
    as (w' & Hk & Htr & ->).
  exists w'. split_and!; [done..|]. fold ts.
  destruct (execute_fn ts (Some kw)) as [r|e]; cbn [mbind outcome_bind];
    [by destruct hp | done].
Qed.

Lemma events_same {A} (m : M A) w o :
  m w = (o, w) → (m w).1 = o ∧ events m w = [].
Proof.
  intros Hm. unfold events. rewrite Hm. cbn [fst snd].
  split; [done|]. by rewrite drop_all.
Qed.

Lemma events_one {A} (m : M A) w o w' ev :
  m w = (o, w') → trace w' = trace w ++ [ev] →
  (m w).1 = o ∧ events m w = [ev].
Proof.
  intros Hm Htr. unfold events. rewrite Hm. cbn [fst snd].
  split; [done|]. rewrite Htr. by rewrite drop_app_length.
Qed.

(** The run of a backward rule of the Autograd interface for a gradient
    rule that is not a transform: the Jacobians are those of the forward
    pass, or else those that the gradient rule returns for converted copies
    of the tapes. *)
Lemma autograd_terminal_rule_run
    ans tapes dev execute_fn g kw n max_diff (c : Autograd.cache) dy w :
  is_gradient_transform g = false → rule_name g ≠ "param_shift" →
  allocated w tapes →
  let ts := map (store w) tapes in
  let unwrapped := map (λ l, convert_to_numpy_parameters (store w l)) tapes in
  let jacobians : outcome (list value) :=
    if Autograd.truthy ans.2 then Ret ans.2 else on_batch g unwrapped kw in
  (Autograd.vjp_grad_fn ans tapes dev execute_fn (Some g) kw n max_diff c dy
     w).1
    = (sh ← Autograd.grad_shots dev ts;
       jacs ← jacobians;
       vjps ← Autograd._compute_vjps_autograd jacs dy.1
                (map multi_measurement ts) sh.1;
       Ret (Autograd.return_vjps n vjps, c)) ∧
  events (Autograd.vjp_grad_fn ans tapes dev execute_fn (Some g) kw n max_diff
            c dy) w
    = if is_ret (Autograd.grad_shots dev ts) && negb (Autograd.truthy ans.2)
      then [CallGradientFn unwrapped kw] else [].
Proof.
  intros Hg Hname Hall ts unwrapped jacobians.
  assert (Hcw : Autograd.cache_worthy (Some g) n max_diff = false)
    by (apply cache_worthy_false; auto).
  match goal with |- (?m w).1 = ?o ∧ events _ w = ?evs =>
    assert (Hrun : (evs = [] ∧ m w = (o, w)) ∨
                   (evs = [CallGradientFn unwrapped kw] ∧
                    ∃ w', m w = (o, w') ∧
                      trace w' = trace w ++ [CallGradientFn unwrapped kw]))
  end.
  { unfold Autograd.vjp_grad_fn. rewrite Hcw, bind_run, load_all_run.
    cbn [fst snd]. rewrite bind_run.
    change (lift (Autograd.grad_shots dev (map (store w) tapes)) w)
      with (Autograd.grad_shots dev ts, w).
    fold ts.
    destruct (Autograd.grad_shots dev ts) as [[hps vjp_shots]|e];
      cbn [fst snd mbind outcome_bind is_ret andb]; [|by left].
    rewrite bind_run. cbn [mret M_ret fst snd]. subst jacobians.
    destruct (ans.2) as [|j0 jacs0]; cbn [Autograd.truthy negb].
    2:{ left. split; [done|]. rewrite bind_run. unfold lift.
        cbn [mbind outcome_bind].
        by destruct (Autograd._compute_vjps_autograd (j0 :: jacs0) dy.1
                       (map multi_measurement ts) hps). }
    right. split; [done|]. rewrite Hg, bind_run, bind_run.
    destruct (unwrap_tapes_run tapes w) as (nls & w1 & -> & Hk & Htr & Hv).
    cbn [fst snd]. rewrite bind_run, load_all_run. cbn [fst snd].
    rewrite (Hv Hall). fold unwrapped.
    rewrite bind_run, call_gradient_fn_run. cbn [fst snd].
    eexists (World (store w1) (next_loc w1) (active_return w1)
                   (trace w1 ++ [CallGradientFn unwrapped kw])).
    split; [|cbn [trace]; by rewrite Htr].
    destruct (on_batch g unwrapped kw) as [jacs|e];
      cbn [fst snd mbind outcome_bind]; [|done].
    unfold lift.
    by destruct (Autograd._compute_vjps_autograd jacs dy.1
                   (map multi_measurement ts) hps). }
  destruct Hrun as [[-> Hrun]|[-> (w' & Hrun & Htr)]].
  - by apply events_same.
  - by eapply events_one.
Qed.

(** The same for the backward rule of the legacy path. *)
Lemma autograd_legacy_terminal_rule_run
    ans tapes dev execute_fn g kw n max_diff (c : Autograd.cache) dy w :
  is_gradient_transform g = false → rule_name g ≠ "param_shift" →
  allocated w tapes →
  let unwrapped := map (λ l, convert_to_numpy_parameters (store w l)) tapes in
  let jacobians : outcome (list value) :=
    if Autograd.truthy ans.2 then Ret ans.2 else on_batch g unwrapped kw in
  (Autograd._vjp_legacy_grad_fn ans tapes dev execute_fn (Some g) kw n
     max_diff c dy w).1
    = (jacs ← jacobians;
       Ret (Autograd.return_vjps n
              (map (λ dj, compute_vjp dj.1 dj.2)
                   (zip (map math_T dy.1) jacs)), c)) ∧
  events (Autograd._vjp_legacy_grad_fn ans tapes dev execute_fn (Some g) kw n
            max_diff c dy) w
    = if Autograd.truthy ans.2 then [] else [CallGradientFn unwrapped kw].
Proof.
  intros Hg Hname Hall unwrapped jacobians.
  assert (Hcw : Autograd.cache_worthy (Some g) n max_diff = false)
    by (apply cache_worthy_false; auto).
  subst jacobians. unfold Autograd._vjp_legacy_grad_fn. cbn zeta.
  rewrite Hcw.
  destruct (ans.2) as [|j0 jacs0] eqn:Hans; cbn [Autograd.truthy].
  2:{ apply events_same. rewrite bind_run. cbn [mret M_ret fst snd].
      by rewrite bind_run. }
  cbn [mbind outcome_bind].
  match goal with |- (?m w).1 = ?o ∧ _ =>
    assert (Hrun : ∃ w', m w = (o, w') ∧
              trace w' = trace w ++ [CallGradientFn unwrapped kw])
  end.
  { rewrite bind_run. cbn [mret M_ret fst snd Autograd.truthy].
    rewrite Hg, bind_run, bind_run.
    destruct (unwrap_tapes_run tapes w) as (nls & w1 & -> & Hk & Htr & Hv).
    cbn [fst snd]. rewrite bind_run, load_all_run. cbn [fst snd].
    rewrite (Hv Hall). fold unwrapped.
    rewrite bind_run, call_gradient_fn_run. cbn [fst snd].
    eexists (World (store w1) (next_loc w1) (active_return w1)
                   (trace w1 ++ [CallGradientFn unwrapped kw])).
    split; [|cbn [trace]; by rewrite Htr].
    by destruct (on_batch g unwrapped kw) as [jacs|e]. }
  destruct Hrun as (w' & Hrun & Htr). by eapply events_one.
Qed.

(** The run of the tangent rule of the JAX interface for a gradient rule
    that is not a transform. *)
Lemma jax_terminal_rule_run
    tapes dev execute_fn g kw n max_diff (hp : bool) sv primals tangents w :
  is_gradient_transform g = false → allocated w tapes →
  let ts := zip_with (substituted true) (map (store w) tapes) primals in
  let forward : outcome (list value) :=
    r ← execute_fn ts (Some kw);
    if hp then Jax._to_jax_shot_vector r.1 else Ret (Jax._to_jax r.1) in
  (Jax._execute_bwd_execute_wrapper_jvp tapes dev execute_fn g kw n max_diff
     hp sv primals tangents w).1
    = (res ← forward;
       jacs ← on_batch g ts kw;
       jvps ← Jax._compute_jvps jacs (map VList tangents)
                (map multi_measurement ts);
       Ret (res, jvps)) ∧
  events (Jax._execute_bwd_execute_wrapper_jvp tapes dev execute_fn g kw n
            max_diff hp sv primals tangents) w
    = CallExecuteFn ForwardPass ts (Some kw) ::
      (if is_ret forward then [CallGradientFn ts kw] else []).
Proof.
  intros Hg Hall ts forward. unfold events, Jax._execute_bwd_execute_wrapper_jvp.
  rewrite Hg, bind_run.
  destruct (jax_bwd_wrapper_run tapes execute_fn kw hp primals w Hall)
    as (w1 & Hk1 & Htr1 & ->).
  fold ts. fold forward. cbn [fst snd].
  destruct forward as [res|e]; cbn [mbind outcome_bind is_ret fst snd].
  2:{ split; [done|]. rewrite Htr1. by rewrite drop_app_length. }
  destruct (allocated_keeps _ _ _ Hk1 Hall) as [Hall1 Hst1].
  rewrite bind_run.
  destruct (set_parameters_values true tapes primals w1 Hall1)
    as (nls & w2 & -> & Hk2 & Htr2 & Hv).
  cbn [fst snd]. rewrite bind_run, load_all_run. cbn [fst snd].
  rewrite Hv, Hst1. fold ts. rewrite bind_run, call_gradient_fn_run.
  cbn [fst snd].
  assert (Hev : ∀ tr, tr = trace w2 ++ [CallGradientFn ts kw] →
            drop (length (trace w)) tr
            = [CallExecuteFn ForwardPass ts (Some kw); CallGradientFn ts kw]).
  { intros tr ->. rewrite Htr2, Htr1, <- app_assoc.
    by rewrite drop_app_length. }
  destruct (on_batch g ts kw) as [jacs|e]; cbn [fst snd mbind outcome_bind];
    [|split; [done | by apply Hev]].
  rewrite bind_run. unfold lift.
  destruct (Jax._compute_jvps jacs (map VList tangents)
              (map multi_measurement ts));
    cbn [fst snd mbind outcome_bind mret M_ret];
    (split; [done | by apply Hev]).
Qed.

(** The run of the backward rule of the legacy JAX path for a gradient
    rule that is not a transform. *)
Lemma jax_legacy_terminal_rule_run tapes execute_fn g kw params cot w :
  is_gradient_transform g = false → allocated w tapes →
  let unwrapped := map (λ l, convert_to_numpy_parameters (store w l)) tapes in
  (Jax._execute_legacy_wrapped_exec_bwd tapes execute_fn g kw params cot w).1
    = (jacs ← on_batch g unwrapped kw;
       res ← mapO (λ v, ps ← iter_value v; Ret (VList (map jnp_array ps)))
                  (map (λ dj, compute_vjp dj.1 dj.2) (zip cot jacs));
       Ret (VTuple [VTuple res])) ∧
  events (Jax._execute_legacy_wrapped_exec_bwd tapes execute_fn g kw params
            cot) w
    = [CallGradientFn unwrapped kw].
Proof.
  intros Hg Hall unwrapped.
  match goal with |- (?m w).1 = ?o ∧ _ =>
    assert (Hrun : ∃ w', m w = (o, w') ∧
              trace w' = trace w ++ [CallGradientFn unwrapped kw])
  end.
  { unfold Jax._execute_legacy_wrapped_exec_bwd. rewrite Hg, bind_run.
    destruct (unwrap_tapes_run tapes w) as (nls & w1 & -> & Hk & Htr & Hv).
    cbn [fst snd]. rewrite bind_run, load_all_run. cbn [fst snd].
    rewrite (Hv Hall). fold unwrapped.
    rewrite bind_run, call_gradient_fn_run. cbn [fst snd].
    eexists (World (store w1) (next_loc w1) (active_return w1)
                   (trace w1 ++ [CallGradientFn unwrapped kw])).
    split; [|cbn [trace]; by rewrite Htr].
    destruct (on_batch g unwrapped kw) as [jacs|e];
      cbn [fst snd mbind outcome_bind]; [|done].
    rewrite bind_run. unfold lift.
    by destruct (mapO _ (map (λ dj : value * value, compute_vjp dj.1 dj.2)
                           (zip cot jacs))). }
  destruct Hrun as (w' & Hrun & Htr). by eapply events_one.
Qed.

(** C4, as the code has it.  When the gradient rule is not a transform,
    the backward and tangent rules never call back into an entry point,
    whatever the depth and [max_diff], and they make no check of the order
    of differentiation: what they raise is an error of an operation on
    values ([IndexError], [TypeError], [ValueError], [AttributeError],
    [UnboundLocalError]) or an exception passed on from the backend, the
    gradient rule or the batch transform, never an error of their own about
    higher-order derivatives.  The rules of the JAX interface, and those of
    the Autograd interface for a rule not named param_shift (the name that
    switches on the Jacobian cache), do the same at every depth and
    ceiling.  The rules of the Autograd interface take the Jacobians of the
    forward pass or, when there are none, call the gradient rule once, with
    the keyword arguments, on converted copies of the tapes, and contract
    the Jacobians with the cotangents; the depth is used only as the
    [max_depth] of the final conversion.  The tangent rule of the JAX
    interface runs the forward pass, calls the gradient rule on the same
    batch and contracts its Jacobians with the tangents; the backward rule
    of the legacy JAX path calls the gradient rule on converted copies of
    the tapes and contracts its Jacobians with the cotangents. *)
Theorem terminal_rule_makes_no_order_check execute_fn g kw :
  is_gradient_transform g = false →
  (∀ tapes dev n max_diff hp sv primals tangents w,
     Forall (λ e, is_enter e = false)
       (events (Jax._execute_bwd_execute_wrapper_jvp tapes dev execute_fn g
                  kw n max_diff hp sv primals tangents) w) ∧
     ∀ e, (Jax._execute_bwd_execute_wrapper_jvp tapes dev execute_fn g kw n
             max_diff hp sv primals tangents w).1 = Raise e →
          passed_on execute_fn g e) ∧
  (∀ ans tapes dev n max_diff c dy w,
     Forall (λ e, is_enter e = false)
       (events (Autograd.vjp_grad_fn ans tapes dev execute_fn (Some g) kw n
                  max_diff c dy) w) ∧
     ∀ e, (Autograd.vjp_grad_fn ans tapes dev execute_fn (Some g) kw n
             max_diff c dy w).1 = Raise e →
          passed_on execute_fn g e) ∧
  (∀ ans tapes dev n max_diff c dy w,
     Forall (λ e, is_enter e = false)
       (events (Autograd._vjp_legacy_grad_fn ans tapes dev execute_fn (Some g)
                  kw n max_diff c dy) w) ∧
     ∀ e, (Autograd._vjp_legacy_grad_fn ans tapes dev execute_fn (Some g) kw
             n max_diff c dy w).1 = Raise e →
          passed_on execute_fn g e) ∧
  (∀ tapes params cot w,
     Forall (λ e, is_enter e = false)
       (events (Jax._execute_legacy_wrapped_exec_bwd tapes execute_fn g kw
                  params cot) w) ∧
     ∀ e, (Jax._execute_legacy_wrapped_exec_bwd tapes execute_fn g kw params
             cot w).1 = Raise e →
          passed_on execute_fn g e) ∧
  (∀ tapes dev n max_diff n' max_diff' hp sv primals tangents w,
     Jax._execute_bwd_execute_wrapper_jvp tapes dev execute_fn g kw n max_diff
       hp sv primals tangents w
     = Jax._execute_bwd_execute_wrapper_jvp tapes dev execute_fn g kw n'
         max_diff' hp sv primals tangents w) ∧
  (∀ ans tapes dev n max_diff (c : Autograd.cache) dy w,
     rule_name g ≠ "param_shift" → allocated w tapes →
     let ts := map (store w) tapes in
     let unwrapped :=
       map (λ l, convert_to_numpy_parameters (store w l)) tapes in
     let jacobians : outcome (list value) :=
       if Autograd.truthy ans.2 then Ret ans.2 else on_batch g unwrapped kw in
     (Autograd.vjp_grad_fn ans tapes dev execute_fn (Some g) kw n max_diff c
        dy w).1
       = (sh ← Autograd.grad_shots dev ts;
          jacs ← jacobians;
          vjps ← Autograd._compute_vjps_autograd jacs dy.1
                   (map multi_measurement ts) sh.1;
          Ret (Autograd.return_vjps n vjps, c)) ∧
     events (Autograd.vjp_grad_fn ans tapes dev execute_fn (Some g) kw n
               max_diff c dy) w
       = if is_ret (Autograd.grad_shots dev ts)
            && negb (Autograd.truthy ans.2)
         then [CallGradientFn unwrapped kw] else []) ∧
  (∀ ans tapes dev n max_diff (c : Autograd.cache) dy w,
     rule_name g ≠ "param_shift" → allocated w tapes →
     let unwrapped :=
       map (λ l, convert_to_numpy_parameters (store w l)) tapes in
     let jacobians : outcome (list value) :=
       if Autograd.truthy ans.2 then Ret ans.2 else on_batch g unwrapped kw in
     (Autograd._vjp_legacy_grad_fn ans tapes dev execute_fn (Some g) kw n
        max_diff c dy w).1
       = (jacs ← jacobians;
          Ret (Autograd.return_vjps n
                 (map (λ dj, compute_vjp dj.1 dj.2)
                      (zip (map math_T dy.1) jacs)), c)) ∧
     events (Autograd._vjp_legacy_grad_fn ans tapes dev execute_fn (Some g) kw
               n max_diff c dy) w
       = if Autograd.truthy ans.2 then [] else [CallGradientFn unwrapped kw]) ∧
  (∀ tapes dev n max_diff (hp : bool) sv primals tangents w,
     allocated w tapes →
     let ts := zip_with (substituted true) (map (store w) tapes) primals in
     let forward : outcome (list value) :=
       r ← execute_fn ts (Some kw);
       if hp then Jax._to_jax_shot_vector r.1 else Ret (Jax._to_jax r.1) in
     (Jax._execute_bwd_execute_wrapper_jvp tapes dev execute_fn g kw n
        max_diff hp sv primals tangents w).1
       = (res ← forward;
          jacs ← on_batch g ts kw;
          jvps ← Jax._compute_jvps jacs (map VList tangents)
                   (map multi_measurement ts);
          Ret (res, jvps)) ∧
     events (Jax._execute_bwd_execute_wrapper_jvp tapes dev execute_fn g kw n
               max_diff hp sv primals tangents) w
       = CallExecuteFn ForwardPass ts (Some kw) ::
         (if is_ret forward then [CallGradientFn ts kw] else [])) ∧
  (∀ tapes params cot w,
     allocated w tapes →
     let unwrapped :=
       map (λ l, convert_to_numpy_parameters (store w l)) tapes in
     (Jax._execute_legacy_wrapped_exec_bwd tapes execute_fn g kw params cot
        w).1
       = (jacs ← on_batch g unwrapped kw;
          res ← mapO (λ v, ps ← iter_value v; Ret (VList (map jnp_array ps)))
                     (map (λ dj, compute_vjp dj.1 dj.2) (zip cot jacs));
          Ret (VTuple [VTuple res])) ∧
     events (Jax._execute_legacy_wrapped_exec_bwd tapes execute_fn g kw
               params cot) w
       = [CallGradientFn unwrapped kw]).
Proof.
  intros Hg. split_and!.
  - intros. by apply sat_run, jax_terminal_rule.
  - intros. by apply sat_run, autograd_terminal_rule.
  - intros. by apply sat_run, autograd_legacy_terminal_rule.
  - intros. by apply sat_run, jax_legacy_terminal_rule.
  - intros. unfold Jax._execute_bwd_execute_wrapper_jvp. by rewrite Hg.
  - intros ans tapes dev n max_diff c dy w Hname Hall.
    by apply autograd_terminal_rule_run.
  - intros ans tapes dev n max_diff c dy w Hname Hall.
    by apply autograd_legacy_terminal_rule_run.
  - intros tapes dev n max_diff hp sv primals tangents w Hall.
    by apply jax_terminal_rule_run.
  - intros tapes params cot w Hall.
    by apply jax_legacy_terminal_rule_run.
Qed.
End Terminal.

(** * The claims on concrete batches *)

Section Examples.
Import Concrete.

(** The adjustment is not per tape: with the probabilities tape first and
    an expectation value last, its matrix is left alone; with the tapes
    swapped, the matrix is transposed whichever tape it comes from. *)
Example multi_probs_not_per_tape :
  Jax.adjust_multi_probs [probs_tape; expval_tape]
    [matrix 2 2 [1; 2; 3; 4]; vector [5]]
    = Ret [matrix 2 2 [1; 2; 3; 4]; vector [5]] ∧
  Jax.adjust_multi_probs [expval_tape; probs_tape]
    [matrix 2 2 [1; 2; 3; 4]; vector [5]]
    = Ret [matrix 2 2 [1; 3; 2; 4]; vector [5]] ∧
  Jax.adjust_multi_probs [] [matrix 2 2 [1; 2; 3; 4]]
    = Raise UnboundLocalError.
Proof. by vm_compute. Qed.

(** The example of the source: the Jacobian of one scalar tape, an array
    with one row, becomes the list of its entries; with a vector-valued
    tape in the batch the rule raises. *)
Example fwd_legacy_bwd_runs :
  (Jax._execute_fwd_legacy_wrapped_exec_bwd [0%nat]
     (VList [matrix 1 2 [7; 8]], [[scalar 1; scalar 2]]) [scalar 1]
     (world_of [rot_tape] true)).1
    = Ret (VTuple [VTuple [VList [scalar 7; scalar 8]]]) ∧
  (Jax._execute_fwd_legacy_wrapped_exec_bwd [0%nat; 1%nat]
     (VList [matrix 1 2 [7; 8]; matrix 4 1 [1; 2; 3; 4]],
      [[scalar 1; scalar 2]; [scalar 1]])
     [scalar 1; vector [1; 1; 1; 1]]
     (world_of [rot_tape; probs_tape] true)).1
    = Raise (InterfaceUnsupportedError
        "Computing the jacobian of vector-valued tapes is not supported currently in forward mode.").
Proof. by vm_compute. Qed.

(** Two shot groups with contributions 10 and 21. *)
Example two_shot_groups :
  Autograd.tape_vjp [VTuple [scalar 5; scalar 7]]
                    [VTuple [scalar 2; scalar 3]] true 0 false
    = Ret (scalar 31).
Proof. by vm_compute. Qed.

Lemma execute_legacy_first_order_only_witness :
  1 < 2 ∧
  Jax.execute_legacy [0%nat] (LegacyDevice None) backend (Some param_shift)
                     [] 1 2 one_tape
  = (Raise (InterfaceUnsupportedError
              "The JAX interface only supports first order derivatives."),
     World (store one_tape) (next_loc one_tape) (active_return one_tape)
           (trace one_tape ++ [Enter JaxExecuteLegacy 1 2 [0%nat]])).
Proof.
  split; [reflexivity|].
  apply execute_legacy_first_order_only. reflexivity.
Defined.

Lemma fwd_legacy_bwd_vector_valued_witness :
  Forall (λ l, output_dim (store (world_of [rot_tape] true) l) = 1%nat)
         [0%nat] ∧
  Forall2 columns_of [matrix 1 2 [5; 7]] [VList [scalar 5; scalar 7]] ∧
  (Jax._execute_fwd_legacy_wrapped_exec_bwd [0%nat]
     (VArr Plain (NdArray [1; 1; 2]%nat [5; 7]), [[scalar 1; scalar 2]])
     [scalar 1] (world_of [rot_tape] true)).1
    = Ret (VTuple [VTuple [VList [scalar 5; scalar 7]]]).
Proof.
  assert (H1 : Forall (λ l, output_dim (store (world_of [rot_tape] true) l)
                            = 1%nat) [0%nat])
    by (by repeat constructor).
  assert (H2 : Forall2 columns_of [matrix 1 2 [5; 7]]
                 [VList [scalar 5; scalar 7]]).
  { repeat constructor.
    exists Plain, 1%nat, 2%nat, [], [5; 7]. split; reflexivity. }
  split; [exact H1|]. split; [exact H2|].
  destruct (fwd_legacy_bwd_vector_valued [0%nat]
              (VArr Plain (NdArray (H:=Z_numeric) [1; 1; 2]%nat [5; 7]))
              [[scalar 1; scalar 2]] [scalar 1] (world_of [rot_tape] true))
    as (_ & Hres & _).
  exact (Hres H1 [matrix 1 2 [5; 7]] _ eq_refl H2).
Defined.

Lemma substitution_makes_new_tapes_witness :
  allocated two_tapes [0%nat; 1%nat] ∧
  ∃ new_tapes w',
    Jax.set_parameters_on_copy_and_unwrap [0%nat; 1%nat]
      [[scalar 7]; [scalar 8]] true two_tapes = (Ret new_tapes, w') ∧
    length new_tapes = 2%nat ∧
    (∀ l, (l < 2)%nat → store w' l = store two_tapes l).
Proof.
  assert (Hall : allocated two_tapes [0%nat; 1%nat]).
  { repeat constructor. }
  split; [exact Hall|].
  destruct (substitution_makes_new_tapes [0%nat; 1%nat]
              [[scalar 7]; [scalar 8]] true two_tapes Hall)
    as (nls & w' & Hrun & Hlen & _ & _ & Hkeep & _).
  exists nls, w'. split; [exact Hrun|]. split; [exact Hlen | exact Hkeep].
Defined.

Lemma trainable_params_set_by_entry_points_witness :
  (0 < next_loc one_tape)%nat ∧
  store (Jax.execute [0%nat] (LegacyDevice None) backend (Some param_shift)
           [] 2 2 one_tape).2 0%nat
    = store one_tape 0%nat ∧
  store (Autograd.execute [0%nat] (LegacyDevice None) backend
           (Some param_shift) [] 2 2 one_tape).2 0%nat
    = annotated [0%nat] (store one_tape) 0%nat.
Proof.
  assert (Hl : (0 < next_loc one_tape)%nat) by (cbn; lia).
  split; [exact Hl|].
  destruct (trainable_params_set_by_entry_points [0%nat] (LegacyDevice None)
              backend (Some param_shift) [] 2 2 one_tape 0%nat Hl)
    as (Hjax & _ & Hautograd & _).
  split; [exact Hjax | exact Hautograd].
Defined.


Lemma count_results_pass_through_witness :
  allocated (world_of [counts_tape None; rx_tape] true) [0%nat; 1%nat] ∧
  (Autograd.__execute_legacy [[]; [traced ArrayBox 3]] [0%nat; 1%nat]
     sampling_backend [] (world_of [counts_tape None; rx_tape] true)).1
    = Ret ([counts; scalar 3], []) ∧
  (Jax._execute_legacy_wrapped_exec [0%nat; 1%nat] sampling_backend []
     [[]; [scalar 3]] (world_of [counts_tape None; rx_tape] true)).1
    = Ret (VList [counts; scalar 3]).
Proof.
  assert (Hall : allocated (world_of [counts_tape None; rx_tape] true)
                   [0%nat; 1%nat]).
  { repeat constructor. }
  split; [exact Hall|].
  destruct count_results_pass_through
    as (_ & _ & _ & _ & Hautograd & _ & Hjax & _).
  split.
  - apply (Hautograd [[]; [traced ArrayBox 3]] [0%nat; 1%nat]
             sampling_backend [] (world_of [counts_tape None; rx_tape] true)
             [counts; scalar 3] []);
      [exact Hall | reflexivity | cbn; lia].
  - apply (Hjax [[]; [scalar 3]] [0%nat; 1%nat] sampling_backend []
             (world_of [counts_tape None; rx_tape] true)
             [counts; scalar 3] []);
      [exact Hall | reflexivity].
Defined.

Lemma multi_probs_decided_by_last_tape_witness :
  is_gradient_transform param_shift = true ∧
  allocated (world_of [rx_tape; probs_tape] true) ([0%nat] ++ [1%nat]) ∧
  Forall2 (λ r d, ndim r = Ret d)
          [vector [3]; matrix 2 2 [1; 2; 3; 4]] [1%nat; 2%nat] ∧
  (Jax._execute_legacy_wrapped_exec_bwd ([0%nat] ++ [1%nat]) probs_backend
     param_shift [] [[scalar 3]; [scalar 1]]
     [scalar 1; matrix 2 2 [1; 1; 1; 1]]
     (world_of [rx_tape; probs_tape] true)).1
  = Jax.group_and_unstack
      (zip_with vjp_of [scalar 1; matrix 2 2 [1; 1; 1; 1]])
      [[scalar 3]; [scalar 1]]
      [vector [3]; matrix 2 2 [1; 3; 2; 4]].
Proof.
  assert (Hall : allocated (world_of [rx_tape; probs_tape] true)
                   ([0%nat] ++ [1%nat])).
  { repeat constructor; cbn; lia. }
  assert (Hdims : Forall2 (λ r d, ndim r = Ret d)
                    [vector [3]; matrix 2 2 [1; 2; 3; 4]] [1%nat; 2%nat]).
  { repeat constructor. }
  split; [reflexivity|]. split; [exact Hall|]. split; [exact Hdims|].
  destruct multi_probs_decided_by_last_tape as (_ & _ & Hrule).
  exact (Hrule [0%nat] 1%nat probs_backend param_shift []
           [[scalar 3]; [scalar 1]] [scalar 1; matrix 2 2 [1; 1; 1; 1]]
           (world_of [rx_tape; probs_tape] true)
           _ _ _ _ [1%nat; 2%nat] eq_refl Hall eq_refl eq_refl Hdims).
Defined.

Lemma differentiable_recursion_depth_witness :
  rtc recurses (1, 2) (2, 2) ∧ 2 = 2 ∧ 1 ≤ 2 ≤ 2.
Proof.
  assert (Hstep : rtc recurses (1, 2) (2, 2)).
  { apply rtc_once.
    eapply (recurses_jax [0%nat] (LegacyDevice None) backend param_shift []
              1 2 false None [[scalar 3]] [[scalar 1]] one_tape
              JaxExecute 2 2 [2%nat]); [reflexivity|].
    vm_compute. left. }
  split; [exact Hstep|].
  destruct differentiable_recursion_depth
    as (_ & _ & _ & _ & _ & _ & _ & _ & Hbound).
  apply (Hbound 1 2 2 2); [lia | exact Hstep].
Defined.

Lemma jacobian_computed_by_first_call_witness :
  rule_name param_shift = "param_shift" ∧
  (backend_calls JacobianCache
     (events (invoke_all
                (Autograd.vjp_grad_fn ([scalar 3; scalar 3], [])
                   [0%nat; 1%nat] (LegacyDevice None) backend
                   (Some param_shift) [] 2 2)
                None
                [([scalar 1; scalar 1], []); ([scalar 2; scalar 2], [])])
        two_tapes)
   ≤ 1)%nat.
Proof.
  split; [reflexivity|].
  destruct (jacobian_computed_by_first_call ([scalar 3; scalar 3], [])
              [0%nat; 1%nat] (LegacyDevice None) backend param_shift [] 2
              eq_refl) as (Hnew & _).
  exact (Hnew [([scalar 1; scalar 1], []); ([scalar 2; scalar 2], [])]
              None two_tapes).
Defined.

Lemma terminal_rule_makes_no_order_check_witness :
  is_gradient_transform device_gradients = false ∧
  rule_name device_gradients ≠ "param_shift" ∧
  allocated (world_of [rx_tape] true) [0%nat] ∧
  (Autograd.vjp_grad_fn ([scalar 3], []) [0%nat] (LegacyDevice None) backend
     (Some device_gradients) [] 2 2 None ([scalar 1], [])
     (world_of [rx_tape] true)).1
    = Ret ([vector [1]], None) ∧
  events (Autograd.vjp_grad_fn ([scalar 3], []) [0%nat] (LegacyDevice None)
            backend (Some device_gradients) [] 2 2 None ([scalar 1], []))
         (world_of [rx_tape] true)
    = [CallGradientFn [convert_to_numpy_parameters rx_tape] []].
Proof.
  assert (Hname : rule_name device_gradients ≠ "param_shift") by discriminate.
  assert (Hall : allocated (world_of [rx_tape] true) [0%nat])
    by (repeat constructor).
  split; [reflexivity|]. split; [exact Hname|]. split; [exact Hall|].
  destruct (terminal_rule_makes_no_order_check backend device_gradients []
              eq_refl) as (_ & _ & _ & _ & _ & Hautograd & _).
  exact (Hautograd ([scalar 3], []) [0%nat] (LegacyDevice None) 2 2 None
           ([scalar 1], []) (world_of [rx_tape] true) Hname Hall).
Defined.

(** C1, against the claim as stated: with [max_diff = 0] the tangent rule
    of depth [_n = 1] calls back into [execute] with depth 2, although
    [1 ≤ _n ≤ max_diff] does not hold. *)
Lemma recursion_outside_the_bounds :
  recurses (1, 0) (2, 0) ∧ ¬ (1 ≤ 1 ≤ 0).
Proof.
  split; [|lia].
  eapply (recurses_jax [0%nat] (LegacyDevice None) backend param_shift []
            1 0 false None [[scalar 3]] [[scalar 1]] one_tape
            JaxExecute 2 0 [2%nat]); [reflexivity|].
  vm_compute. left.
Qed.

(** C2, against the claim as stated: at depth [_n = 2] the Autograd entry
    point sets the trainable parameters of the tape, which had none. *)
Lemma autograd_sets_trainable_params_when_nested :
  trainable_params (store one_tape 0%nat) = [] ∧
  trainable_params
    (store (Autograd.execute [0%nat] (LegacyDevice None) backend
              (Some param_shift) [] 2 2 one_tape).2 0%nat)
    = [0%nat].
Proof. by vm_compute. Qed.

(** C3, against the claim as stated: in the legacy path one call of
    [grad_fn] on a batch of two tapes makes the Jacobian cache call the
    backend twice. *)
Lemma legacy_cache_calls_backend_per_tape :
  backend_calls JacobianCache
    (events (invoke_all
               (Autograd._vjp_legacy_grad_fn ([scalar 3; scalar 3], [])
                  [0%nat; 1%nat] (LegacyDevice None) backend
                  (Some param_shift) [] 2 2)
               None [([scalar 1; scalar 1], [])])
       two_tapes)
  = 2%nat.
Proof. by vm_compute. Qed.

(** C4, against the claim as stated: with a device method as gradient
    rule, on a tape whose parameter is trainable, the backward rules of
    Autograd and the tangent rule of JAX return at depth 2: no error is
    raised. *)
Lemma terminal_rule_returns_beyond_first_order :
  (Autograd.vjp_grad_fn ([scalar 3], []) [0%nat] (LegacyDevice None) backend
     (Some device_gradients) [] 2 2 None ([scalar 1], [])
     (world_of [rx_tape] true)).1
    = Ret ([vector [1]], None) ∧
  (Autograd._vjp_legacy_grad_fn ([scalar 3], []) [0%nat] (LegacyDevice None)
     backend (Some device_gradients) [] 2 2 None ([scalar 1], [])
     (world_of [rx_tape] true)).1
    = Ret ([vector [1]], None) ∧
  (Jax._execute_bwd_execute_wrapper_jvp [0%nat] (LegacyDevice None) backend
     device_gradients [] 2 2 false None [[scalar 3]] [[scalar 1]]
     (world_of [rx_tape] true)).1
    = Ret ([scalar 3], [vector [1]]).
Proof. by vm_compute. Qed.

(** C8, against the claim as stated: in the legacy JAX path the result of
    a broadcasted tape with a counts measurement does not pass through;
    the forward pass raises.  Without broadcasting it does pass. *)
Lemma broadcasted_counts_are_rejected :
  (Jax.execute_legacy [0%nat; 1%nat] (LegacyDevice None) sampling_backend
     (Some param_shift) [] 1 1
     (world_of [broadcasted_counts_tape; rx_tape] true)).1
    = Raise (InterfaceUnsupportedError
        "Broadcasted circuits with counts return types are only supported with the new return system. Use qml.enable_return() to turn it on.") ∧
  (Jax.execute_legacy [0%nat; 1%nat] (LegacyDevice None) sampling_backend
     (Some param_shift) [] 1 1
     (world_of [counts_tape None; rx_tape] true)).1
    = Ret (VList [counts; scalar 3]).
Proof. by vm_compute. Qed.
End Examples.

(** * Further properties of the two interfaces *)

(** ** Validation of the tapes (JAX, legacy path) *)

Section Validation.
Context `{Library}.

Lemma remove_dups_two {A} `{EqDecision A} (l : list A) :
  (1 < length (remove_dups l))%nat ↔ ∃ x y, x ∈ l ∧ y ∈ l ∧ x ≠ y.
Proof.
  pose proof (NoDup_remove_dups l) as Hnd.
  split.
  - destruct (remove_dups l) as [|x [|y r]] eqn:E; cbn; [lia | lia | intros _].
    exists x, y. split_and!.
    + apply elem_of_remove_dups. rewrite E. left.
    + apply elem_of_remove_dups. rewrite E. right. left.
    + intros ->. inversion_clear Hnd as [|? ? Hnin _]. apply Hnin. left.
  - intros (x & y & Hx & Hy & Hne).
    apply elem_of_remove_dups in Hx, Hy.
    destruct (remove_dups l) as [|a [|b r]]; cbn; [|exfalso|lia].
    + by apply elem_of_nil in Hx.
    + apply list_elem_of_singleton in Hx, Hy. congruence.
Qed.

Lemma measures_spec mt (t : tape) :
  mt ∈ map mp_type (measurements t) ↔ measures mt t.
Proof.
  unfold measures. rewrite list_elem_of_fmap. split.
  - intros (m & -> & Hm). eauto.
  - intros (m & Hm & <-). eauto.
Qed.

Lemma mixed_types_spec (t : tape) :
  (1 < length (remove_dups (map mp_type (measurements t))))%nat ↔ mixed_types t.
Proof.
  rewrite remove_dups_two. unfold mixed_types. split.
  - intros (x & y & (m & -> & Hm)%list_elem_of_fmap
              & (m' & -> & Hm')%list_elem_of_fmap & Hne). eauto.
  - intros (m & m' & Hm & Hm' & Hne).
    exists (mp_type m), (mp_type m'). split_and!; [| |done];
      apply list_elem_of_fmap; eauto.
Qed.

Lemma uneven_wires_spec (t : tape) :
  (1 < length (remove_dups (map (λ m, length (mp_wires m)) (measurements t))))%nat
  ↔ uneven_wires t.
Proof.
  rewrite remove_dups_two. unfold uneven_wires. split.
  - intros (x & y & (m & -> & Hm)%list_elem_of_fmap
              & (m' & -> & Hm')%list_elem_of_fmap & Hne). eauto.
  - intros (m & m' & Hm & Hm' & Hne).
    exists (length (mp_wires m)), (length (mp_wires m')).
    split_and!; [| |done]; apply list_elem_of_fmap; eauto.
Qed.

(** X1: the verdict of [_validate_tape], the body of the loop of
    [_validate_tapes], on one tape.  It raises the first error exactly when
    the tape has a sample or a probability measurement and two of its
    measurements differ in type.  It raises the second error exactly when
    the tape has a probability measurement, all its measurements are of one
    type and two of them differ in their number of wires.  It accepts the
    tape exactly when neither is the case: a tape without sample and
    probability measurements always passes, whatever it mixes. *)
Theorem validate_tape_verdict (t : tape) :
  (Jax._validate_tape t
     = Raise (InterfaceUnsupportedError
         "Using the JAX interface, sample and probability measurements cannot be mixed with other measurement types.")
   ↔ (measures SampleMP t ∨ measures ProbabilityMP t) ∧ mixed_types t) ∧
  (Jax._validate_tape t
     = Raise (InterfaceUnsupportedError
         "Using the JAX interface, multiple probability measurements need to have the same number of wires specified.")
   ↔ measures ProbabilityMP t ∧ ¬ mixed_types t ∧ uneven_wires t) ∧
  (Jax._validate_tape t = Ret ()
   ↔ (measures SampleMP t ∨ measures ProbabilityMP t → ¬ mixed_types t) ∧
     (measures ProbabilityMP t → ¬ uneven_wires t)).
Proof.
  unfold Jax._validate_tape. cbn zeta.
  pose proof (measures_spec SampleMP t) as HS.
  pose proof (measures_spec ProbabilityMP t) as HP.
  pose proof (mixed_types_spec t) as HM.
  pose proof (uneven_wires_spec t) as HU.
  repeat case_bool_decide; cbn [orb andb];
    (split_and!;
     (split; [intros Heq; try discriminate Heq | intros Hsem; try done]));
    tauto.
Qed.

Lemma validate_tapes_fails tapes1 l tapes2 w e :
  Forall (λ l', Jax._validate_tape (store w l') = Ret ()) tapes1 →
  Jax._validate_tape (store w l) = Raise e →
  Jax._validate_tapes (tapes1 ++ l :: tapes2) w = (Raise e, w).
Proof.
  intros Hall Hl. unfold Jax._validate_tapes.
  induction Hall as [|l' ls Hl' _ IH]; cbn [app for_each].
  - rewrite bind_run, bind_run. cbn [load lift fst snd]. by rewrite Hl.
  - rewrite bind_run, bind_run. cbn [load lift fst snd]. by rewrite Hl'.
Qed.

(** X2: [execute_legacy] validates the batch before it touches it.  With
    [max_diff ≤ 1], when the tapes in front of [l] pass [_validate_tape] and
    [l] fails with [e], the call raises [e], the error of the first tape
    that fails; no trainable parameters have been set, no object has been
    created and the backend has not been called: the world differs only by
    the record of the call. *)
Theorem execute_legacy_validates_first
    tapes1 l tapes2 dev execute_fn gradient_fn kw _n max_diff w e :
  max_diff ≤ 1 →
  Forall (λ l', Jax._validate_tape (store w l') = Ret ()) tapes1 →
  Jax._validate_tape (store w l) = Raise e →
  Jax.execute_legacy (tapes1 ++ l :: tapes2) dev execute_fn gradient_fn kw
                     _n max_diff w
  = (Raise e,
     World (store w) (next_loc w) (active_return w)
           (trace w ++ [Enter JaxExecuteLegacy _n max_diff
                          (tapes1 ++ l :: tapes2)])).
Proof.
  intros Hmax Hall Hl. unfold Jax.execute_legacy.
  rewrite bind_run. cbn [log fst snd].
  rewrite bool_decide_eq_false_2 by lia. rewrite bind_run.
  rewrite (validate_tapes_fails tapes1 l tapes2 _ e);
    [done | exact Hall | exact Hl].
Qed.

End Validation.

(** ** Contraction of Jacobians with tangents and cotangents *)

Section Contractions.
Context `{Library}.

Lemma mapO_all_ret {A B} (f : A → outcome B) l ys :
  mapO f l = Ret ys → length ys = length l ∧ ∀ x, x ∈ l → is_ret (f x) = true.
Proof.
  revert ys. induction l as [|a l IH]; intros ys Hm; cbn [mapO] in Hm.
  - injection Hm as <-. split; [done|]. by intros x ?%elem_of_nil.
  - destruct (f a) as [b|e] eqn:Hfa; [|done]. cbn [mbind outcome_bind] in Hm.
    destruct (mapO f l) as [bs|e] eqn:Hl; [|done].
    cbn [mbind outcome_bind] in Hm. injection Hm as <-.
    destruct (IH bs eq_refl) as [Hlen Hret]. split; [cbn; lia|].
    intros x [->|Hx]%elem_of_cons; [by rewrite Hfa | by apply Hret].
Qed.

(** X3: [_compute_jvps] returns one JVP per entry of [multi_measurements],
    the JVP of index [i] being computed from the tangent and the Jacobian
    of index [i] by the multi- or the single-measurement rule as the entry
    says; tangents and Jacobians beyond the number of tapes are ignored.
    When there are fewer tangents or fewer Jacobians than tapes, it raises
    [IndexError]. *)
Theorem compute_jvps_per_tape (jacs tangents : list value) (mm : list bool) :
  ((length mm ≤ length tangents)%nat → (length mm ≤ length jacs)%nat →
   ∃ jvps, Jax._compute_jvps jacs tangents mm = Ret jvps ∧
     length jvps = length mm ∧
     ∀ i (multi : bool) t j,
       mm !! i = Some multi → tangents !! i = Some t → jacs !! i = Some j →
       jvps !! i = Some (if multi then compute_jvp_multi t j
                         else compute_jvp_single t j)) ∧
  ((length tangents < length mm)%nat ∨ (length jacs < length mm)%nat →
   Jax._compute_jvps jacs tangents mm = Raise IndexError).
Proof.
  unfold Jax._compute_jvps. split.
  - intros Ht Hj.
    destruct (mapO_Forall2
      (λ im : nat * bool,
         t ← getitem tangents im.1; j ← getitem jacs im.1;
         Ret ((if im.2 then compute_jvp_multi else compute_jvp_single) t j))
      (imap pair mm)) as (jvps & Hrun & HF).
    { intros [i multi] Hin. apply list_elem_of_lookup in Hin as [i' Hi'].
      rewrite list_lookup_imap in Hi'.
      destruct (mm !! i') as [m|] eqn:Hm; [|done]. cbn in Hi'.
      injection Hi' as <- <-. apply lookup_lt_Some in Hm.
      destruct (lookup_lt_is_Some_2 tangents i') as [t Ht']; [lia|].
      destruct (lookup_lt_is_Some_2 jacs i') as [j Hj']; [lia|].
      unfold getitem. cbn [fst snd]. rewrite Ht', Hj'. cbn. eauto. }
    exists jvps. split; [exact Hrun|].
    split; [apply Forall2_length in HF; by rewrite <- HF, length_imap|].
    intros i multi t j Hm Ht' Hj'.
    destruct (mapO_lookup _ _ _ i (i, multi) Hrun) as (y & Hy & ->).
    { by rewrite list_lookup_imap, Hm. }
    unfold getitem in Hy. cbn [fst snd] in Hy. rewrite Ht', Hj' in Hy.
    cbn in Hy. injection Hy as <-. by destruct multi.
  - intros Hshort.
    match goal with |- ?o = _ => destruct o as [jvps|e] eqn:Hrun end.
    + exfalso. apply mapO_all_ret in Hrun as [_ Hret].
      set (i := (length tangents `min` length jacs)%nat).
      destruct (lookup_lt_is_Some_2 mm i) as [multi Hm]; [lia|].
      assert (Hin : (i, multi) ∈ imap pair mm).
      { apply list_elem_of_lookup. exists i. by rewrite list_lookup_imap, Hm. }
      specialize (Hret (i, multi) Hin). cbn [fst snd] in Hret.
      unfold getitem in Hret.
      destruct (tangents !! i) as [t|] eqn:Ht; [|done]. cbn in Hret.
      destruct (jacs !! i) as [j|] eqn:Hj; [|done].
      apply lookup_lt_Some in Ht, Hj. lia.
    + f_equal.
      assert (Hr : raises (λ e, e = IndexError)
                (mapO (λ im : nat * bool,
                   t ← getitem tangents im.1; j ← getitem jacs im.1;
                   Ret ((if im.2 then compute_jvp_multi else compute_jvp_single) t j))
                   (imap pair mm))).
      { apply raises_mapO. intros im.
        apply raises_bind; [by apply raises_getitem | intros t].
        apply raises_bind; [by apply raises_getitem | intros j].
        apply raises_ret. }
      exact (Hr e Hrun).
Qed.

Lemma zip_with_take_both {A B C} (f : A → B → C) (l : list A) (k : list B) :
  zip_with f l k = zip_with f (take (length k) l) (take (length l) k).
Proof.
  revert k. induction l as [|x l IH]; intros [|y k]; cbn; [done..|].
  by rewrite <- IH.
Qed.

Lemma raises_tape_vjp jacs dy hps i multi :
  raises (λ e, e = IndexError ∨ e = TypeError ∨ e = ValueError)
    (Autograd.tape_vjp jacs dy hps i multi).
Proof.
  assert (Hiter : ∀ v, raises (λ e, e = IndexError ∨ e = TypeError ∨ e = ValueError)
                         (iter_value v)).
  { intros v e He. right. left.
    destruct v as [k a| | | | | |]; cbn in He; try done.
    - destruct (shape a); [by injection He as <- | done].
    - by injection He as <-. }
  unfold Autograd.tape_vjp.
  apply raises_bind; [apply raises_getitem; by left | intros d].
  apply raises_bind; [apply raises_getitem; by left | intros j].
  apply raises_bind; [destruct hps; [apply Hiter | apply raises_ret] | intros ds].
  apply raises_bind; [destruct hps; [apply Hiter | apply raises_ret] | intros js].
  unfold sum_stack_axis0.
  apply raises_bind.
  - apply raises_mapO. intros v. destruct v; cbn;
      first [ apply raises_ret | apply raises_raise; by right; left ].
  - intros arrs. destruct arrs as [|[k0 a0] rest];
      [apply raises_raise; by right; right|].
    destruct (forallb _ rest);
      [apply raises_ret | apply raises_raise; by right; right].
Qed.

(** X4: [_compute_vjps_autograd] returns one VJP per tape, and only when
    every tape has a cotangent and a Jacobian; what it raises itself (the
    contraction rules being taken to return) is [IndexError], [TypeError]
    or [ValueError].  With partitioned shots the shot groups of a tape are
    paired in order, as [zip] does: cotangents or Jacobians without a
    partner are ignored, and a tape left without any pair makes the
    function raise [ValueError], since nothing can be stacked. *)
Theorem compute_vjps_autograd_per_tape
    (jacs dy : list value) (mm : list bool) (hps : bool) :
  (∀ vjps, Autograd._compute_vjps_autograd jacs dy mm hps = Ret vjps →
     length vjps = length mm ∧
     (length mm ≤ length dy)%nat ∧ (length mm ≤ length jacs)%nat) ∧
  (∀ e, Autograd._compute_vjps_autograd jacs dy mm hps = Raise e →
     e = IndexError ∨ e = TypeError ∨ e = ValueError) ∧
  (∀ i multi d j ds js,
     dy !! i = Some d → jacs !! i = Some j →
     iter_value d = Ret ds → iter_value j = Ret js →
     Autograd.tape_vjp jacs dy true i multi
       = sum_stack_axis0
           (zip_with (Autograd.contraction multi)
              (take (length js) ds) (take (length ds) js)) ∧
     (ds = [] ∨ js = [] →
      Autograd.tape_vjp jacs dy true i multi = Raise ValueError)).
Proof.
  split_and!.
  - intros vjps Hrun. unfold Autograd._compute_vjps_autograd in Hrun.
    apply mapO_all_ret in Hrun as [Hlen Hret]. rewrite length_imap in Hlen.
    split; [done|].
    assert (Hi : ∀ i, (i < length mm)%nat →
              is_Some (dy !! i) ∧ is_Some (jacs !! i)).
    { intros i Hi. destruct (lookup_lt_is_Some_2 mm i Hi) as [multi Hm].
      assert (Hin : (i, multi) ∈ imap pair mm).
      { apply list_elem_of_lookup. exists i. by rewrite list_lookup_imap, Hm. }
      specialize (Hret _ Hin). cbn [fst snd] in Hret.
      unfold Autograd.tape_vjp, getitem in Hret.
      destruct (dy !! i); [|done]. cbn [mbind outcome_bind] in Hret.
      destruct (jacs !! i); [|done]. split; by eexists. }
    split.
    + destruct (decide (length mm ≤ length dy)%nat) as [|Hn]; [done|].
      destruct (Hi (length dy)) as [[d Hd] _]; [lia|].
      apply lookup_lt_Some in Hd. lia.
    + destruct (decide (length mm ≤ length jacs)%nat) as [|Hn]; [done|].
      destruct (Hi (length jacs)) as [_ [j Hj]]; [lia|].
      apply lookup_lt_Some in Hj. lia.
  - intros e He. revert e He. unfold Autograd._compute_vjps_autograd.
    change (raises (λ e, e = IndexError ∨ e = TypeError ∨ e = ValueError)
              (mapO (λ im : nat * bool,
                       Autograd.tape_vjp jacs dy hps im.1 im.2)
                    (imap pair mm))).
    apply raises_mapO. intros im. apply raises_tape_vjp.
  - intros i multi d j ds js Hd Hj Hds Hjs.
    assert (Hrun : Autograd.tape_vjp jacs dy true i multi
              = sum_stack_axis0 (zip_with (Autograd.contraction multi) ds js)).
    { unfold Autograd.tape_vjp, getitem. rewrite Hd, Hj.
      cbn [mbind outcome_bind]. rewrite Hds, Hjs. cbn [mbind outcome_bind].
      by rewrite shot_vjps_zip_with. }
    split.
    + by rewrite Hrun, <- zip_with_take_both.
    + rewrite Hrun. intros [-> | ->]; [done|]. by destruct ds.
Qed.

End Contractions.

(** ** Reshaping of Jacobians and VJPs (JAX, legacy path) *)

Section Reshaping.
Context `{Library}.

Lemma take_one_drop {A} (xs : list A) n x :
  xs !! n = Some x → take 1 (drop n xs) = [x].
Proof.
  intros Hx. rewrite <- (take_drop_middle xs n x Hx).
  rewrite drop_app_length'; [done|].
  rewrite length_take. apply lookup_lt_Some in Hx. lia.
Qed.

(** X5: the loop of [wrapped_exec_bwd] of [_execute_fwd_legacy] over one
    stored Jacobian.  A Jacobian of shape [r :: c :: rest] becomes the list
    of its [c] columns: column [i] is the entry [j[0, i]] when [r = 1], and
    [jnp.array] of the entries [j[k, i]] for [k < r] otherwise.  With two
    axes an entry is the scalar at position [k * c + i] of the data, so a
    Jacobian with one row becomes the list of its entries, in order.  An
    array with fewer than two axes raises [IndexError]. *)
Theorem reshape_jacobian_columns b (xs : list num) :
  (∀ r c rest,
     Jax.reshape_jacobian (VArr b (NdArray (r :: c :: rest) xs))
     = Ret (VList (map (λ i,
              if bool_decide (r = 1%nat) then entry_at b c rest xs 0 i
              else jnp_array
                     (VList (map (λ k, entry_at b c rest xs k i) (seq 0 r))))
            (seq 0 c)))) ∧
  (∀ c k i x, xs !! (k * c + i)%nat = Some x →
     entry_at b c [] xs k i = VArr b (NdArray [] [x])) ∧
  Jax.reshape_jacobian (VArr b (NdArray [1%nat; length xs] xs))
    = Ret (VList (map (λ x, VArr b (NdArray [] [x])) xs)) ∧
  (∀ sh, (length sh < 2)%nat →
     Jax.reshape_jacobian (VArr b (NdArray sh xs)) = Raise IndexError).
Proof.
  assert (Hcols : ∀ r c rest,
     Jax.reshape_jacobian (VArr b (NdArray (r :: c :: rest) xs))
     = Ret (VList (map (λ i,
              if bool_decide (r = 1%nat) then entry_at b c rest xs 0 i
              else jnp_array
                     (VList (map (λ k, entry_at b c rest xs k i) (seq 0 r))))
            (seq 0 c)))).
  { intros r c rest. unfold Jax.reshape_jacobian.
    cbn [shape_at shape].
    change (getitem (r :: c :: rest) 1) with (Ret (A:=nat) c).
    cbn [mbind outcome_bind].
    rewrite (mapO_ret _ (λ i,
              if bool_decide (r = 1%nat) then entry_at b c rest xs 0 i
              else jnp_array
                     (VList (map (λ k, entry_at b c rest xs k i) (seq 0 r)))));
      [done|].
    intros i Hi%elem_of_seq. apply jacobian_column_entry. lia. }
  assert (Hentry : ∀ c k i x, xs !! (k * c + i)%nat = Some x →
     entry_at b c [] xs k i = VArr b (NdArray [] [x])).
  { intros c k i x Hx. unfold entry_at. cbn [size_of foldr].
    rewrite Nat.mul_1_r. by rewrite (take_one_drop _ _ _ Hx). }
  split_and!; [exact Hcols | exact Hentry | |].
  - rewrite Hcols. rewrite bool_decide_eq_true_2 by done. do 2 f_equal.
    apply list_eq. intros i. rewrite !list_lookup_fmap.
    destruct (xs !! i) as [x|] eqn:Hx; cbn.
    + rewrite lookup_seq_lt by (by eapply lookup_lt_Some). cbn.
      f_equal. apply Hentry. by rewrite Nat.mul_0_l, Nat.add_0_l.
    + rewrite lookup_seq_ge; [done|]. by apply lookup_ge_None.
  - intros sh Hsh. unfold Jax.reshape_jacobian, getitem. cbn [shape_at shape].
    destruct sh as [|n [|m sh]]; cbn in Hsh |- *; [done | done | lia].
Qed.

Lemma group_vjps_lookup vjps params : ∀ idx i p,
  params !! i = Some p →
  Jax.group_vjps vjps idx params !! i
  = Some (getslice vjps (idx + sum_list (map length (take i params)))
                        (idx + sum_list (map length (take i params)) + length p)).
Proof.
  induction params as [|q ps IH]; intros idx i p Hp; [done|].
  destruct i as [|i]; cbn in Hp |- *.
  - injection Hp as ->. by rewrite Nat.add_0_r.
  - rewrite (IH _ _ _ Hp). do 2 f_equal; lia.
Qed.

(** X6: the loop of [wrapped_exec_bwd] of [_execute_legacy] that groups the
    concatenated VJPs by tape.  There is one slice per tape; the slice of
    tape [i] starts where the slices of the tapes before it end, at the sum
    of their numbers of parameters, and has as many entries as tape [i] has
    parameters: the slices are contiguous and in the order of the tapes. *)
Theorem group_vjps_contiguous vjps (params : list (list value)) :
  length (Jax.group_vjps vjps 0 params) = length params ∧
  ∀ i p, params !! i = Some p →
    Jax.group_vjps vjps 0 params !! i
    = Some (getslice vjps (sum_list (map length (take i params)))
                          (sum_list (map length (take i params)) + length p)).
Proof.
  split.
  - generalize 0%nat. induction params as [|p ps IH]; intros idx; cbn; [done|].
    by rewrite IH.
  - intros i p Hp. by rewrite (group_vjps_lookup _ _ 0 i p Hp).
Qed.

Lemma anyO_all_false {A} (f : A → outcome bool) l :
  Forall (λ x, f x = Ret false) l → anyO f l = Ret false.
Proof.
  induction 1 as [|x l Hx _ IH]; cbn [anyO]; [done|]. by rewrite Hx.
Qed.

Lemma anyO_first_true {A} (f : A → outcome bool) l1 x l2 :
  Forall (λ y, f y = Ret false) l1 → f x = Ret true →
  anyO f (l1 ++ x :: l2) = Ret true.
Proof.
  intros Hl1 Hx. induction Hl1 as [|y l1 Hy _ IH]; cbn [app anyO].
  - by rewrite Hx.
  - by rewrite Hy.
Qed.

Lemma anyO_first_raise {A} (f : A → outcome bool) l1 x l2 e :
  Forall (λ y, f y = Ret false) l1 → f x = Raise e →
  anyO f (l1 ++ x :: l2) = Raise e.
Proof.
  intros Hl1 Hx. induction Hl1 as [|y l1 Hy _ IH]; cbn [app anyO].
  - by rewrite Hx.
  - by rewrite Hy.
Qed.

(** X7: the unstacking at the end of [wrapped_exec_bwd] of [_execute_legacy]
    is decided for the batch as a whole.  When every group of VJPs has no
    axis, the groups are returned as they are; as soon as one group has an
    axis, every group is unstacked, those without axes included; and when a
    group has no [ndim] before any group with an axis is met, its error is
    raised. *)
Theorem unstacking_is_all_or_nothing
    (processing_fn : list value → list value) params partial_res :
  let groups :=
    Jax.group_vjps (jnp_concatenate (processing_fn partial_res)) 0 params in
  (Forall (λ r, ndim r = Ret 0%nat) groups →
   Jax.group_and_unstack processing_fn params partial_res
     = Ret (VTuple [VTuple groups])) ∧
  (∀ before r after d,
     groups = before ++ r :: after →
     Forall (λ r', ndim r' = Ret 0%nat) before → ndim r = Ret (S d) →
     Jax.group_and_unstack processing_fn params partial_res
       = Ret (VTuple [VTuple (map math_unstack groups)])) ∧
  (∀ before r after e,
     groups = before ++ r :: after →
     Forall (λ r', ndim r' = Ret 0%nat) before → ndim r = Raise e →
     Jax.group_and_unstack processing_fn params partial_res = Raise e).
Proof.
  intros groups. unfold Jax.group_and_unstack. cbn zeta. fold groups.
  assert (Hzero : ∀ l, Forall (λ r, ndim r = Ret 0%nat) l →
            Forall (λ r, (d ← ndim r; Ret (negb (bool_decide (d = 0%nat))))
                         = Ret false) l).
  { intros l Hl. eapply Forall_impl; [|exact Hl]. cbn. by intros r ->. }
  split_and!.
  - intros Hall. by rewrite anyO_all_false by (by apply Hzero).
  - intros before r after d Hgroups Hbefore Hr.
    rewrite Hgroups at 1.
    rewrite anyO_first_true; [done | by apply Hzero | by rewrite Hr].
  - intros before r after e Hgroups Hbefore Hr.
    rewrite Hgroups at 1.
    rewrite (anyO_first_raise _ _ _ _ e); [done | by apply Hzero | by rewrite Hr].
Qed.

End Reshaping.

(** ** Results of a device with a shot vector *)

Section ShotVectorResults.
Context `{Library}.

Lemma to_jax_shot_group items :
  mapO (λ r_, getitem (Jax._to_jax [r_]) 0) items = Ret (Jax._to_jax items).
Proof. by apply mapO_ret. Qed.

Lemma mapO_first_raise {A B} (f : A → outcome B) l1 x l2 e :
  Forall (λ y, is_ret (f y) = true) l1 → f x = Raise e →
  mapO f (l1 ++ x :: l2) = Raise e.
Proof.
  intros Hl1 Hx. induction Hl1 as [|y l1 Hy _ IH]; cbn [app mapO].
  - by rewrite Hx.
  - destruct (f y); [|done]. cbn [mbind outcome_bind]. by rewrite IH.
Qed.

(** X8: [_to_jax_shot_vector] converts the result of each tape, which must
    be a sequence with one entry per shot group, into the tuple of its
    entries converted as [_to_jax] converts the results of a batch: count
    results pass through here too.  It stops at the first result that
    cannot be iterated, with the error of the iteration, and ([jnp.array]
    being taken to return) raises nothing but this [TypeError]: the
    indexing [_to_jax([r_])[0]] never fails. *)
Theorem to_jax_shot_vector_per_group :
  (∀ res itemss,
     Forall2 (λ r items, iter_value r = Ret items) res itemss →
     Jax._to_jax_shot_vector res
     = Ret (map (λ items, VTuple (Jax._to_jax items)) itemss)) ∧
  (∀ res1 r res2 e,
     Forall (λ r', is_ret (iter_value r') = true) res1 →
     iter_value r = Raise e →
     Jax._to_jax_shot_vector (res1 ++ r :: res2) = Raise e) ∧
  (∀ res e, Jax._to_jax_shot_vector res = Raise e → e = TypeError).
Proof.
  split_and!.
  - intros res itemss HF. unfold Jax._to_jax_shot_vector.
    apply mapO_of_Forall2.
    induction HF as [|r items res' itemss' Hr _ IH]; cbn [map];
      constructor; [|exact IH].
    rewrite Hr. cbn [mbind outcome_bind]. by rewrite to_jax_shot_group.
  - intros res1 r res2 e Hres1 Hr. unfold Jax._to_jax_shot_vector.
    apply mapO_first_raise.
    + eapply Forall_impl; [|exact Hres1]. cbn. intros r'.
      destruct (iter_value r') as [items|]; [intros _|done].
      cbn [mbind outcome_bind]. by rewrite to_jax_shot_group.
    + by rewrite Hr.
  - intros res e. unfold Jax._to_jax_shot_vector.
    apply (raises_mapO (λ e, e = TypeError)). intros r.
    destruct (iter_value r) as [items|e'] eqn:Hr; cbn [mbind outcome_bind].
    + rewrite to_jax_shot_group. apply raises_ret.
    + intros e'' [= <-]. destruct r as [k a| | | | | |]; cbn in Hr; try done.
      * destruct (shape a); [by injection Hr as <- | done].
      * by injection Hr as <-.
Qed.

End ShotVectorResults.

(** ** Where the keyword arguments go *)

Section Discipline.
Context `{Library}.












End Discipline.

(** ** What the rules leave alone *)

Section Frame.
Context `{Library}.

#[global] Instance touches_only_preorder tapes : PreOrder (touches_only tapes).
Proof.
  split.
  - intros w. by repeat split.
  - intros w1 w2 w3 (Hn1 & Ha1 & Hs1) (Hn2 & Ha2 & Hs2). repeat split.
    + lia.
    + congruence.
    + intros l Hl Hnin. rewrite Hs2 by (done || lia). by apply Hs1.
Qed.

Lemma keeps_touches tapes w w' : keeps_objects w w' → touches_only tapes w w'.
Proof. intros (Hn & Ha & Hs). repeat split; auto. Qed.

Lemma sat_weaken {A} (R R' : world → world → Prop) E (m : M A) :
  (∀ w w', R w w' → R' w w') → sat R E m → sat R' E m.
Proof. intros HR Hm w. destruct (Hm w) as [Hw He]. split; auto. Qed.

Lemma touches_assign tapes l t w :
  l ∈ tapes →
  touches_only tapes w
    (World (<[l := t]> (store w)) (next_loc w) (active_return w) (trace w)).
Proof.
  intros Hl. repeat split; cbn; [lia|]. intros l' _ Hnin.
  apply fn_lookup_insert_ne. by intros ->.
Qed.

Lemma set_trainable_touches tapes :
  sat (touches_only tapes) anything (for_each set_trainable_params tapes).
Proof.
  assert (Hsub : ∀ ls, ls ⊆ tapes →
            sat (touches_only tapes) anything (for_each set_trainable_params ls)).
  { induction ls as [|l ls IH]; intros Hls; cbn [for_each].
    - apply sat_ret. apply _.
    - apply sat_bind; [apply _ | | intros _; apply IH].
      + unfold set_trainable_params. apply sat_bind; [apply _ | | intros t].
        * apply sat_load. apply _.
        * apply sat_assign. intros w. apply touches_assign, Hls. left.
      + intros x Hx. apply Hls. by right. }
  by apply Hsub.
Qed.

Lemma jax_execute_touches tapes dev execute_fn gradient_fn kw n max_diff :
  sat (touches_only tapes) anything
    (Jax.execute tapes dev execute_fn gradient_fn kw n max_diff).
Proof.
  unfold Jax.execute.
  apply sat_bind; [apply _ | | intros _].
  { apply sat_log. intros w. apply keeps_touches, keeps_log. }
  apply sat_bind; [apply _ | | intros _].
  { case_bool_decide; [apply set_trainable_touches | apply sat_ret; apply _]. }
  eapply sat_weaken; [apply keeps_touches | apply jax_dispatch_keeps].
Qed.

Lemma autograd_execute_legacy_touches tapes dev execute_fn gradient_fn kw n max_diff :
  sat (touches_only tapes) anything
    (Autograd._execute_legacy tapes dev execute_fn gradient_fn kw n max_diff).
Proof.
  unfold Autograd._execute_legacy.
  apply sat_bind; [apply _ | | intros _].
  { apply sat_log. intros w. apply keeps_touches, keeps_log. }
  apply sat_bind; [apply _ | apply set_trainable_touches | intros _].
  eapply sat_weaken; [apply keeps_touches | apply autograd_legacy_dispatch_keeps].
Qed.

Lemma autograd_execute_touches tapes dev execute_fn gradient_fn kw n max_diff :
  sat (touches_only tapes) anything
    (Autograd.execute tapes dev execute_fn gradient_fn kw n max_diff).
Proof.
  unfold Autograd.execute.
  apply sat_bind; [apply _ | | intros _].
  { apply sat_log. intros w. apply keeps_touches, keeps_log. }
  apply sat_bind; [apply _ | apply sat_get_active_return; apply _ | intros active].
  destruct (negb active).
  - apply autograd_execute_legacy_touches.
  - apply sat_bind; [apply _ | apply set_trainable_touches | intros _].
    eapply sat_weaken; [apply keeps_touches | apply autograd_dispatch_keeps].
Qed.

Lemma alloc_all_fresh ts : ∀ w,
  ∃ locs w', alloc_all ts w = (Ret locs, w') ∧ keeps_objects w w' ∧
             Forall (λ l, (next_loc w ≤ l)%nat) locs.
Proof.
  unfold alloc_all. induction ts as [|t ts IH]; intros w; cbn [mapM].
  - exists [], w. split_and!; [done | reflexivity | constructor].
  - rewrite bind_run. cbn [alloc fst snd]. rewrite bind_run.
    match goal with |- context [mapM alloc ts ?w1] =>
      destruct (IH w1) as (locs & w' & -> & Hk & Hfresh) end.
    eexists _, _. split; [reflexivity|]. split.
    + etransitivity; [apply keeps_alloc | exact Hk].
    + constructor; [lia|]. eapply Forall_impl; [|exact Hfresh].
      cbn. intros; lia.
Qed.

(** New objects may be touched: what is done to objects just created
    leaves those that existed before as they were. *)
Lemma alloc_then_touch {A} ts (f : list loc → M A) :
  (∀ locs, sat (touches_only locs) anything (f locs)) →
  sat keeps_objects anything (alloc_all ts ≫= f).
Proof.
  intros Hf w. rewrite bind_run.
  destruct (alloc_all_fresh ts w) as (locs & w1 & -> & Hk & Hfresh).
  destruct (Hf locs w1) as [(Hn & Ha & Hs) _]. split; [|done].
  destruct Hk as (Hn1 & Ha1 & Hs1). repeat split.
  - lia.
  - congruence.
  - intros l Hl. rewrite Hs; [by apply Hs1 | lia |].
    intros Hin. rewrite Forall_forall in Hfresh.
    apply list_elem_of_In in Hin. specialize (Hfresh l Hin). lia.
Qed.

Lemma touches_log tapes w e :
  touches_only tapes w
    (World (store w) (next_loc w) (active_return w) (trace w ++ [e])).
Proof. apply keeps_touches, keeps_log. Qed.

Lemma touches_alloc tapes w t :
  touches_only tapes w
    (World (<[next_loc w := t]> (store w)) (S (next_loc w))
           (active_return w) (trace w)).
Proof. apply keeps_touches, keeps_alloc. Qed.

Ltac frame_step :=
  lazymatch goal with
  | |- sat keeps_objects _ (alloc_all _ ≫= _) =>
      apply alloc_then_touch; intros ?
  | |- sat (touches_only _) _ (Jax.execute _ _ _ _ _ _ _) =>
      apply jax_execute_touches
  | |- sat (touches_only _) _ (Autograd.execute _ _ _ _ _ _ _) =>
      apply autograd_execute_touches
  | |- sat (touches_only _) _ (Autograd._execute_legacy _ _ _ _ _ _ _) =>
      apply autograd_execute_legacy_touches
  | _ => sat_step
  end.

Ltac frame_steps :=
  repeat frame_step; intros;
  first [ exact I | apply raises_anything
        | apply keeps_alloc | apply keeps_log
        | apply touches_alloc | apply touches_log ].

Lemma jax_rule_keeps tapes dev execute_fn g kw n max_diff hp sv primals tangents :
  sat keeps_objects anything
    (Jax._execute_bwd_execute_wrapper_jvp tapes dev execute_fn g kw n max_diff
       hp sv primals tangents).
Proof. frame_steps. Qed.

Lemma jax_fwd_rule_keeps tapes execute_fn kw primals tangents :
  sat keeps_objects anything
    (Jax._execute_fwd_execute_wrapper_jvp tapes execute_fn kw primals tangents).
Proof. frame_steps. Qed.

Lemma jax_legacy_rule_keeps tapes execute_fn g kw params cot :
  sat keeps_objects anything
    (Jax._execute_legacy_wrapped_exec_bwd tapes execute_fn g kw params cot).
Proof. frame_steps. Qed.

Lemma autograd_rule_keeps ans tapes dev execute_fn gradient_fn kw n max_diff c dy :
  sat keeps_objects anything
    (Autograd.vjp_grad_fn ans tapes dev execute_fn gradient_fn kw n max_diff c dy).
Proof. frame_steps. Qed.

Lemma autograd_legacy_rule_keeps ans tapes dev execute_fn gradient_fn kw n max_diff c dy :
  sat keeps_objects anything
    (Autograd._vjp_legacy_grad_fn ans tapes dev execute_fn gradient_fn kw n
       max_diff c dy).
Proof. frame_steps. Qed.

(** X10: the backward and tangent rules leave alone every object that
    existed before they were called, the caller's tapes among them, and the
    return mode; this holds for every gradient rule, depth and ceiling, also
    when the rule calls back into an entry point, which sets the trainable
    parameters of the gradient tapes only, and when it raises.  (The tapes
    that [bind_new_parameters], [convert_to_numpy_parameters] and the batch
    transforms return are new objects, as for
    [set_parameters_on_copy_and_unwrap].) *)
Theorem rules_leave_existing_tapes execute_fn kw w :
  (∀ tapes dev g n max_diff hp sv primals tangents,
     keeps_objects w
       (Jax._execute_bwd_execute_wrapper_jvp tapes dev execute_fn g kw n
          max_diff hp sv primals tangents w).2) ∧
  (∀ tapes primals tangents,
     keeps_objects w
       (Jax._execute_fwd_execute_wrapper_jvp tapes execute_fn kw primals
          tangents w).2) ∧
  (∀ tapes g params cot,
     keeps_objects w
       (Jax._execute_legacy_wrapped_exec_bwd tapes execute_fn g kw params cot
          w).2) ∧
  (∀ ans tapes dev gradient_fn n max_diff c dy,
     keeps_objects w
       (Autograd.vjp_grad_fn ans tapes dev execute_fn gradient_fn kw n
          max_diff c dy w).2 ∧
     keeps_objects w
       (Autograd._vjp_legacy_grad_fn ans tapes dev execute_fn gradient_fn kw
          n max_diff c dy w).2).
Proof.
  split_and!; intros; split_and?.
  - apply jax_rule_keeps.
  - apply jax_fwd_rule_keeps.
  - apply jax_legacy_rule_keeps.
  - apply autograd_rule_keeps.
  - apply autograd_legacy_rule_keeps.
Qed.

End Frame.

(** ** The forward pass of the entry points *)

Section ForwardPass.
Context `{Library}.

Lemma trainable_parameters_run tapes w :
  trainable_parameters tapes w
  = (Ret (map (λ l, get_parameters (store w l) true) tapes), w).
Proof.
  unfold trainable_parameters. induction tapes as [|l ls IH]; cbn [mapM map].
  - done.
  - rewrite bind_run, bind_run. cbn [load fst snd mret M_ret].
    rewrite bind_run, IH. done.
Qed.

Lemma annotated_in tapes st l :
  l ∈ tapes → annotated tapes st l = recompute_trainable (st l).
Proof. intros Hl. unfold annotated. by rewrite bool_decide_eq_true_2. Qed.

Lemma autograd_execute_forward_run
    tapes dev execute_fn gradient_fn kw n max_diff w :
  allocated w tapes → active_return w = true →
  let ts := map (λ l, convert_to_numpy_parameters
                        (recompute_trainable (store w l))) tapes in
  ∃ w',
    Autograd.execute tapes dev execute_fn gradient_fn kw n max_diff w
    = (r ← execute_fn ts (Some kw); Ret r.1, w') ∧
    trace w' = trace w ++ [Enter AutogradExecute n max_diff tapes;
                           CallExecuteFn ForwardPass ts (Some kw)].
Proof.
  intros Hall Hactive ts. unfold Autograd.execute.
  rewrite bind_run. cbn [log fst snd]. rewrite bind_run.
  cbn [get_active_return fst snd active_return]. rewrite Hactive. cbn [negb].
  rewrite bind_run.
  match goal with |- context [for_each set_trainable_params tapes ?w0] =>
    destruct (set_trainable_loop_run tapes w0) as (st & -> & Hst) end.
  cbn [fst snd store next_loc active_return trace] in *.
  rewrite bind_run, trainable_parameters_run. cbn [fst snd]. rewrite bind_run.
  match goal with |- context [Autograd._execute ?p tapes execute_fn kw ?w1] =>
    destruct (autograd_execute_run p tapes execute_fn kw w1 Hall)
      as (w' & _ & Htr & ->)
  end.
  cbn [store trace] in Htr |- *.
  assert (Hts : map (λ l, convert_to_numpy_parameters (st l)) tapes = ts).
  { apply map_ext_in. intros l Hl%list_elem_of_In.
    by rewrite Hst, annotated_in. }
  rewrite Hts in Htr |- *. exists w'.
  rewrite Htr, <- app_assoc.
  by destruct (execute_fn ts (Some kw)) as [r|e].
Qed.

Lemma events_of_run {A} (m : M A) w o w' evs :
  m w = (o, w') → trace w' = trace w ++ evs →
  (m w).1 = o ∧ events m w = evs.
Proof.
  intros Hm Htr. unfold events. rewrite Hm. cbn [fst snd].
  split; [done|]. rewrite Htr. by rewrite drop_app_length.
Qed.

(** X11: the forward pass of [execute] of the Autograd interface in the
    current return mode.  On a batch of existing tapes it calls the backend
    once, with [gradient_kwargs], on converted copies of the tapes taken
    after their trainable parameters have been set, and returns the results
    of the backend as they are (or raises what the backend raises), whatever
    the device, the gradient rule, the depth and the ceiling. *)
Theorem autograd_execute_forward
    tapes dev execute_fn gradient_fn kw n max_diff w :
  allocated w tapes → active_return w = true →
  let ts := map (λ l, convert_to_numpy_parameters
                        (recompute_trainable (store w l))) tapes in
  (Autograd.execute tapes dev execute_fn gradient_fn kw n max_diff w).1
    = (r ← execute_fn ts (Some kw); Ret r.1) ∧
  events (Autograd.execute tapes dev execute_fn gradient_fn kw n max_diff) w
    = [Enter AutogradExecute n max_diff tapes;
       CallExecuteFn ForwardPass ts (Some kw)].
Proof.
  intros Hall Hactive ts.
  destruct (autograd_execute_forward_run tapes dev execute_fn gradient_fn kw n
              max_diff w Hall Hactive) as (w' & Hrun & Htr).
  exact (events_of_run _ _ _ _ _ Hrun Htr).
Qed.

Lemma convert_results_too_many (ts : list tape) (res : list value) :
  (length ts < length res)%nat →
  mapO (λ ir : nat * value,
          t ← getitem ts ir.1; Ret (Autograd.convert_result t ir.2))
       (imap pair res)
    = Raise IndexError.
Proof.
  intros Hlen.
  match goal with |- ?o = _ => destruct o as [ys|e] eqn:Hrun end.
  - exfalso. apply mapO_all_ret in Hrun as [_ Hret].
    destruct (lookup_lt_is_Some_2 res (length ts)) as [r Hr]; [lia|].
    assert (Hin : (length ts, r) ∈ imap pair res).
    { apply list_elem_of_lookup. exists (length ts).
      by rewrite list_lookup_imap, Hr. }
    specialize (Hret _ Hin). cbn [fst snd] in Hret. unfold getitem in Hret.
    by rewrite (lookup_ge_None_2 ts (length ts)) in Hret by lia.
  - f_equal.
    assert (Hr : raises (λ e, e = IndexError)
              (mapO (λ ir : nat * value,
                       t ← getitem ts ir.1;
                       Ret (Autograd.convert_result t ir.2))
                    (imap pair res))).
    { apply raises_mapO. intros ir.
      apply raises_bind; [by apply raises_getitem | intros t].
      apply raises_ret. }
    exact (Hr e Hrun).
Qed.

Lemma autograd_execute_legacy_run
    tapes dev execute_fn gradient_fn kw n max_diff w :
  allocated w tapes →
  let batch := map (λ l, recompute_trainable (store w l)) tapes in
  let ts := map convert_to_numpy_parameters batch in
  (Autograd._execute_legacy tapes dev execute_fn gradient_fn kw n max_diff w).1
    = (r ← execute_fn ts (Some kw);
       if bool_decide (length r.1 ≤ length tapes)%nat
       then Ret (zip_with Autograd.convert_result batch r.1)
       else Raise IndexError) ∧
  events (Autograd._execute_legacy tapes dev execute_fn gradient_fn kw n
            max_diff) w
    = [Enter AutogradExecuteLegacy n max_diff tapes;
       CallExecuteFn ForwardPass ts (Some kw)].
Proof.
  intros Hall batch ts. unfold events, Autograd._execute_legacy.
  rewrite bind_run. cbn [log fst snd]. rewrite bind_run.
  match goal with |- context [for_each set_trainable_params tapes ?w0] =>
    destruct (set_trainable_loop_run tapes w0) as (st & -> & Hst) end.
  cbn [fst snd store next_loc active_return trace] in *.
  rewrite bind_run, trainable_parameters_run. cbn [fst snd]. rewrite bind_run.
  unfold Autograd.__execute_legacy.
  set (w1 := World st (next_loc w) (active_return w)
               (trace w ++ [Enter AutogradExecuteLegacy n max_diff tapes])).
  destruct (autograd_forward_call tapes execute_fn kw
              (λ r : list value * list value,
                 ts ← load_all tapes;
                 res ← lift (mapO (λ ir : nat * value,
                                     t ← getitem ts ir.1;
                                     Ret (Autograd.convert_result t ir.2))
                                  (imap pair r.1));
                 mret (res, r.2)) w1 Hall)
    as (w' & Hk & Htr & ->).
  assert (Hbatch : map st tapes = batch).
  { apply map_ext_in. intros l Hl%list_elem_of_In.
    by rewrite Hst, annotated_in. }
  cbn [store w1] in Htr |- *.
  rewrite <- (map_map st convert_to_numpy_parameters), Hbatch in Htr |- *.
  fold ts in Htr |- *.
  assert (Hev : drop (length (trace w)) (trace w')
                = [Enter AutogradExecuteLegacy n max_diff tapes;
                   CallExecuteFn ForwardPass ts (Some kw)]).
  { rewrite Htr. cbn [trace w1]. rewrite <- app_assoc.
    by rewrite drop_app_length. }
  destruct (execute_fn ts (Some kw)) as [[res jacs]|e];
    cbn [fst snd mbind outcome_bind]; [|done].
  rewrite bind_run, load_all_run. cbn [fst snd]. rewrite bind_run.
  assert (Hts' : map (store w') tapes = batch).
  { rewrite <- Hbatch. apply map_ext_in. intros l Hl.
    destruct Hk as (_ & _ & Hs). rewrite Hs; [done|]. cbn [next_loc w1].
    unfold allocated in Hall. rewrite Forall_forall in Hall. by apply Hall. }
  rewrite Hts'. unfold lift. cbn [fst snd].
  case_bool_decide as Hlen.
  - rewrite convert_results_run by (unfold batch; by rewrite length_map).
    cbn [fst snd mret M_ret]. done.
  - rewrite convert_results_too_many by (unfold batch; rewrite length_map; lia).
    done.
Qed.

(** X12: the forward pass of the legacy path of the Autograd interface,
    called directly or through [execute] when the return mode is the old
    one.  The backend is called once, with [gradient_kwargs], on converted
    copies of the tapes taken after their trainable parameters have been
    set.  When it returns at most as many results as there are tapes, each
    result is converted for its tape ([convert_result]); when it returns
    more, the loop raises [IndexError]; what the backend raises is
    passed on. *)
Theorem autograd_legacy_forward
    tapes dev execute_fn gradient_fn kw n max_diff w :
  allocated w tapes →
  let batch := map (λ l, recompute_trainable (store w l)) tapes in
  let ts := map convert_to_numpy_parameters batch in
  let converted : outcome (list value) :=
    r ← execute_fn ts (Some kw);
    if bool_decide (length r.1 ≤ length tapes)%nat
    then Ret (zip_with Autograd.convert_result batch r.1)
    else Raise IndexError in
  (Autograd._execute_legacy tapes dev execute_fn gradient_fn kw n max_diff w).1
    = converted ∧
  events (Autograd._execute_legacy tapes dev execute_fn gradient_fn kw n
            max_diff) w
    = [Enter AutogradExecuteLegacy n max_diff tapes;
       CallExecuteFn ForwardPass ts (Some kw)] ∧
  (active_return w = false →
   (Autograd.execute tapes dev execute_fn gradient_fn kw n max_diff w).1
     = converted ∧
   events (Autograd.execute tapes dev execute_fn gradient_fn kw n max_diff) w
     = [Enter AutogradExecute n max_diff tapes;
        Enter AutogradExecuteLegacy n max_diff tapes;
        CallExecuteFn ForwardPass ts (Some kw)]).
Proof.
  intros Hall batch ts converted.
  destruct (autograd_execute_legacy_run tapes dev execute_fn gradient_fn kw n
              max_diff w Hall) as [Hres Hev].
  split; [exact Hres|]. split; [exact Hev|].
  intros Hactive. unfold events, Autograd.execute.
  rewrite bind_run. cbn [log fst snd]. rewrite bind_run.
  cbn [get_active_return fst snd active_return]. rewrite Hactive. cbn [negb].
  set (w0 := World (store w) (next_loc w) false
               (trace w ++ [Enter AutogradExecute n max_diff tapes])).
  destruct (autograd_execute_legacy_run tapes dev execute_fn gradient_fn kw n
              max_diff w0 Hall) as [Hres0 Hev0].
  split; [exact Hres0|].
  unfold events in Hev0. cbn [trace w0] in Hev0.
  rewrite length_app in Hev0. cbn [length] in Hev0.
  destruct (starts_log_bind (Enter AutogradExecuteLegacy n max_diff tapes)
              (λ _, _ ← for_each set_trainable_params tapes;
                    parameters ← trainable_parameters tapes;
                    r ← Autograd.__execute_legacy parameters tapes execute_fn kw;
                    mret r.1) w0) as (evs & Hevs).
  { intros _. sat_steps; intros;
      first [ exact I | apply raises_anything | apply appends_same
            | by apply (appends_log (λ _, True)) ]. }
  change ((log (Enter AutogradExecuteLegacy n max_diff tapes) ≫= _) w0)
    with (Autograd._execute_legacy tapes dev execute_fn gradient_fn kw n
            max_diff w0) in Hevs.
  rewrite Hevs in Hev0 |- *. cbn [trace w0] in Hev0 |- *.
  rewrite <- app_assoc in Hev0 |- *. cbn [app] in Hev0 |- *.
  rewrite drop_app_length. rewrite drop_app_add in Hev0. cbn [drop] in Hev0.
  by rewrite Hev0.
Qed.

Lemma zip_with_map_same {A B C D} (f : B → C → D) (g : A → B) (h : A → C) l :
  zip_with f (map g l) (map h l) = map (λ x, f (g x) (h x)) l.
Proof. induction l as [|x l IH]; cbn; [done | by rewrite IH]. Qed.

(** The world after the first steps of the JAX entry points: the record
    of the call, and the trainable parameters set when the depth is 1. *)
Lemma jax_annotate_run n tapes w e :
  ∃ st,
    (if bool_decide (n = 1) then for_each set_trainable_params tapes
     else mret ())
      (World (store w) (next_loc w) (active_return w) (trace w ++ [e]))
    = (Ret (), World st (next_loc w) (active_return w) (trace w ++ [e])) ∧
    ∀ l, st l = jax_annotated n tapes (store w) l.
Proof.
  unfold jax_annotated. case_bool_decide.
  - match goal with |- context [for_each set_trainable_params tapes ?w0] =>
      destruct (set_trainable_loop_run tapes w0) as (st & -> & Hst) end.
    by exists st.
  - by exists (store w).
Qed.

(** The forward pass of [execute] of the JAX interface as a run: its
    outcome and what it adds to the record of calls. *)
Lemma jax_execute_forward_run
    tapes dev execute_fn gradient_fn kw n max_diff w :
  allocated w tapes →
  let batch := map (jax_annotated n tapes (store w)) tapes in
  let ts := map forward_tape batch in
  let partitioned : outcome bool :=
    match gradient_fn, dev with
    | None, _ => Ret false
    | Some _, LegacyDevice sv => Ret (truthy_shots sv)
    | Some _, ExperimentalDevice =>
        t0 ← getitem batch 0; Ret (has_partitioned_shots (shots t0))
    end in
  ∃ w',
    Jax.execute tapes dev execute_fn gradient_fn kw n max_diff w
    = (hp ← partitioned;
       r ← execute_fn ts (Some kw);
       if hp : bool then Jax._to_jax_shot_vector r.1
       else Ret (Jax._to_jax r.1), w') ∧
    trace w' = trace w ++
      Enter JaxExecute n max_diff tapes ::
      (if is_ret partitioned then [CallExecuteFn ForwardPass ts (Some kw)]
       else []).
Proof.
  intros Hall batch ts partitioned. unfold Jax.execute.
  rewrite bind_run. cbn [log fst snd]. rewrite bind_run.
  destruct (jax_annotate_run n tapes w (Enter JaxExecute n max_diff tapes))
    as (st & -> & Hst).
  cbn [fst snd]. rewrite bind_run, trainable_parameters_run.
  cbn [fst snd store].
  assert (Hbatch : map st tapes = batch).
  { apply map_ext. intros l. apply Hst. }
  set (w1 := World st (next_loc w) (active_return w)
                   (trace w ++ [Enter JaxExecute n max_diff tapes])).
  assert (Hts : zip_with (substituted true) (map (store w1) tapes)
                  (map (λ l, get_parameters (st l) true) tapes) = ts).
  { cbn [store w1]. rewrite zip_with_map_same. unfold ts.
    rewrite <- Hbatch, map_map. done. }
  assert (Hfinal : ∀ w', trace w' = trace w1 ++ [CallExecuteFn ForwardPass ts (Some kw)] →
            trace w' = trace w ++
               [Enter JaxExecute n max_diff tapes;
                CallExecuteFn ForwardPass ts (Some kw)]).
  { intros w' ->. cbn [trace w1]. by rewrite <- app_assoc. }
  destruct gradient_fn as [g|].
  - unfold Jax._execute_bwd. rewrite bind_run.
    assert (Hshots : Jax.bwd_shots dev tapes w1
              = (match dev with
                 | LegacyDevice sv => Ret (truthy_shots sv, sv)
                 | ExperimentalDevice =>
                     t0 ← getitem batch 0;
                     Ret (has_partitioned_shots (shots t0), None)
                 end, w1)).
    { unfold Jax.bwd_shots. destruct dev as [|sv]; [|done].
      rewrite bind_run, load_all_run. cbn [fst snd store w1].
      rewrite Hbatch, bind_run. unfold lift.
      by destruct (getitem batch 0). }
    rewrite Hshots. subst partitioned. cbn [fst snd].
    assert (Hwrap : ∀ hp : bool, ∃ w',
      Jax._execute_bwd_execute_wrapper tapes execute_fn kw hp
         (map (λ l, get_parameters (st l) true) tapes) w1
      = (r ← execute_fn ts (Some kw);
         if hp then Jax._to_jax_shot_vector r.1 else Ret (Jax._to_jax r.1),
         w') ∧
      trace w' = trace w ++
        [Enter JaxExecute n max_diff tapes;
         CallExecuteFn ForwardPass ts (Some kw)]).
    { intros hp. unfold Jax._execute_bwd_execute_wrapper.
      destruct (jax_forward_call tapes
                  (map (λ l, get_parameters (st l) true) tapes) execute_fn kw
                  (λ r : list value * list value,
                     if hp then lift (Jax._to_jax_shot_vector r.1)
                     else mret (Jax._to_jax r.1)) w1 Hall)
        as (w' & _ & Htr & ->).
      rewrite Hts in Htr |- *. exists w'. split; [|by apply Hfinal].
      destruct (execute_fn ts (Some kw)) as [r|e]; cbn [mbind outcome_bind];
        [by destruct hp | done]. }
    destruct dev as [|sv]; cbn [mbind outcome_bind is_ret fst snd].
    + destruct (getitem batch 0) as [t0|e]; cbn [mbind outcome_bind is_ret fst snd].
      * apply Hwrap.
      * by exists w1.
    + apply Hwrap.
  - subst partitioned. cbn [mbind outcome_bind is_ret].
    unfold Jax._execute_fwd. rewrite bind_run.
    unfold Jax._execute_fwd_execute_wrapper.
    destruct (jax_forward_call tapes
                (map (λ l, get_parameters (st l) true) tapes) execute_fn kw
                (λ r : list value * list value, mret (Jax._to_jax r.1, r.2))
                w1 Hall)
      as (w' & _ & Htr & ->).
    rewrite Hts in Htr |- *. exists w'.
    split; [|by apply Hfinal].
    by destruct (execute_fn ts (Some kw)) as [r|e].
Qed.

(** X13: the forward pass of [execute] of the JAX interface.  Each tape is
    copied with its own trainable parameters bound and converted (the
    trainable parameters being set first when the depth is 1), and the
    backend is called once on the copies, with [gradient_kwargs].  Without a
    gradient rule the results are converted by [_to_jax] and a shot vector
    is not looked at; with one, they are converted by [_to_jax_shot_vector]
    when the shots are partitioned, as the shot vector of the device says,
    or the first tape of the batch for an experimental device.  For such a
    device an empty batch raises [IndexError] before the backend is
    called. *)
Theorem jax_execute_forward
    tapes dev execute_fn gradient_fn kw n max_diff w :
  allocated w tapes →
  let batch := map (jax_annotated n tapes (store w)) tapes in
  let ts := map forward_tape batch in
  let partitioned : outcome bool :=
    match gradient_fn, dev with
    | None, _ => Ret false
    | Some _, LegacyDevice sv => Ret (truthy_shots sv)
    | Some _, ExperimentalDevice =>
        t0 ← getitem batch 0; Ret (has_partitioned_shots (shots t0))
    end in
  (Jax.execute tapes dev execute_fn gradient_fn kw n max_diff w).1
    = (hp ← partitioned;
       r ← execute_fn ts (Some kw);
       if hp : bool then Jax._to_jax_shot_vector r.1
       else Ret (Jax._to_jax r.1)) ∧
  events (Jax.execute tapes dev execute_fn gradient_fn kw n max_diff) w
    = Enter JaxExecute n max_diff tapes ::
      (if is_ret partitioned then [CallExecuteFn ForwardPass ts (Some kw)]
       else []).
Proof.
  intros Hall batch ts partitioned.
  destruct (jax_execute_forward_run tapes dev execute_fn gradient_fn kw n
              max_diff w Hall) as (w' & Hrun & Htr).
  exact (events_of_run _ _ _ _ _ Hrun Htr).
Qed.

Lemma validate_tapes_pass tapes w :
  Forall (λ l, Jax._validate_tape (store w l) = Ret ()) tapes →
  Jax._validate_tapes tapes w = (Ret (), w).
Proof.
  unfold Jax._validate_tapes.
  induction 1 as [|l ls Hl _ IH]; cbn [for_each]; [done|].
  rewrite bind_run, bind_run. cbn [load lift fst snd]. by rewrite Hl.
Qed.

(** X14: the forward pass of [execute_legacy] of the JAX interface, once
    its checks have passed.  The backend is called once, with
    [gradient_kwargs], on copies of the tapes with their own trainable
    parameters bound and converted.  With a gradient rule and more than one
    tape each result is converted for its tape by [array_if_not_counts];
    with one tape the whole list of results is converted for that tape; with
    no tape [tapes[0]] raises [IndexError], after the backend has been
    called.  Without a gradient rule and with more than one tape the
    converted results are returned and the Jacobians are dropped, whatever
    they are; otherwise the results are returned alone unless the results
    or the Jacobians are traced, in which case both are. *)
Theorem jax_execute_legacy_forward
    tapes dev execute_fn gradient_fn kw n max_diff w :
  allocated w tapes → max_diff ≤ 1 →
  Forall (λ l, Jax._validate_tape (store w l) = Ret ()) tapes →
  let batch := map (jax_annotated n tapes (store w)) tapes in
  let ts := map forward_tape batch in
  (Jax.execute_legacy tapes dev execute_fn gradient_fn kw n max_diff w).1
    = (r ← execute_fn ts (Some kw);
       match gradient_fn with
       | Some _ =>
           if bool_decide (1 < length tapes)%nat then
             rs ← mapO (λ tr, Jax.array_if_not_counts tr.1 tr.2)
                       (zip batch r.1);
             Ret (VList rs)
           else
             t0 ← getitem batch 0;
             Jax.array_if_not_counts t0 (VList r.1)
       | None =>
           if bool_decide (1 < length tapes)%nat then
             Ret (VList (map jnp_array r.1))
           else
             let res := jnp_array (VList r.1) in
             let jacs := jnp_array (VList r.2) in
             Ret (if is_JVPTracer res || is_JVPTracer jacs
                  then VTuple [res; jacs] else res)
       end) ∧
  events (Jax.execute_legacy tapes dev execute_fn gradient_fn kw n max_diff) w
    = [Enter JaxExecuteLegacy n max_diff tapes;
       CallExecuteFn ForwardPass ts (Some kw)].
Proof.
  intros Hall Hmax Hvalid batch ts. unfold events, Jax.execute_legacy.
  rewrite bind_run. cbn [log fst snd].
  rewrite bool_decide_eq_false_2 by lia.
  rewrite bind_run, validate_tapes_pass by exact Hvalid.
  cbn [fst snd]. rewrite bind_run.
  destruct (jax_annotate_run n tapes w (Enter JaxExecuteLegacy n max_diff tapes))
    as (st & -> & Hst).
  cbn [fst snd]. rewrite bind_run, trainable_parameters_run.
  cbn [fst snd store].
  assert (Hbatch : map st tapes = batch).
  { apply map_ext. intros l. apply Hst. }
  set (w1 := World st (next_loc w) (active_return w)
                   (trace w ++ [Enter JaxExecuteLegacy n max_diff tapes])).
  assert (Hts : zip_with (substituted true) (map (store w1) tapes)
                  (map (λ l, get_parameters (st l) true) tapes) = ts).
  { cbn [store w1]. rewrite zip_with_map_same. unfold ts.
    rewrite <- Hbatch, map_map. done. }
  assert (Hfinal : ∀ w', trace w' = trace w1 ++ [CallExecuteFn ForwardPass ts (Some kw)] →
            drop (length (trace w)) (trace w')
            = [Enter JaxExecuteLegacy n max_diff tapes;
               CallExecuteFn ForwardPass ts (Some kw)]).
  { intros w' ->. cbn [trace w1]. rewrite <- app_assoc.
    by rewrite drop_app_length. }
  destruct gradient_fn as [g|].
  - unfold Jax._execute_legacy, Jax._execute_legacy_wrapped_exec.
    destruct (jax_forward_call tapes
                (map (λ l, get_parameters (st l) true) tapes) execute_fn kw
                (λ r : list value * list value,
                   ts ← load_all tapes;
                   if bool_decide (1 < length tapes)%nat then
                     rs ← lift (mapO (λ tr, Jax.array_if_not_counts tr.1 tr.2)
                                     (zip ts r.1));
                     mret (VList rs)
                   else
                     t0 ← lift (getitem ts 0);
                     lift (Jax.array_if_not_counts t0 (VList r.1)))
                w1 Hall)
      as (w' & Hk & Htr & ->).
    rewrite Hts in Htr |- *.
    destruct (execute_fn ts (Some kw)) as [r|e]; cbn [mbind outcome_bind];
      [|split; [done | by apply Hfinal]].
    rewrite bind_run, load_all_run. cbn [fst snd].
    assert (Hts' : map (store w') tapes = batch).
    { rewrite <- Hbatch. apply map_ext_in. intros l Hl.
      destruct Hk as (_ & _ & Hs). rewrite Hs; [done|]. cbn [next_loc w1].
      unfold allocated in Hall. rewrite Forall_forall in Hall. by apply Hall. }
    rewrite Hts'. case_bool_decide.
    + rewrite bind_run. unfold lift.
      destruct (mapO _ (zip batch r.1)); cbn [fst snd mret M_ret];
        (split; [done | by apply Hfinal]).
    + rewrite bind_run. unfold lift.
      destruct (getitem batch 0); cbn [fst snd mbind outcome_bind];
        (split; [done | by apply Hfinal]).
  - unfold Jax._execute_fwd_legacy. rewrite bind_run.
    unfold Jax._execute_fwd_legacy_wrapped_exec.
    destruct (jax_forward_call tapes
                (map (λ l, get_parameters (st l) true) tapes) execute_fn kw
                (λ r : list value * list value,
                   if bool_decide (1 < length tapes)%nat then
                     mret (VList (map jnp_array r.1), VList (map jnp_array r.2))
                   else
                     mret (jnp_array (VList r.1), jnp_array (VList r.2)))
                w1 Hall)
      as (w' & Hk & Htr & ->).
    rewrite Hts in Htr |- *.
    destruct (execute_fn ts (Some kw)) as [r|e]; cbn [mbind outcome_bind];
      [|split; [done | by apply Hfinal]].
    case_bool_decide; cbn [mret M_ret fst snd existsb is_JVPTracer orb
                           length bool_decide andb negb].
    + split; [done | by apply Hfinal].
    + rewrite orb_false_r.
      destruct (is_JVPTracer (jnp_array (VList r.1))
                || is_JVPTracer (jnp_array (VList r.2)));
        cbn [negb andb mret M_ret fst snd];
        (split; [reflexivity | by apply Hfinal]).
Qed.

End ForwardPass.

(** ** The backward and tangent rules, branch by branch *)

Section BackwardRules.
Context `{Library}.

Lemma bind_snd_const {A B C} (m : M A) (f : A → B) (c : C) w v c' :
  ((x ← m; mret (f x, c)) w).1 = Ret (v, c') → c' = c.
Proof.
  rewrite bind_run. destruct (m w) as [[a|e] w']; cbn; congruence.
Qed.

(** X15: when the forward pass has left Jacobians and the Jacobian cache is
    not used (the rule is not named param_shift, or the depth is not the
    ceiling, or there is no rule), the backward rules of the Autograd
    interface contract the cotangents with those Jacobians and do nothing
    else: no call is recorded, no object is created, and the cache is
    returned as it was. *)
Theorem forward_jacobians_short_circuit
    ans tapes dev execute_fn gradient_fn kw n max_diff
    (c : Autograd.cache) dy w :
  Autograd.cache_worthy gradient_fn n max_diff = false → ans.2 ≠ [] →
  Autograd.vjp_grad_fn ans tapes dev execute_fn gradient_fn kw n max_diff
                       c dy w
  = (sh ← Autograd.grad_shots dev (map (store w) tapes);
     vjps ← Autograd._compute_vjps_autograd ans.2 dy.1
              (map multi_measurement (map (store w) tapes)) sh.1;
     Ret (Autograd.return_vjps n vjps, c),
     w) ∧
  Autograd._vjp_legacy_grad_fn ans tapes dev execute_fn gradient_fn kw n
                               max_diff c dy w
  = (Ret (Autograd.return_vjps n
            (map (λ dj, compute_vjp dj.1 dj.2)
                 (zip (map math_T dy.1) ans.2)),
          c),
     w).
Proof.
  intros Hcw Hans. split.
  - unfold Autograd.vjp_grad_fn. rewrite bind_run, load_all_run.
    cbn [fst snd]. rewrite bind_run. unfold lift at 1.
    destruct (Autograd.grad_shots dev (map (store w) tapes))
      as [[hps vjp_shots]|e]; [|done].
    cbn [fst snd mbind outcome_bind].
    destruct gradient_fn as [g|]; rewrite ?Hcw, bind_run;
      cbn [mret M_ret fst snd];
      (destruct (ans.2) as [|j jacs] eqn:Hj; [done|]); cbn [Autograd.truthy];
      rewrite bind_run; unfold lift;
      by destruct (Autograd._compute_vjps_autograd _ _ _ _).
  - unfold Autograd._vjp_legacy_grad_fn. cbn zeta.
    destruct gradient_fn as [g|]; rewrite ?Hcw, bind_run;
      cbn [mret M_ret fst snd];
      (destruct (ans.2) as [|j jacs] eqn:Hj; [done|]); cbn [Autograd.truthy];
      by rewrite bind_run.
Qed.

Lemma cache_worthy_spec gradient_fn n max_diff :
  (∀ g, gradient_fn = Some g → rule_name g ≠ "param_shift" ∨ n ≠ max_diff) →
  Autograd.cache_worthy gradient_fn n max_diff = false.
Proof.
  intros Hno. destruct gradient_fn as [g|]; [|done].
  apply cache_worthy_false. destruct (Hno g eq_refl); auto.
Qed.

Ltac jac_free_run :=
  sat_steps; intros;
  first [ exact I | apply raises_anything | apply appends_same
        | by apply (appends_log jac_free) ].

Lemma autograd_rule_jac_free ans tapes dev execute_fn gradient_fn kw n max_diff c dy :
  Autograd.cache_worthy gradient_fn n max_diff = false →
  sat (appends jac_free) anything
    (Autograd.vjp_grad_fn ans tapes dev execute_fn gradient_fn kw n max_diff c dy).
Proof.
  intros Hcw. unfold Autograd.vjp_grad_fn.
  destruct gradient_fn as [g|]; rewrite ?Hcw; jac_free_run.
Qed.

Lemma autograd_legacy_rule_jac_free ans tapes dev execute_fn gradient_fn kw n max_diff c dy :
  Autograd.cache_worthy gradient_fn n max_diff = false →
  sat (appends jac_free) anything
    (Autograd._vjp_legacy_grad_fn ans tapes dev execute_fn gradient_fn kw n
       max_diff c dy).
Proof.
  intros Hcw. unfold Autograd._vjp_legacy_grad_fn.
  destruct gradient_fn as [g|]; rewrite ?Hcw; jac_free_run.
Qed.

Lemma autograd_rule_cache_same ans tapes dev execute_fn gradient_fn kw n max_diff
    (c : Autograd.cache) dy w v c' :
  Autograd.cache_worthy gradient_fn n max_diff = false →
  (Autograd.vjp_grad_fn ans tapes dev execute_fn gradient_fn kw n max_diff c
     dy w).1 = Ret (v, c') →
  c' = c.
Proof.
  intros Hcw. unfold Autograd.vjp_grad_fn. rewrite bind_run, load_all_run.
  cbn [fst snd]. rewrite bind_run. unfold lift at 1.
  destruct (Autograd.grad_shots dev (map (store w) tapes))
    as [[hps vjp_shots]|e]; [|done].
  cbn [fst snd].
  destruct gradient_fn as [g|]; rewrite ?Hcw, bind_run;
    cbn [mret M_ret fst snd]; apply bind_snd_const.
Qed.

Lemma autograd_legacy_rule_cache_same ans tapes dev execute_fn gradient_fn kw n
    max_diff (c : Autograd.cache) dy w v c' :
  Autograd.cache_worthy gradient_fn n max_diff = false →
  (Autograd._vjp_legacy_grad_fn ans tapes dev execute_fn gradient_fn kw n
     max_diff c dy w).1 = Ret (v, c') →
  c' = c.
Proof.
  intros Hcw. unfold Autograd._vjp_legacy_grad_fn. cbn zeta.
  destruct gradient_fn as [g|]; rewrite ?Hcw, bind_run;
    cbn [mret M_ret fst snd]; apply bind_snd_const.
Qed.

(** X16: the Jacobian cache is reserved for the rule named param_shift at
    the ceiling.  For any other rule, at any other depth, or without a rule,
    the backward rules of the Autograd interface never call the backend from
    the cache, and a call that returns hands the cache back as it
    received it. *)
Theorem cache_reserved_for_param_shift
    ans tapes dev execute_fn gradient_fn kw n max_diff
    (c : Autograd.cache) dy w :
  (∀ g, gradient_fn = Some g → rule_name g ≠ "param_shift" ∨ n ≠ max_diff) →
  (Forall jac_free
     (events (Autograd.vjp_grad_fn ans tapes dev execute_fn gradient_fn kw n
                max_diff c dy) w) ∧
   ∀ v c',
     (Autograd.vjp_grad_fn ans tapes dev execute_fn gradient_fn kw n max_diff
        c dy w).1 = Ret (v, c') → c' = c) ∧
  (Forall jac_free
     (events (Autograd._vjp_legacy_grad_fn ans tapes dev execute_fn
                gradient_fn kw n max_diff c dy) w) ∧
   ∀ v c',
     (Autograd._vjp_legacy_grad_fn ans tapes dev execute_fn gradient_fn kw n
        max_diff c dy w).1 = Ret (v, c') → c' = c).
Proof.
  intros Hcw%cache_worthy_spec. split_and!.
  - by apply sat_events, autograd_rule_jac_free.
  - intros v c'. by apply autograd_rule_cache_same.
  - by apply sat_events, autograd_legacy_rule_jac_free.
  - intros v c'. by apply autograd_legacy_rule_cache_same.
Qed.

(** X17: the backward rules of the Autograd interface at the ceiling, for a
    gradient transform that is not named param_shift, when the forward pass
    left no Jacobians.  The VJP tapes are built from converted copies of the
    tapes ([shots] being passed along in the current path, and the
    cotangents transposed in the legacy path), the backend is called once
    on them, without keyword arguments, and the processing function is
    applied to its results; nothing else is called. *)
Theorem autograd_transform_at_max_diff
    ans tapes dev execute_fn g kw n (c : Autograd.cache) dy w :
  is_gradient_transform g = true → rule_name g ≠ "param_shift" →
  ans.2 = [] → allocated w tapes →
  let ts := map (λ l, convert_to_numpy_parameters (store w l)) tapes in
  ((Autograd.vjp_grad_fn ans tapes dev execute_fn (Some g) kw n n c dy w).1
     = (sh ← Autograd.grad_shots dev (map (store w) tapes);
        let vjp := batch_vjp ts dy.1 g (Some sh.2) kw in
        r ← execute_fn vjp.1 None;
        Ret (Autograd.return_vjps n (vjp.2 r.1), c)) ∧
   ∀ sh, Autograd.grad_shots dev (map (store w) tapes) = Ret sh →
     events (Autograd.vjp_grad_fn ans tapes dev execute_fn (Some g) kw n n c
               dy) w
     = [CallExecuteFn GradientTapes (batch_vjp ts dy.1 g (Some sh.2) kw).1
                      None]) ∧
  (let vjp := batch_vjp ts (map math_T dy.1) g None kw in
   (Autograd._vjp_legacy_grad_fn ans tapes dev execute_fn (Some g) kw n n c
      dy w).1
     = (r ← execute_fn vjp.1 None;
        Ret (Autograd.return_vjps n (vjp.2 r.1), c)) ∧
   events (Autograd._vjp_legacy_grad_fn ans tapes dev execute_fn (Some g) kw
             n n c dy) w
     = [CallExecuteFn GradientTapes vjp.1 None]).
Proof.
  intros Hg Hname Hans Hall ts.
  assert (Hcw : Autograd.cache_worthy (Some g) n n = false)
    by (apply cache_worthy_false; auto).
  split.
  - unfold events, Autograd.vjp_grad_fn. rewrite Hcw, bind_run, load_all_run.
    cbn [fst snd]. rewrite bind_run.
    change (lift (Autograd.grad_shots dev (map (store w) tapes)) w)
      with (Autograd.grad_shots dev (map (store w) tapes), w).
    destruct (Autograd.grad_shots dev (map (store w) tapes))
      as [[hps vjp_shots]|e]; cbn [fst snd mbind outcome_bind];
      [|split; [done | by intros sh [=]]].
    rewrite bind_run. cbn [mret M_ret fst snd]. rewrite Hans.
    cbn [Autograd.truthy]. rewrite Hg, (bool_decide_eq_true_2 (n = n)) by done.
    rewrite bind_run, bind_run.
    destruct (unwrap_tapes_run tapes w) as (nls & w1 & -> & Hk1 & Htr1 & Hv).
    cbn [fst snd]. rewrite bind_run, load_all_run. cbn [fst snd].
    rewrite (Hv Hall). fold ts.
    destruct (batch_vjp ts dy.1 g (Some vjp_shots) kw)
      as [vjp_tapes processing_fn] eqn:Hvjp.
    rewrite bind_run.
    destruct (alloc_all_run vjp_tapes w1) as (locs & w2 & -> & Htr2).
    cbn [fst snd]. rewrite bind_run, call_execute_fn_run. cbn [fst snd].
    assert (Hev : ∀ sh, Ret (A:=bool * option shot_vector_t) (hps, vjp_shots) = Ret sh →
              drop (length (trace w))
                (trace w2 ++ [CallExecuteFn GradientTapes vjp_tapes None])
              = [CallExecuteFn GradientTapes
                   (batch_vjp ts dy.1 g (Some sh.2) kw).1 None]).
    { intros sh [= <-]. cbn [snd]. rewrite Hvjp, Htr2, Htr1. cbn [fst].
      by rewrite drop_app_length. }
    destruct (execute_fn vjp_tapes None) as [r|e];
      cbn [fst snd mret M_ret mbind outcome_bind trace]; by split.
  - cbn zeta. unfold events, Autograd._vjp_legacy_grad_fn. rewrite Hcw.
    cbn zeta. rewrite bind_run. cbn [mret M_ret fst snd]. rewrite Hans.
    cbn [Autograd.truthy]. rewrite Hg, (bool_decide_eq_true_2 (n = n)) by done.
    rewrite bind_run, bind_run.
    destruct (unwrap_tapes_run tapes w) as (nls & w1 & -> & Hk1 & Htr1 & Hv).
    cbn [fst snd]. rewrite bind_run, load_all_run. cbn [fst snd].
    rewrite (Hv Hall). fold ts.
    destruct (batch_vjp ts (map math_T dy.1) g None kw)
      as [vjp_tapes processing_fn] eqn:Hvjp.
    rewrite bind_run.
    destruct (alloc_all_run vjp_tapes w1) as (locs & w2 & -> & Htr2).
    cbn [fst snd]. rewrite bind_run, call_execute_fn_run. cbn [fst snd].
    destruct (execute_fn vjp_tapes None) as [r|e];
      cbn [fst snd mret M_ret mbind outcome_bind trace];
      (split; [done|]); rewrite Htr2, Htr1; by rewrite drop_app_length.
Qed.

(** X18: the tangent rule of the JAX interface at the ceiling, for a
    gradient transform.  The JVP tapes are built from copies of the tapes
    with the primals bound and converted; the backend runs the JVP tapes
    first, without keyword arguments, and then the forward pass, with them;
    when the JVP tapes fail, the forward pass is not run. *)
Theorem jax_transform_tangent_at_max_diff
    tapes dev execute_fn g kw n (hp : bool) sv primals tangents w :
  is_gradient_transform g = true → allocated w tapes →
  let ts := zip_with (substituted true) (map (store w) tapes) primals in
  let jvp := batch_jvp ts (map VList tangents) g (Some sv) kw in
  (Jax._execute_bwd_execute_wrapper_jvp tapes dev execute_fn g kw n n
     hp sv primals tangents w).1
    = (partial ← execute_fn jvp.1 None;
       r ← execute_fn ts (Some kw);
       res ← (if hp then Jax._to_jax_shot_vector r.1
              else Ret (Jax._to_jax r.1));
       Ret (res, jvp.2 partial.1)) ∧
  events (Jax._execute_bwd_execute_wrapper_jvp tapes dev execute_fn g kw n n
            hp sv primals tangents) w
    = CallExecuteFn GradientTapes jvp.1 None ::
      (if is_ret (execute_fn jvp.1 None)
       then [CallExecuteFn ForwardPass ts (Some kw)] else []).
Proof.
  intros Hg Hall ts jvp. unfold events, Jax._execute_bwd_execute_wrapper_jvp.
  rewrite Hg, (bool_decide_eq_true_2 (n = n)) by done. rewrite bind_run.
  destruct (set_parameters_values true tapes primals w Hall)
    as (nls & w1 & -> & Hk1 & Htr1 & Hv).
  cbn [fst snd]. rewrite bind_run, load_all_run. cbn [fst snd].
  rewrite Hv. fold ts. fold jvp.
  destruct jvp as [jvp_tapes processing_fn] eqn:Hjvp. cbn [fst snd].
  rewrite bind_run.
  destruct (alloc_all_keeps jvp_tapes w1) as (locs & w2 & Hal & Hk2).
  destruct (alloc_all_run jvp_tapes w1) as (locs' & w2' & Hal' & Htr2).
  rewrite Hal in Hal'. injection Hal' as <- <-. rewrite Hal.
  cbn [fst snd]. rewrite bind_run, bind_run, call_execute_fn_run.
  cbn [fst snd].
  destruct (execute_fn jvp_tapes None) as [partial|e];
    cbn [fst snd mbind outcome_bind is_ret mret M_ret].
  2:{ split; [done|]. cbn [trace]. rewrite Htr2, Htr1.
      by rewrite drop_app_length. }
  rewrite bind_run.
  set (w3 := World (store w2) (next_loc w2) (active_return w2)
               (trace w2 ++ [CallExecuteFn GradientTapes jvp_tapes None])).
  assert (Hk3 : keeps_objects w w3).
  { etransitivity; [exact Hk1|]. etransitivity; [exact Hk2|]. apply keeps_log. }
  destruct (allocated_keeps _ _ _ Hk3 Hall) as [Hall3 Hst3].
  destruct (jax_bwd_wrapper_run tapes execute_fn kw hp primals w3 Hall3)
    as (w4 & Hk4 & Htr4 & ->).
  rewrite Hst3 in Htr4 |- *. fold ts in Htr4 |- *. cbn [fst snd].
  assert (Hev : drop (length (trace w)) (trace w4)
            = [CallExecuteFn GradientTapes jvp_tapes None;
               CallExecuteFn ForwardPass ts (Some kw)]).
  { rewrite Htr4. cbn [trace w3]. rewrite Htr2, Htr1, <- app_assoc.
    by rewrite drop_app_length. }
  destruct (execute_fn ts (Some kw)) as [r|e]; cbn [mbind outcome_bind fst snd];
    [|by split].
  destruct (if hp then Jax._to_jax_shot_vector r.1 else Ret (Jax._to_jax r.1));
    cbn [mbind outcome_bind fst snd mret M_ret]; by split.
Qed.

(** X19: the tangent rule of the JAX interface when the gradient rule is a
    device method.  The forward pass runs first; the gradient rule is then
    called on a batch equal to the one the backend has executed (the tapes
    with the primals bound and converted), with [gradient_kwargs], and the
    Jacobians it returns are contracted with the tangents by
    [_compute_jvps]; when the forward pass fails the gradient rule is not
    called. *)
Theorem jax_device_method_tangent
    tapes dev execute_fn g kw n max_diff (hp : bool) sv primals tangents w :
  is_gradient_transform g = false → allocated w tapes →
  let ts := zip_with (substituted true) (map (store w) tapes) primals in
  let forward : outcome (list value) :=
    r ← execute_fn ts (Some kw);
    if hp then Jax._to_jax_shot_vector r.1 else Ret (Jax._to_jax r.1) in
  (Jax._execute_bwd_execute_wrapper_jvp tapes dev execute_fn g kw n max_diff
     hp sv primals tangents w).1
    = (res ← forward;
       jacs ← on_batch g ts kw;
       jvps ← Jax._compute_jvps jacs (map VList tangents)
                (map multi_measurement ts);
       Ret (res, jvps)) ∧
  events (Jax._execute_bwd_execute_wrapper_jvp tapes dev execute_fn g kw n
            max_diff hp sv primals tangents) w
    = CallExecuteFn ForwardPass ts (Some kw) ::
      (if is_ret forward then [CallGradientFn ts kw] else []).
Proof.
  intros Hg Hall ts forward. unfold events, Jax._execute_bwd_execute_wrapper_jvp.
  rewrite Hg, bind_run.
  destruct (jax_bwd_wrapper_run tapes execute_fn kw hp primals w Hall)
    as (w1 & Hk1 & Htr1 & ->).
  fold ts. fold forward. cbn [fst snd].
  destruct forward as [res|e]; cbn [mbind outcome_bind is_ret fst snd].
  2:{ split; [done|]. rewrite Htr1. by rewrite drop_app_length. }
  destruct (allocated_keeps _ _ _ Hk1 Hall) as [Hall1 Hst1].
  rewrite bind_run.
  destruct (set_parameters_values true tapes primals w1 Hall1)
    as (nls & w2 & -> & Hk2 & Htr2 & Hv).
  cbn [fst snd]. rewrite bind_run, load_all_run. cbn [fst snd].
  rewrite Hv, Hst1. fold ts. rewrite bind_run, call_gradient_fn_run.
  cbn [fst snd].
  assert (Hev : ∀ tr, tr = trace w2 ++ [CallGradientFn ts kw] →
            drop (length (trace w)) tr
            = [CallExecuteFn ForwardPass ts (Some kw); CallGradientFn ts kw]).
  { intros tr ->. rewrite Htr2, Htr1, <- app_assoc.
    by rewrite drop_app_length. }
  destruct (on_batch g ts kw) as [jacs|e]; cbn [fst snd mbind outcome_bind];
    [|split; [done | by apply Hev]].
  rewrite bind_run. unfold lift.
  destruct (Jax._compute_jvps jacs (map VList tangents)
              (map multi_measurement ts));
    cbn [fst snd mbind outcome_bind mret M_ret];
    (split; [done | by apply Hev]).
Qed.

(** X20: the tangent rule of [_execute_fwd].  The backend is called once,
    on the tapes with the primals bound and converted; the Jacobians it
    returns with the results are contracted with the tangents, the multi- or
    single-measurement rule being chosen from the caller's tapes, and are
    returned a second time as their own tangent. *)
Theorem jax_forward_mode_tangent tapes execute_fn kw primals tangents w :
  allocated w tapes →
  let ts := zip_with (substituted true) (map (store w) tapes) primals in
  (Jax._execute_fwd_execute_wrapper_jvp tapes execute_fn kw primals tangents
     w).1
    = (r ← execute_fn ts (Some kw);
       jvps ← Jax._compute_jvps r.2 (map VList tangents)
                (map multi_measurement (map (store w) tapes));
       Ret ((Jax._to_jax r.1, r.2), (jvps, r.2))) ∧
  events (Jax._execute_fwd_execute_wrapper_jvp tapes execute_fn kw primals
            tangents) w
    = [CallExecuteFn ForwardPass ts (Some kw)].
Proof.
  intros Hall ts. unfold events, Jax._execute_fwd_execute_wrapper_jvp.
  rewrite bind_run. unfold Jax._execute_fwd_execute_wrapper.
  destruct (jax_forward_call tapes primals execute_fn kw
              (λ r : list value * list value, mret (Jax._to_jax r.1, r.2))
              w Hall)
    as (w1 & Hk & Htr & ->).
  fold ts in Htr |- *.
  assert (Hev : drop (length (trace w)) (trace w1)
                = [CallExecuteFn ForwardPass ts (Some kw)]).
  { rewrite Htr. by rewrite drop_app_length. }
  destruct (execute_fn ts (Some kw)) as [r|e];
    cbn [mret M_ret fst snd mbind outcome_bind]; [|by split].
  rewrite bind_run, load_all_run. cbn [fst snd].
  destruct (allocated_keeps _ _ _ Hk Hall) as [_ ->].
  rewrite bind_run. unfold lift.
  destruct (Jax._compute_jvps r.2 (map VList tangents)
              (map multi_measurement (map (store w) tapes)));
    cbn [fst snd mret M_ret mbind outcome_bind]; by split.
Qed.

(** X21: the backward rule of [_execute_legacy] of the JAX interface when
    the gradient rule is a device method.  The gradient rule is called once,
    with [gradient_kwargs], on converted copies of the caller's tapes: the
    parameters handed to the rule are not bound.  Each cotangent is
    contracted with the Jacobian of the same index, cotangents or Jacobians
    without a partner being ignored, and every contraction is returned as
    the list of its entries.  The backend is not called. *)
Theorem jax_legacy_device_method_vjp tapes execute_fn g kw params cot w :
  is_gradient_transform g = false → allocated w tapes →
  let ts := map (λ l, convert_to_numpy_parameters (store w l)) tapes in
  (Jax._execute_legacy_wrapped_exec_bwd tapes execute_fn g kw params cot w).1
    = (jacs ← on_batch g ts kw;
       res ← mapO (λ v, ps ← iter_value v; Ret (VList (map jnp_array ps)))
                  (zip_with compute_vjp cot jacs);
       Ret (VTuple [VTuple res])) ∧
  events (Jax._execute_legacy_wrapped_exec_bwd tapes execute_fn g kw params
            cot) w
    = [CallGradientFn ts kw].
Proof.
  intros Hg Hall ts. unfold events, Jax._execute_legacy_wrapped_exec_bwd.
  rewrite Hg, bind_run.
  destruct (unwrap_tapes_run tapes w) as (nls & w1 & -> & Hk & Htr & Hv).
  cbn [fst snd]. rewrite bind_run, load_all_run. cbn [fst snd].
  rewrite (Hv Hall). fold ts. rewrite bind_run, call_gradient_fn_run.
  cbn [fst snd].
  assert (Hzip : ∀ jacs, map (λ dj : value * value, compute_vjp dj.1 dj.2)
                           (zip cot jacs) = zip_with compute_vjp cot jacs).
  { intros jacs. revert jacs. induction cot as [|d ds IH]; intros [|j js];
      cbn; [done..|]. by rewrite IH. }
  destruct (on_batch g ts kw) as [jacs|e]; cbn [fst snd mbind outcome_bind trace].
  - rewrite bind_run, Hzip. unfold lift.
    destruct (mapO _ (zip_with compute_vjp cot jacs));
      cbn [fst snd mret M_ret mbind outcome_bind trace];
      (split; [done|]); rewrite Htr; by rewrite drop_app_length.
  - split; [done|]. rewrite Htr. by rewrite drop_app_length.
Qed.

End BackwardRules.

(** ** Filling the Jacobian cache *)

Section CacheMiss.
Context `{Library}.

Lemma alloc_all_values ts : ∀ w,
  ∃ locs w', alloc_all ts w = (Ret locs, w') ∧ keeps_objects w w' ∧
    trace w' = trace w ∧ allocated w' locs ∧ map (store w') locs = ts.
Proof.
  unfold alloc_all. induction ts as [|t ts IH]; intros w; cbn [mapM].
  - exists [], w. split_and!; [done | reflexivity | done | constructor | done].
  - rewrite bind_run. cbn [alloc fst snd]. rewrite bind_run.
    match goal with |- context [mapM alloc ts ?w1] =>
      destruct (IH w1) as (locs & w' & -> & Hk & Htr & Hall & Hv) end.
    eexists _, _. split; [reflexivity|].
    destruct Hk as (Hn & Ha & Hs). cbn [next_loc store active_return] in *.
    split_and!.
    + repeat split; cbn; [lia | done |]. intros l Hl.
      rewrite Hs by lia. apply fn_lookup_insert_ne. lia.
    + done.
    + constructor; [lia | done].
    + cbn [map]. f_equal; [|done]. rewrite Hs by lia.
      apply fn_lookup_insert.
Qed.

(** Gradient tapes become objects, are converted and executed from the
    Jacobian cache. *)
Lemma cache_call_run {A} g_tapes execute_fn kw
    (K : list value * list value → M A) w :
  let ts := map convert_to_numpy_parameters g_tapes in
  ∃ w', keeps_objects w w' ∧
    trace w' = trace w ++ [CallExecuteFn JacobianCache ts (Some kw)] ∧
    (g_locs ← alloc_all g_tapes;
     unwrapped_tapes ← unwrap_tapes g_locs;
     unwrapped_tapes ← load_all unwrapped_tapes;
     r ← call_execute_fn JacobianCache execute_fn unwrapped_tapes (Some kw);
     K r) w
    = match execute_fn ts (Some kw) with
      | Ret r => K r w'
      | Raise e => (Raise e, w')
      end.
Proof.
  intros ts.
  destruct (alloc_all_values g_tapes w)
    as (locs & w1 & Hal & Hk1 & Htr1 & Hall1 & Hv1).
  destruct (unwrap_tapes_run locs w1) as (nls & w2 & Hun & Hk2 & Htr2 & Hv2).
  eexists (World (store w2) (next_loc w2) (active_return w2)
                 (trace w2 ++ [CallExecuteFn JacobianCache ts (Some kw)])).
  split_and!.
  - etransitivity; [exact Hk1|]. etransitivity; [exact Hk2 | apply keeps_log].
  - cbn [trace]. by rewrite Htr2, Htr1.
  - rewrite bind_run, Hal. cbn [fst snd]. rewrite bind_run, Hun.
    cbn [fst snd]. rewrite bind_run, load_all_run. cbn [fst snd].
    rewrite (Hv2 Hall1), <- (map_map (store w1)), Hv1. fold ts.
    rewrite bind_run, call_execute_fn_run.
    by destruct (execute_fn ts (Some kw)).
Qed.

Lemma legacy_cache_loop execute_fn g kw tapes : ∀ w,
  allocated w tapes →
  ∃ w', keeps_objects w w' ∧
    mapM (λ l,
            t ← load l;
            gt ← lift (on_tape g None kw t);
            g_tapes ← alloc_all gt.1;
            unwrapped_tapes ← unwrap_tapes g_tapes;
            unwrapped_tapes ← load_all unwrapped_tapes;
            r ← call_execute_fn JacobianCache execute_fn unwrapped_tapes
                  (Some kw);
            mret (gt.2 r.1)) tapes w
    = (mapO (jacobian_of execute_fn g kw) (map (store w) tapes), w') ∧
    (is_ret (mapO (jacobian_of execute_fn g kw) (map (store w) tapes)) = true →
     trace w' = trace w ++
       map (λ t, CallExecuteFn JacobianCache (gradient_tapes_of g kw t)
                   (Some kw)) (map (store w) tapes)).
Proof.
  induction tapes as [|l ls IH]; intros w Hall; cbn [mapM map mapO].
  - exists w. split_and!; [reflexivity | done |]. intros _.
    by rewrite app_nil_r.
  - inversion_clear Hall as [|? ? Hl Hls].
    rewrite bind_run, bind_run. cbn [load fst snd]. rewrite bind_run.
    unfold lift at 1.
    destruct (on_tape g None kw (store w l)) as [gt|e] eqn:Hgt.
    2:{ assert (Hjac : jacobian_of execute_fn g kw (store w l) = Raise e)
          by (unfold jacobian_of; by rewrite Hgt).
        rewrite Hjac. cbn [fst snd mbind outcome_bind is_ret].
        exists w. split_and!; [reflexivity | done | done]. }
    assert (Hjac : jacobian_of execute_fn g kw (store w l)
              = (r ← execute_fn (map convert_to_numpy_parameters gt.1) (Some kw);
                 Ret (gt.2 r.1)))
      by (unfold jacobian_of; by rewrite Hgt).
    assert (Hgts : gradient_tapes_of g kw (store w l)
              = map convert_to_numpy_parameters gt.1)
      by (unfold gradient_tapes_of; by rewrite Hgt).
    rewrite Hjac, Hgts. cbn [fst snd].
    destruct (cache_call_run gt.1 execute_fn kw
                (λ r : list value * list value, mret (gt.2 r.1)) w)
      as (w1 & Hk1 & Htr1 & ->).
    destruct (execute_fn (map convert_to_numpy_parameters gt.1) (Some kw))
      as [r|e]; cbn [fst snd mbind outcome_bind mret M_ret is_ret].
    2:{ exists w1. split_and!; [done | done | done]. }
    rewrite bind_run.
    destruct (allocated_keeps w w1 ls Hk1 Hls) as [Hls1 Hst1].
    destruct (IH w1 Hls1) as (w' & Hk' & -> & Htr').
    rewrite Hst1 in Htr' |- *. exists w'.
    split; [by etransitivity|].
    destruct (mapO (jacobian_of execute_fn g kw) (map (store w) ls))
      as [jacs|e]; cbn [fst snd mbind outcome_bind mret M_ret is_ret] in *.
    + split; [done|]. intros _. rewrite (Htr' eq_refl), Htr1.
      by rewrite <- app_assoc.
    + split; [done | done].
Qed.

(** X22: how the Jacobian cache is filled.  In the current path the gradient
    rule is mapped over the batch, with the shot vector of the device (for
    an experimental device, that of the first tape when its shots are
    partitioned), the converted gradient tapes of the whole batch are
    executed in one call of the backend, and the Jacobians are what the
    processing function makes of the results; they are returned and stored.
    In the legacy path each tape gets its Jacobian on its own, in the order
    of the batch, from one call of the backend on its converted gradient
    tapes: exactly one call per tape when all succeed. *)
Theorem jacobian_cache_miss tapes dev execute_fn g kw w :
  let batch := map (store w) tapes in
  let shot_vector_of : outcome (option shot_vector_t) :=
    match dev with
    | ExperimentalDevice =>
        t0 ← getitem batch 0;
        Ret (if has_partitioned_shots (shots t0)
             then Some (shot_vector (shots t0)) else None)
    | LegacyDevice sv => Ret sv
    end in
  let transformed :=
    sv ← shot_vector_of;
    map_batch_transform (on_tape g (Some sv) kw) batch in
  ((Autograd.vjp_get_jac_with_caching tapes dev execute_fn g kw None w).1
     = (gt ← transformed;
        r ← execute_fn (map convert_to_numpy_parameters gt.1) (Some kw);
        Ret (gt.2 r.1, Some (gt.2 r.1))) ∧
   events (Autograd.vjp_get_jac_with_caching tapes dev execute_fn g kw None) w
     = match transformed with
       | Ret gt => [CallExecuteFn JacobianCache
                      (map convert_to_numpy_parameters gt.1) (Some kw)]
       | Raise _ => []
       end) ∧
  (allocated w tapes →
   (Autograd._vjp_legacy_get_jac_with_caching tapes execute_fn g kw None w).1
     = (jacs ← mapO (jacobian_of execute_fn g kw) batch;
        Ret (jacs, Some jacs)) ∧
   (is_ret (mapO (jacobian_of execute_fn g kw) batch) = true →
    events (Autograd._vjp_legacy_get_jac_with_caching tapes execute_fn g kw
              None) w
      = map (λ t, CallExecuteFn JacobianCache (gradient_tapes_of g kw t)
                    (Some kw)) batch)).
Proof.
  intros batch shot_vector_of transformed. split.
  - assert (Hrun : ∃ w',
      Autograd.vjp_get_jac_with_caching tapes dev execute_fn g kw None w
      = (gt ← transformed;
         r ← execute_fn (map convert_to_numpy_parameters gt.1) (Some kw);
         Ret (gt.2 r.1, Some (gt.2 r.1)), w') ∧
      trace w' = trace w ++
        match transformed with
        | Ret gt => [CallExecuteFn JacobianCache
                       (map convert_to_numpy_parameters gt.1) (Some kw)]
        | Raise _ => []
        end).
    { unfold Autograd.vjp_get_jac_with_caching. rewrite bind_run.
      assert (Hsv : Autograd.cache_shot_vector dev tapes w
                    = (shot_vector_of, w)).
      { unfold Autograd.cache_shot_vector. subst shot_vector_of.
        destruct dev as [|sv]; [|done].
        rewrite bind_run, load_all_run. cbn [fst snd]. fold batch.
        rewrite bind_run. unfold lift. by destruct (getitem batch 0). }
      rewrite Hsv. subst transformed. cbn [fst snd].
      destruct shot_vector_of as [sv|e]; cbn [mbind outcome_bind];
        [|exists w; by rewrite app_nil_r].
      rewrite bind_run, load_all_run. cbn [fst snd]. fold batch.
      rewrite bind_run. unfold lift at 1.
      destruct (map_batch_transform (on_tape g (Some sv) kw) batch)
        as [gt|e]; cbn [fst snd mbind outcome_bind];
        [|exists w; by rewrite app_nil_r].
      destruct (cache_call_run gt.1 execute_fn kw
                  (λ r : list value * list value,
                     mret (gt.2 r.1, Some (gt.2 r.1))) w)
        as (w1 & _ & Htr1 & ->).
      exists w1. split; [|done].
      by destruct (execute_fn _ (Some kw)). }
    destruct Hrun as (w' & Hrun & Htr).
    exact (events_of_run _ _ _ _ _ Hrun Htr).
  - intros Hall. unfold events, Autograd._vjp_legacy_get_jac_with_caching.
    rewrite bind_run.
    destruct (legacy_cache_loop execute_fn g kw tapes w Hall)
      as (w' & _ & -> & Htr).
    fold batch in Htr |- *. cbn [fst snd].
    destruct (mapO (jacobian_of execute_fn g kw) batch) as [jacs|e];
      cbn [fst snd mbind outcome_bind mret M_ret is_ret] in *.
    + split; [done|]. intros _. rewrite (Htr eq_refl).
      by rewrite drop_app_length.
    + split; [done | done].
Qed.

End CacheMiss.

(** ** One step of differentiable recursion *)

Section RecursionStep.
Context `{Library}.

Lemma alloc_all_seq ts : ∀ w,
  ∃ w', alloc_all ts w = (Ret (seq (next_loc w) (length ts)), w') ∧
    keeps_objects w w' ∧ trace w' = trace w ∧
    next_loc w' = (next_loc w + length ts)%nat ∧
    map (store w') (seq (next_loc w) (length ts)) = ts.
Proof.
  unfold alloc_all. induction ts as [|t ts IH]; intros w; cbn [mapM].
  - exists w. split_and!; [done | reflexivity | done | cbn; lia | done].
  - rewrite bind_run. cbn [alloc fst snd]. rewrite bind_run.
    match goal with |- context [mapM alloc ts ?w1] =>
      destruct (IH w1) as (w' & -> & Hk & Htr & Hn & Hv) end.
    cbn [next_loc] in Hn, Hv |- *. exists w'. split; [reflexivity|].
    destruct Hk as (Hn' & Ha & Hs). cbn [next_loc store active_return] in *.
    split_and!.
    + repeat split; cbn; [lia | done |]. intros l Hl.
      rewrite Hs by lia. apply fn_lookup_insert_ne. lia.
    + done.
    + cbn [length]. lia.
    + cbn [length seq map]. f_equal; [|done]. rewrite Hs by lia.
      apply fn_lookup_insert.
Qed.

Lemma allocated_seq w w' k :
  next_loc w' = (next_loc w + k)%nat → allocated w' (seq (next_loc w) k).
Proof.
  intros Hn. unfold allocated. rewrite Forall_forall.
  intros l Hl%list_elem_of_In%elem_of_seq. lia.
Qed.

(** X23: one step of differentiable recursion in the Autograd interface, in
    the current return mode.  Below the ceiling, with no Jacobians from the
    forward pass, the VJP tapes are built from the caller's tapes as they
    are, their parameters not converted; they become new objects, on which
    [execute] is entered at depth [_n + 1]: their trainable parameters are
    set and the backend runs converted copies of them, with
    [gradient_kwargs]; the processing function is applied to the results. *)
Theorem autograd_recursion_step
    ans tapes dev execute_fn g kw n max_diff (c : Autograd.cache) dy w :
  is_gradient_transform g = true → n ≠ max_diff → ans.2 = [] →
  active_return w = true →
  let batch := map (store w) tapes in
  ∀ sh, Autograd.grad_shots dev batch = Ret sh →
  let vjp := batch_vjp batch dy.1 g (Some sh.2) kw in
  let locs := seq (next_loc w) (length vjp.1) in
  let ts := map (λ t, convert_to_numpy_parameters (recompute_trainable t))
                vjp.1 in
  (Autograd.vjp_grad_fn ans tapes dev execute_fn (Some g) kw n max_diff c dy
     w).1
    = (r ← execute_fn ts (Some kw);
       Ret (Autograd.return_vjps n (vjp.2 r.1), c)) ∧
  events (Autograd.vjp_grad_fn ans tapes dev execute_fn (Some g) kw n max_diff
            c dy) w
    = [Enter AutogradExecute (n + 1) max_diff locs;
       CallExecuteFn ForwardPass ts (Some kw)].
Proof.
  intros Hg Hn Hans Hactive batch sh Hsh vjp locs ts.
  assert (Hrun : ∃ w',
    Autograd.vjp_grad_fn ans tapes dev execute_fn (Some g) kw n max_diff c dy w
    = (r ← execute_fn ts (Some kw);
       Ret (Autograd.return_vjps n (vjp.2 r.1), c), w') ∧
    trace w' = trace w ++ [Enter AutogradExecute (n + 1) max_diff locs;
                           CallExecuteFn ForwardPass ts (Some kw)]).
  { unfold Autograd.vjp_grad_fn.
    rewrite cache_worthy_false by auto.
    rewrite bind_run, load_all_run. cbn [fst snd]. rewrite bind_run.
    fold batch.
    change (lift (Autograd.grad_shots dev batch) w)
      with (Autograd.grad_shots dev batch, w).
    rewrite Hsh. destruct sh as [hps vjp_shots]. cbn [fst snd] in *.
    rewrite bind_run. cbn [mret M_ret fst snd]. rewrite Hans.
    cbn [Autograd.truthy]. rewrite Hg, (bool_decide_eq_false_2 _ Hn).
    rewrite bind_run, bind_run, load_all_run. cbn [fst snd]. fold batch.
    fold vjp. subst locs ts.
    destruct vjp as [vjp_tapes processing_fn]. cbn [fst snd].
    rewrite bind_run.
    destruct (alloc_all_seq vjp_tapes w) as (w2 & -> & Hk & Htr & Hnl & Hv).
    cbn [fst snd]. rewrite bind_run.
    destruct (autograd_execute_forward_run
                (seq (next_loc w) (length vjp_tapes)) dev execute_fn (Some g)
                kw (n + 1) max_diff w2)
      as (w3 & -> & Htr3).
    { by eapply allocated_seq. }
    { destruct Hk as (_ & -> & _). done. }
    rewrite <- (map_map (store w2)
                  (λ t, convert_to_numpy_parameters (recompute_trainable t)))
      in Htr3 |- *.
    rewrite Hv in Htr3 |- *. exists w3. rewrite Htr3, Htr. split; [|done].
    by destruct (execute_fn _ (Some kw)) as [r|e]. }
  destruct Hrun as (w' & Hrun & Htr).
  exact (events_of_run _ _ _ _ _ Hrun Htr).
Qed.

(** X24: one step of differentiable recursion in the JAX interface.  Below
    the ceiling the JVP tapes are built from copies of the tapes with the
    primals bound but not converted; they become new objects, on which
    [execute] is entered at depth [_n + 1] and runs its forward pass (the
    shots of this inner pass being those of the device, or of the first JVP
    tape for an experimental device); the processing function is applied to
    its result, and then the forward pass of the rule itself runs, unless
    the inner pass has failed. *)
Theorem jax_recursion_step
    tapes dev execute_fn g kw n max_diff (hp : bool) sv primals tangents w :
  is_gradient_transform g = true → n ≠ max_diff → allocated w tapes →
  let new_tapes :=
    zip_with (substituted false) (map (store w) tapes) primals in
  let jvp := batch_jvp new_tapes (map VList tangents) g (Some sv) kw in
  let gradient_batch :=
    map (λ t, if bool_decide (n + 1 = 1) then recompute_trainable t else t)
        jvp.1 in
  let partitioned : outcome bool :=
    match dev with
    | LegacyDevice sv' => Ret (truthy_shots sv')
    | ExperimentalDevice =>
        t0 ← getitem gradient_batch 0; Ret (has_partitioned_shots (shots t0))
    end in
  let gradient_ts := map forward_tape gradient_batch in
  let inner : outcome (list value) :=
    hp' ← partitioned;
    partial ← execute_fn gradient_ts (Some kw);
    if hp' : bool then Jax._to_jax_shot_vector partial.1
    else Ret (Jax._to_jax partial.1) in
  let ts := zip_with (substituted true) (map (store w) tapes) primals in
  (Jax._execute_bwd_execute_wrapper_jvp tapes dev execute_fn g kw n max_diff
     hp sv primals tangents w).1
    = (jvps ← inner;
       r ← execute_fn ts (Some kw);
       res ← (if hp then Jax._to_jax_shot_vector r.1
              else Ret (Jax._to_jax r.1));
       Ret (res, jvp.2 jvps)) ∧
  ∃ locs,
    events (Jax._execute_bwd_execute_wrapper_jvp tapes dev execute_fn g kw n
              max_diff hp sv primals tangents) w
    = Enter JaxExecute (n + 1) max_diff locs ::
      (if is_ret partitioned
       then [CallExecuteFn ForwardPass gradient_ts (Some kw)] else []) ++
      (if is_ret inner then [CallExecuteFn ForwardPass ts (Some kw)] else []).
Proof.
  intros Hg Hn Hall new_tapes jvp gradient_batch partitioned gradient_ts
    inner ts.
  assert (Hrun : ∃ locs w',
    Jax._execute_bwd_execute_wrapper_jvp tapes dev execute_fn g kw n max_diff
      hp sv primals tangents w
    = (jvps ← inner;
       r ← execute_fn ts (Some kw);
       res ← (if hp then Jax._to_jax_shot_vector r.1
              else Ret (Jax._to_jax r.1));
       Ret (res, jvp.2 jvps), w') ∧
    trace w' = trace w ++
      Enter JaxExecute (n + 1) max_diff locs ::
      (if is_ret partitioned
       then [CallExecuteFn ForwardPass gradient_ts (Some kw)] else []) ++
      (if is_ret inner then [CallExecuteFn ForwardPass ts (Some kw)] else [])).
  { unfold Jax._execute_bwd_execute_wrapper_jvp.
    rewrite Hg, (bool_decide_eq_false_2 _ Hn), bind_run.
    destruct (set_parameters_values false tapes primals w Hall)
      as (nls & w1 & -> & Hk1 & Htr1 & Hv).
    cbn [fst snd]. rewrite bind_run, load_all_run. cbn [fst snd].
    rewrite Hv. fold new_tapes. fold jvp.
    subst gradient_batch gradient_ts inner partitioned.
    destruct jvp as [jvp_tapes processing_fn]. cbn [fst snd].
    rewrite bind_run.
    destruct (alloc_all_seq jvp_tapes w1) as (w2 & -> & Hk2 & Htr2 & Hnl & Hjv).
    set (locs := seq (next_loc w1) (length jvp_tapes)) in *.
    cbn [fst snd]. rewrite bind_run, bind_run.
    assert (Hlocs : allocated w2 locs) by (by eapply allocated_seq).
    destruct (jax_execute_touches locs dev execute_fn (Some g) kw (n + 1)
                max_diff w2) as [Htouch _].
    destruct (jax_execute_forward_run locs dev execute_fn (Some g) kw (n + 1)
                max_diff w2 Hlocs) as (w3 & Hinner & Htr3).
    rewrite Hinner in Htouch |- *. cbn [fst snd] in Htouch.
    assert (Hbatch : map (jax_annotated (n + 1) locs (store w2)) locs
              = map (λ t, if bool_decide (n + 1 = 1)
                          then recompute_trainable t else t) jvp_tapes).
    { rewrite <- Hjv, map_map. apply map_ext_in.
      intros l Hl%list_elem_of_In. unfold jax_annotated.
      case_bool_decide; [by apply annotated_in | done]. }
    rewrite Hbatch in Htr3 |- *.
    match goal with |- context [match ?o with Ret _ => _ | Raise _ => _ end] =>
      lazymatch o with
      | mbind _ _ => set (inner := o) in *
      end
    end.
    exists locs.
    assert (Hall3 : allocated w3 tapes ∧ map (store w3) tapes = map (store w) tapes).
    { destruct Hk1 as (Hn1 & _ & Hs1). destruct Hk2 as (Hn2 & _ & Hs2).
      destruct Htouch as (Hn3 & _ & Hs3).
      unfold allocated in Hall. rewrite Forall_forall in Hall. split.
      - unfold allocated. rewrite Forall_forall. intros l Hl.
        specialize (Hall l Hl). lia.
      - apply map_ext_in. intros l Hl. specialize (Hall l Hl).
        rewrite Hs3, Hs2, Hs1; [done | lia.. |].
        subst locs. intros Hin%elem_of_seq. lia. }
    destruct Hall3 as [Hall3 Hst3].
    destruct inner as [jvps|e] eqn:Hin; cbn [mbind outcome_bind fst snd is_ret mret M_ret].
    - rewrite bind_run.
      destruct (jax_bwd_wrapper_run tapes execute_fn kw hp primals w3 Hall3)
        as (w4 & _ & Htr4 & ->).
      rewrite Hst3 in Htr4 |- *. fold ts in Htr4 |- *. cbn [fst snd].
      exists w4. split.
      + destruct (execute_fn ts (Some kw)) as [r|e]; cbn [mbind outcome_bind];
          [|done].
        by destruct (if hp then Jax._to_jax_shot_vector r.1
                     else Ret (Jax._to_jax r.1)).
      + rewrite Htr4, Htr3, Htr2, Htr1, <- app_assoc. done.
    - exists w3. split; [done|].
      rewrite Htr3, Htr2, Htr1. by rewrite app_nil_r. }
  destruct Hrun as (locs & w' & Hrun & Htr). split.
  - by rewrite Hrun.
  - exists locs. exact (proj2 (events_of_run _ _ _ _ _ Hrun Htr)).
Qed.

End RecursionStep.

(** ** The further properties on concrete batches *)

Section FurtherExamples.
Import Concrete.

Lemma execute_legacy_validates_first_witness :
  1 ≤ 1 ∧
  Jax.execute_legacy ([0%nat] ++ 1%nat :: []) (LegacyDevice None) backend
    (Some param_shift) [] 1 1 (world_of [expval_tape; mixed_tape] true)
  = (Raise (InterfaceUnsupportedError
       "Using the JAX interface, sample and probability measurements cannot be mixed with other measurement types."),
     World (store (world_of [expval_tape; mixed_tape] true)) 2%nat true
           [Enter JaxExecuteLegacy 1 1 [0%nat; 1%nat]]).
Proof.
  split; [lia|].
  apply (execute_legacy_validates_first [0%nat] 1%nat [] (LegacyDevice None)
           backend (Some param_shift) [] 1 1
           (world_of [expval_tape; mixed_tape] true)).
  - lia.
  - repeat constructor.
  - reflexivity.
Defined.

Lemma compute_jvps_per_tape_witness :
  Jax._compute_jvps [matrix 1 1 [2]] [] [false] = Raise IndexError ∧
  ∃ jvps,
    Jax._compute_jvps [matrix 1 1 [2]] [VList [scalar 3]] [false] = Ret jvps ∧
    length jvps = 1%nat.
Proof.
  split.
  - apply (proj2 (compute_jvps_per_tape [matrix 1 1 [2]] [] [false])).
    left. cbn. lia.
  - destruct (proj1 (compute_jvps_per_tape [matrix 1 1 [2]]
                       [VList [scalar 3]] [false]))
      as (jvps & Hrun & Hlen & _); [cbn; lia | cbn; lia |].
    exists jvps. split; [exact Hrun | exact Hlen].
Defined.

Lemma compute_vjps_autograd_per_tape_witness :
  Autograd.tape_vjp [VTuple [matrix 1 2 [3; 4]]] [VTuple []] true 0 false
  = Raise ValueError.
Proof.
  destruct (compute_vjps_autograd_per_tape [VTuple [matrix 1 2 [3; 4]]]
              [VTuple []] [false] true) as (_ & _ & Hshots).
  destruct (Hshots 0%nat false (VTuple []) (VTuple [matrix 1 2 [3; 4]])
              [] [matrix 1 2 [3; 4]] eq_refl eq_refl eq_refl eq_refl)
    as [_ Hempty].
  apply Hempty. left. reflexivity.
Defined.

Lemma reshape_jacobian_columns_witness :
  entry_at (H:=Z_numeric) Plain 3 [] [7; 8; 9] 0 1 = scalar 8 ∧
  Jax.reshape_jacobian (VArr Plain (NdArray [3%nat] [7; 8; 9]))
  = Raise IndexError.
Proof.
  destruct (reshape_jacobian_columns (H:=Z_numeric) Plain [7; 8; 9])
    as (_ & Hentry & _ & Hshort).
  split.
  - apply (Hentry 3%nat 0%nat 1%nat 8). reflexivity.
  - apply (Hshort [3%nat]). cbn. lia.
Defined.

Lemma group_vjps_contiguous_witness :
  Jax.group_vjps (vector [5; 6; 7]) 0 [[scalar 1]; [scalar 2; scalar 3]]
    !! 1%nat
  = Some (getslice (vector [5; 6; 7]) 1 3).
Proof.
  apply (proj2 (group_vjps_contiguous (vector [5; 6; 7])
                  [[scalar 1]; [scalar 2; scalar 3]])
           1%nat [scalar 2; scalar 3]).
  reflexivity.
Defined.

Lemma unstacking_is_all_or_nothing_witness :
  ndim (getslice (vector [5]) 0 1) = Ret 1%nat ∧
  Jax.group_and_unstack (λ res, res) [[scalar 1]] [vector [5]]
  = Ret (VTuple [VTuple (map math_unstack
                           (Jax.group_vjps (jnp_concatenate [vector [5]]) 0
                              [[scalar 1]]))]).
Proof.
  split; [reflexivity|].
  destruct (unstacking_is_all_or_nothing (λ res, res) [[scalar 1]]
              [vector [5]]) as (_ & Hsome & _).
  apply (Hsome [] (getslice (vector [5]) 0 1) [] 0%nat).
  - reflexivity.
  - constructor.
  - reflexivity.
Defined.

Lemma to_jax_shot_vector_per_group_witness :
  Jax._to_jax_shot_vector [VTuple [scalar 1; counts]]
  = Ret [VTuple (Jax._to_jax [scalar 1; counts])].
Proof.
  apply (proj1 to_jax_shot_vector_per_group [VTuple [scalar 1; counts]]
           [[scalar 1; counts]]).
  repeat constructor.
Defined.

Lemma autograd_execute_forward_witness :
  allocated one_tape [0%nat] ∧ active_return one_tape = true ∧
  events (Autograd.execute [0%nat] (LegacyDevice None) backend
            (Some param_shift) [] 1 2) one_tape
  = [Enter AutogradExecute 1 2 [0%nat];
     CallExecuteFn ForwardPass
       [convert_to_numpy_parameters (recompute_trainable expval_tape)]
       (Some [])].
Proof.
  assert (Hall : allocated one_tape [0%nat]) by (repeat constructor).
  split; [exact Hall|]. split; [reflexivity|].
  exact (proj2 (autograd_execute_forward [0%nat] (LegacyDevice None) backend
                  (Some param_shift) [] 1 2 one_tape Hall eq_refl)).
Defined.

Lemma autograd_legacy_forward_witness :
  allocated (world_of [expval_tape] false) [0%nat] ∧
  (Autograd.execute [0%nat] (LegacyDevice None) backend (Some param_shift)
     [] 1 2 (world_of [expval_tape] false)).1
  = Ret [Autograd.convert_result (recompute_trainable expval_tape) (scalar 3)].
Proof.
  assert (Hall : allocated (world_of [expval_tape] false) [0%nat])
    by (repeat constructor).
  split; [exact Hall|].
  destruct (autograd_legacy_forward [0%nat] (LegacyDevice None) backend
              (Some param_shift) [] 1 2 (world_of [expval_tape] false) Hall)
    as (_ & _ & Hdispatch).
  exact (proj1 (Hdispatch eq_refl)).
Defined.

Lemma jax_execute_forward_witness :
  allocated one_tape [0%nat] ∧
  events (Jax.execute [0%nat] (LegacyDevice None) backend (Some param_shift)
            [] 1 2) one_tape
  = [Enter JaxExecute 1 2 [0%nat];
     CallExecuteFn ForwardPass
       [forward_tape (recompute_trainable expval_tape)] (Some [])].
Proof.
  assert (Hall : allocated one_tape [0%nat]) by (repeat constructor).
  split; [exact Hall|].
  exact (proj2 (jax_execute_forward [0%nat] (LegacyDevice None) backend
                  (Some param_shift) [] 1 2 one_tape Hall)).
Defined.

Lemma jax_execute_legacy_forward_witness :
  allocated one_tape [0%nat] ∧ 1 ≤ 1 ∧
  Forall (λ l, Jax._validate_tape (store one_tape l) = Ret ()) [0%nat] ∧
  events (Jax.execute_legacy [0%nat] (LegacyDevice None) backend
            (Some param_shift) [] 1 1) one_tape
  = [Enter JaxExecuteLegacy 1 1 [0%nat];
     CallExecuteFn ForwardPass
       [forward_tape (recompute_trainable expval_tape)] (Some [])].
Proof.
  assert (Hall : allocated one_tape [0%nat]) by (repeat constructor).
  assert (Hmax : 1 ≤ 1) by lia.
  assert (Hvalid : Forall (λ l, Jax._validate_tape (store one_tape l) = Ret ())
                     [0%nat]) by (repeat constructor).
  split; [exact Hall|]. split; [exact Hmax|]. split; [exact Hvalid|].
  exact (proj2 (jax_execute_legacy_forward [0%nat] (LegacyDevice None) backend
                  (Some param_shift) [] 1 1 one_tape Hall Hmax Hvalid)).
Defined.

Lemma forward_jacobians_short_circuit_witness :
  Autograd.cache_worthy (Some device_gradients) 1 1 = false ∧
  ([scalar 3], [matrix 1 1 [1]]).2 ≠ [] ∧
  Autograd._vjp_legacy_grad_fn ([scalar 3], [matrix 1 1 [1]]) [0%nat]
    (LegacyDevice None) backend (Some device_gradients) [] 1 1 None
    ([scalar 1], []) one_tape
  = (Ret (Autograd.return_vjps 1
            (map (λ dj, compute_vjp dj.1 dj.2)
                 (zip (map math_T [scalar 1]) [matrix 1 1 [1]])),
          None),
     one_tape).
Proof.
  assert (Hans : ([scalar 3], [matrix 1 1 [1]]).2 ≠ []) by discriminate.
  split; [reflexivity|]. split; [exact Hans|].
  exact (proj2 (forward_jacobians_short_circuit ([scalar 3], [matrix 1 1 [1]])
                  [0%nat] (LegacyDevice None) backend (Some device_gradients)
                  [] 1 1 None ([scalar 1], []) one_tape eq_refl Hans)).
Defined.

Lemma cache_reserved_for_param_shift_witness :
  rule_name device_gradients ≠ "param_shift" ∧
  Forall jac_free
    (events (Autograd.vjp_grad_fn ([scalar 3], []) [0%nat] (LegacyDevice None)
               backend (Some device_gradients) [] 1 1 None ([scalar 1], []))
            one_tape).
Proof.
  assert (Hname : rule_name device_gradients ≠ "param_shift") by discriminate.
  split; [exact Hname|].
  refine (proj1 (proj1 (cache_reserved_for_param_shift ([scalar 3], [])
                          [0%nat] (LegacyDevice None) backend
                          (Some device_gradients) [] 1 1 None ([scalar 1], [])
                          one_tape _))).
  intros g [= <-]. left. exact Hname.
Defined.

Lemma autograd_transform_at_max_diff_witness :
  is_gradient_transform finite_diff = true ∧
  rule_name finite_diff ≠ "param_shift" ∧
  allocated one_tape [0%nat] ∧
  events (Autograd._vjp_legacy_grad_fn ([scalar 3], []) [0%nat]
            (LegacyDevice None) backend (Some finite_diff) [] 2 2 None
            ([scalar 1], [])) one_tape
  = [CallExecuteFn GradientTapes
       [convert_to_numpy_parameters expval_tape] None].
Proof.
  assert (Hname : rule_name finite_diff ≠ "param_shift") by discriminate.
  assert (Hall : allocated one_tape [0%nat]) by (repeat constructor).
  split; [reflexivity|]. split; [exact Hname|]. split; [exact Hall|].
  exact (proj2 (proj2 (autograd_transform_at_max_diff ([scalar 3], [])
                         [0%nat] (LegacyDevice None) backend finite_diff []
                         2 None ([scalar 1], []) one_tape eq_refl Hname
                         eq_refl Hall))).
Defined.

Lemma jax_transform_tangent_at_max_diff_witness :
  is_gradient_transform param_shift = true ∧
  allocated one_tape [0%nat] ∧
  events (Jax._execute_bwd_execute_wrapper_jvp [0%nat] (LegacyDevice None)
            backend param_shift [] 2 2 false None [[scalar 3]] [[scalar 1]])
         one_tape
  = [CallExecuteFn GradientTapes [substituted true expval_tape [scalar 3]]
       None;
     CallExecuteFn ForwardPass [substituted true expval_tape [scalar 3]]
       (Some [])].
Proof.
  assert (Hall : allocated one_tape [0%nat]) by (repeat constructor).
  split; [reflexivity|]. split; [exact Hall|].
  exact (proj2 (jax_transform_tangent_at_max_diff [0%nat] (LegacyDevice None)
                  backend param_shift [] 2 false None [[scalar 3]]
                  [[scalar 1]] one_tape eq_refl Hall)).
Defined.

Lemma jax_device_method_tangent_witness :
  is_gradient_transform device_gradients = false ∧
  allocated one_tape [0%nat] ∧
  events (Jax._execute_bwd_execute_wrapper_jvp [0%nat] (LegacyDevice None)
            backend device_gradients [] 1 2 false None [[scalar 3]]
            [[scalar 1]]) one_tape
  = [CallExecuteFn ForwardPass [substituted true expval_tape [scalar 3]]
       (Some []);
     CallGradientFn [substituted true expval_tape [scalar 3]] []].
Proof.
  assert (Hall : allocated one_tape [0%nat]) by (repeat constructor).
  split; [reflexivity|]. split; [exact Hall|].
  exact (proj2 (jax_device_method_tangent [0%nat] (LegacyDevice None) backend
                  device_gradients [] 1 2 false None [[scalar 3]] [[scalar 1]]
                  one_tape eq_refl Hall)).
Defined.

Lemma jax_forward_mode_tangent_witness :
  allocated one_tape [0%nat] ∧
  events (Jax._execute_fwd_execute_wrapper_jvp [0%nat] forward_backend []
            [[scalar 3]] [[scalar 1]]) one_tape
  = [CallExecuteFn ForwardPass [substituted true expval_tape [scalar 3]]
       (Some [])].
Proof.
  assert (Hall : allocated one_tape [0%nat]) by (repeat constructor).
  split; [exact Hall|].
  exact (proj2 (jax_forward_mode_tangent [0%nat] forward_backend []
                  [[scalar 3]] [[scalar 1]] one_tape Hall)).
Defined.

Lemma jax_legacy_device_method_vjp_witness :
  is_gradient_transform device_gradients = false ∧
  allocated one_tape [0%nat] ∧
  events (Jax._execute_legacy_wrapped_exec_bwd [0%nat] backend
            device_gradients [] [[scalar 3]] [scalar 1]) one_tape
  = [CallGradientFn [convert_to_numpy_parameters expval_tape] []].
Proof.
  assert (Hall : allocated one_tape [0%nat]) by (repeat constructor).
  split; [reflexivity|]. split; [exact Hall|].
  exact (proj2 (jax_legacy_device_method_vjp [0%nat] backend device_gradients
                  [] [[scalar 3]] [scalar 1] one_tape eq_refl Hall)).
Defined.

Lemma jacobian_cache_miss_witness :
  allocated two_tapes [0%nat; 1%nat] ∧
  events (Autograd._vjp_legacy_get_jac_with_caching [0%nat; 1%nat] backend
            param_shift [] None) two_tapes
  = [CallExecuteFn JacobianCache
       [convert_to_numpy_parameters expval_tape] (Some []);
     CallExecuteFn JacobianCache
       [convert_to_numpy_parameters probs_tape] (Some [])].
Proof.
  assert (Hall : allocated two_tapes [0%nat; 1%nat]) by (repeat constructor).
  split; [exact Hall|].
  destruct (proj2 (jacobian_cache_miss [0%nat; 1%nat] (LegacyDevice None)
                     backend param_shift [] two_tapes) Hall) as [_ Hev].
  exact (Hev eq_refl).
Defined.

Lemma autograd_recursion_step_witness :
  is_gradient_transform param_shift = true ∧ 1 ≠ 2 ∧
  active_return one_tape = true ∧
  events (Autograd.vjp_grad_fn ([scalar 3], []) [0%nat] (LegacyDevice None)
            backend (Some param_shift) [] 1 2 None ([scalar 1], [])) one_tape
  = [Enter AutogradExecute (1 + 1) 2 [1%nat];
     CallExecuteFn ForwardPass
       [convert_to_numpy_parameters (recompute_trainable expval_tape)]
       (Some [])].
Proof.
  assert (Hn : 1 ≠ 2) by lia.
  split; [reflexivity|]. split; [exact Hn|]. split; [reflexivity|].
  exact (proj2 (autograd_recursion_step ([scalar 3], []) [0%nat]
                  (LegacyDevice None) backend param_shift [] 1 2 None
                  ([scalar 1], []) one_tape eq_refl Hn eq_refl eq_refl
                  (false, None) eq_refl)).
Defined.

Lemma jax_recursion_step_witness :
  is_gradient_transform param_shift = true ∧ 1 ≠ 2 ∧
  allocated one_tape [0%nat] ∧
  ∃ locs,
    events (Jax._execute_bwd_execute_wrapper_jvp [0%nat] (LegacyDevice None)
              backend param_shift [] 1 2 false None [[scalar 3]] [[scalar 1]])
           one_tape
    = [Enter JaxExecute (1 + 1) 2 locs;
       CallExecuteFn ForwardPass
         [forward_tape (substituted false expval_tape [scalar 3])] (Some []);
       CallExecuteFn ForwardPass [substituted true expval_tape [scalar 3]]
         (Some [])].
Proof.
  assert (Hn : 1 ≠ 2) by lia.
  assert (Hall : allocated one_tape [0%nat]) by (repeat constructor).
  split; [reflexivity|]. split; [exact Hn|]. split; [exact Hall|].
  exact (proj2 (jax_recursion_step [0%nat] (LegacyDevice None) backend
                  param_shift [] 1 2 false None [[scalar 3]] [[scalar 1]]
                  one_tape eq_refl Hn Hall)).
Defined.

End FurtherExamples.
